(** * Verification of the exchange connectivity core

    A shallow embedding of [connectivity/calls.py] (timestamp conversion,
    the request pipeline, request signing, the response normalizers) and of
    the supervisor in [run.py] (observer dispatch under a lock, the worker
    liveness loop), followed by the properties of the specification that
    concern them.

    Conventions.  A Python [str] is represented by the sequence of its UTF-8
    bytes, held in a Rocq [string]; concatenation of texts is concatenation
    of their encodings, and [s.encode('utf8')] is the byte list of the
    string.  Machine words are [Z] with the wrap-around written out. *)

From Stdlib Require Import ZArith QArith List String Ascii Bool Lia.
From Stdlib Require Import DecimalString DecimalPos DecimalZ Qround Qpower Sorted.
Import ListNotations.
Local Open Scope string_scope.
Local Open Scope list_scope.
Local Open Scope Z_scope.
Set Warnings "-register-all".

(* ================================================================== *)
(** ** Bytes and hexadecimal text *)

Module Bytes.

Definition bytes := list Z.

(** [s.encode('utf8')] under the representation convention above. *)
Definition encode_utf8 (s : string) : bytes :=
  map (fun c => Z.of_N (N_of_ascii c)) (list_ascii_of_string s).

Definition hex_digit (d : Z) : ascii :=
  if d <? 10 then ascii_of_N (Z.to_N (48 + d))
  else ascii_of_N (Z.to_N (87 + d)).

(** [bytes.hex()]: two lower-case digits per byte. *)
Fixpoint hex (bs : bytes) : string :=
  match bs with
  | [] => EmptyString
  | b :: r => String (hex_digit (b / 16)) (String (hex_digit (b mod 16)) (hex r))
  end.

Definition upper_ascii (c : ascii) : ascii :=
  let n := N_of_ascii c in
  if ((97 <=? n) && (n <=? 122))%N then ascii_of_N (n - 32) else c.

(** [str.upper()] on the ASCII range. *)
Fixpoint upper (s : string) : string :=
  match s with
  | EmptyString => EmptyString
  | String c r => String (upper_ascii c) (upper r)
  end.

Definition xor_with (k : Z) (bs : bytes) : bytes := map (Z.lxor k) bs.

End Bytes.

(* ================================================================== *)
(** ** SHA-256 (FIPS 180-4) and HMAC (RFC 2104), as [hashlib] and [hmac]
       compute them *)

Module SHA256.
Import Bytes.

Definition add32 (x y : Z) : Z := (x + y) mod 2 ^ 32.
Definition rotr (n x : Z) : Z :=
  Z.lor (Z.shiftr x n) ((Z.shiftl x (32 - n)) mod 2 ^ 32).
Definition not32 (x : Z) : Z := Z.lxor x 0xFFFFFFFF.

Definition Ch (x y z : Z) := Z.lxor (Z.land x y) (Z.land (not32 x) z).
Definition Maj (x y z : Z) :=
  Z.lxor (Z.lxor (Z.land x y) (Z.land x z)) (Z.land y z).
Definition bsig0 x := Z.lxor (Z.lxor (rotr 2 x) (rotr 13 x)) (rotr 22 x).
Definition bsig1 x := Z.lxor (Z.lxor (rotr 6 x) (rotr 11 x)) (rotr 25 x).
Definition ssig0 x := Z.lxor (Z.lxor (rotr 7 x) (rotr 18 x)) (Z.shiftr x 3).
Definition ssig1 x := Z.lxor (Z.lxor (rotr 17 x) (rotr 19 x)) (Z.shiftr x 10).

(** The constants are fractional parts of roots of the first primes: the
    first 32 bits of the cube roots of the first sixty-four for the round
    constants, of the square roots of the first eight for the initial
    state. *)
Definition is_prime (n : Z) : bool :=
  forallb (fun d => negb (n mod Z.of_nat d =? 0)) (seq 2 (Z.to_nat n - 2)).

Definition primes_upto (n : nat) : list Z :=
  filter is_prime (map Z.of_nat (seq 2 (n - 1))).

(** Integer cube root, bit by bit from the top. *)
Fixpoint cube_root_bits (bits : nat) (n r : Z) : Z :=
  match bits with
  | O => r
  | S b =>
      let c := r + 2 ^ Z.of_nat b in
      if c * c * c <=? n then cube_root_bits b n c else cube_root_bits b n r
  end.

Definition K : list Z :=
  Eval vm_compute in
    map (fun p => cube_root_bits 40 (p * 2 ^ 96) 0 mod 2 ^ 32)
        (primes_upto 311).

Definition H0 : list Z :=
  Eval vm_compute in
    map (fun p => Z.sqrt (p * 2 ^ 64) mod 2 ^ 32) (primes_upto 19).

(** The message is followed by the byte 0x80, zeros up to 56 modulo 64, and
    the bit length on eight bytes, big-endian. *)
Definition be_bytes (n : nat) (x : Z) : bytes :=
  map (fun i => (Z.shiftr x (8 * Z.of_nat i)) mod 256) (rev (seq 0 n)).

Definition pad (msg : bytes) : bytes :=
  let l := Z.of_nat (List.length msg) in
  let zeros := Z.to_nat ((55 - l) mod 64) in
  msg ++ [0x80] ++ repeat 0 zeros ++ be_bytes 8 (8 * l).

Fixpoint be_words (fuel : nat) (bs : bytes) : list Z :=
  match fuel, bs with
  | S f, a :: b :: c :: d :: r =>
      (((a * 256 + b) * 256 + c) * 256 + d) :: be_words f r
  | _, _ => []
  end.

(** The message schedule, most recent word first while it is extended. *)
Fixpoint extend (n : nat) (rw : list Z) : list Z :=
  match n with
  | O => rw
  | S m =>
      let x := add32 (add32 (ssig1 (nth 1 rw 0)) (nth 6 rw 0))
                     (add32 (ssig0 (nth 14 rw 0)) (nth 15 rw 0)) in
      extend m (x :: rw)
  end.

Definition schedule (block : list Z) : list Z := rev (extend 48 (rev block)).

Record regs := Regs { ra : Z; rb : Z; rc : Z; rd : Z;
                      re : Z; rf : Z; rg : Z; rh : Z }.

Definition round (r : regs) (kw : Z * Z) : regs :=
  let (k, w) := kw in
  let t1 := add32 (add32 (add32 (rh r) (bsig1 (re r)))
                         (add32 (Ch (re r) (rf r) (rg r)) k)) w in
  let t2 := add32 (bsig0 (ra r)) (Maj (ra r) (rb r) (rc r)) in
  Regs (add32 t1 t2) (ra r) (rb r) (rc r) (add32 (rd r) t1) (re r) (rf r) (rg r).

Definition regs_of (h : list Z) : regs :=
  Regs (nth 0 h 0) (nth 1 h 0) (nth 2 h 0) (nth 3 h 0)
       (nth 4 h 0) (nth 5 h 0) (nth 6 h 0) (nth 7 h 0).

Definition list_of (r : regs) : list Z :=
  [ra r; rb r; rc r; rd r; re r; rf r; rg r; rh r].

Definition compress (h : list Z) (block : list Z) : list Z :=
  let r := fold_left round (combine K (schedule block)) (regs_of h) in
  map (fun p => add32 (fst p) (snd p)) (combine h (list_of r)).

Fixpoint blocks (fuel : nat) (ws : list Z) : list (list Z) :=
  match fuel, ws with
  | S f, _ :: _ => firstn 16 ws :: blocks f (skipn 16 ws)
  | _, _ => []
  end.

Definition digest (msg : bytes) : bytes :=
  let p := pad msg in
  let ws := be_words (List.length p) p in
  let h := fold_left compress (blocks (List.length ws) ws) H0 in
  List.concat (map (be_bytes 4) h).

Definition block_size : nat := 64.

(** [hmac.new(key, msg, hashlib.sha256).digest()]. *)
Definition hmac (key msg : bytes) : bytes :=
  let k0 := if (Nat.ltb block_size (List.length key)) then digest key else key in
  let k := k0 ++ repeat 0 (block_size - List.length k0)%nat in
  digest (xor_with 0x5c k ++ digest (xor_with 0x36 k ++ msg)).

Definition hmac_hexdigest (key msg : bytes) : string := hex (hmac key msg).

End SHA256.

(* ================================================================== *)
(** ** Python values, exceptions and the text-level library functions *)

Module Py.

(** [decimal.Decimal]: sign, coefficient and exponent as [as_tuple] shows
    them; the value of a finite decimal is [(-1)^sign * coeff * 10^exp]. *)
Inductive decimal :=
  | DFinite (sign : bool) (coeff : N) (exp : Z)
  | DInf (sign : bool)
  | DNaN (sign : bool) (signaling : bool) (diag : N).

(** A [datetime.datetime] built by [fromtimestamp], identified by the POSIX
    second it denotes in the process's time zone. *)
Record datetime := Datetime { posix : Z }.

(** The values a decoded JSON body is made of, and the two kinds of object
    the normalizers put in their place.  JSON numbers with a fraction
    (Python [float]) are not represented. *)
Inductive pyval :=
  | PNone
  | PBool (b : bool)
  | PInt (z : Z)
  | PStr (s : string)
  | PList (l : list pyval)
  | PDict (d : list (string * pyval))
  | PDecimal (d : decimal)
  | PDatetime (t : datetime).

Inductive exn :=
  | ValueError
  | TypeError
  | KeyError (k : pyval)
  | IndexError
  | OverflowError
  | InvalidOperation
  | TransportError
  | APIError (payload : pyval)
  | Exception_ (msg : string)
  | KeyboardInterrupt.

(** Outcome of a Python expression or call: a value, or a raised exception. *)
Inductive res (A : Type) :=
  | Ok (a : A)
  | Raise (e : exn).
Arguments Ok {A} a.
Arguments Raise {A} e.

Definition bind {A B} (m : res A) (k : A -> res B) : res B :=
  match m with
  | Ok a => k a
  | Raise e => Raise e
  end.

Declare Scope py_scope.
Delimit Scope py_scope with py.
Notation "x <- m ;; k" := (bind m (fun x => k))
  (at level 61, m at next level, right associativity) : py_scope.
Notation "' p <- m ;; k" := (bind m (fun p => k))
  (at level 61, p pattern, m at next level, right associativity) : py_scope.

(** Left-to-right evaluation of [f] over a sequence, stopping at the first
    exception. *)
Fixpoint map_res {A B} (f : A -> res B) (l : list A) : res (list B) :=
  match l with
  | [] => Ok []
  | a :: r =>
      match f a with
      | Raise e => Raise e
      | Ok b => match map_res f r with
                | Raise e => Raise e
                | Ok bs => Ok (b :: bs)
                end
      end
  end.

Definition is_ValueError (e : exn) : bool :=
  match e with ValueError => true | _ => false end.

(** [try: body  except <class>: handler]. *)
Definition try_except {A} (caught : exn -> bool) (body : res A)
    (handler : res A) : res A :=
  match body with
  | Ok a => Ok a
  | Raise e => if caught e then handler else Raise e
  end.

(** *** Dictionaries and sequences *)

Definition dict := list (string * pyval).

Fixpoint dict_get (d : dict) (k : string) : option pyval :=
  match d with
  | [] => None
  | (k', v) :: r => if String.eqb k k' then Some v else dict_get r k
  end.

(** [d[k] = v]: an existing key keeps its position, a new one goes last. *)
Fixpoint dict_set (d : dict) (k : string) (v : pyval) : dict :=
  match d with
  | [] => [(k, v)]
  | (k', v') :: r =>
      if String.eqb k k' then (k', v) :: r else (k', v') :: dict_set r k v
  end.

Definition dict_has (d : dict) (k : string) : bool :=
  match dict_get d k with Some _ => true | None => false end.

(** [d.update(e)]. *)
Definition dict_update (d e : dict) : dict :=
  fold_left (fun acc kv => dict_set acc (fst kv) (snd kv)) e d.

(** Truth value of an object, as [not x] and [if x] test it. *)
Definition truthy (v : pyval) : bool :=
  match v with
  | PNone => false
  | PBool b => b
  | PInt z => negb (z =? 0)
  | PStr s => negb (String.eqb s EmptyString)
  | PList l => match l with [] => false | _ => true end
  | PDict d => match d with [] => false | _ => true end
  | PDecimal (DFinite _ c _) => negb (c =? 0)%N
  | PDecimal _ => true
  | PDatetime _ => true
  end.

Definition is_continuation (c : ascii) : bool :=
  let n := N_of_ascii c in ((128 <=? n) && (n <? 192))%N.

(** The characters of a text: a lead byte with its continuation bytes. *)
Fixpoint chars_aux (cur : string) (s : string) : list string :=
  match s with
  | EmptyString => [cur]
  | String c r =>
      if is_continuation c then chars_aux (cur ++ String c EmptyString)%string r
      else cur :: chars_aux (String c EmptyString) r
  end.

Definition chars (s : string) : list string :=
  match s with
  | EmptyString => []
  | String c r => chars_aux (String c EmptyString) r
  end.

(** What [for x in v] goes through. *)
Definition iterate (v : pyval) : res (list pyval) :=
  match v with
  | PList l => Ok l
  | PDict d => Ok (map (fun kv => PStr (fst kv)) d)
  | PStr s => Ok (map PStr (chars s))
  | _ => Raise TypeError
  end.

(** [(a, b) = v]. *)
Definition unpack2 (v : pyval) : res (pyval * pyval) :=
  bind (iterate v) (fun l =>
    match l with
    | [a; b] => Ok (a, b)
    | _ => Raise ValueError
    end).

(** [v[k]] for a text key. *)
Definition getitem (v : pyval) (k : string) : res pyval :=
  match v with
  | PDict d => match dict_get d k with
               | Some x => Ok x
               | None => Raise (KeyError (PStr k))
               end
  | _ => Raise TypeError
  end.

(** [v[0]]. *)
Definition getitem0 (v : pyval) : res pyval :=
  match v with
  | PList (x :: _) => Ok x
  | PList [] => Raise IndexError
  | PStr s => match chars s with
              | c :: _ => Ok (PStr c)
              | [] => Raise IndexError
              end
  | PDict _ => Raise (KeyError (PInt 0))
  | _ => Raise TypeError
  end.

(** [v[k] = x] for a text key. *)
Definition setitem (v : pyval) (k : string) (x : pyval) : res pyval :=
  match v with
  | PDict d => Ok (PDict (dict_set d k x))
  | _ => Raise TypeError
  end.

Fixpoint prefix (p s : string) : bool :=
  match p, s with
  | EmptyString, _ => true
  | String a p', String b s' => Ascii.eqb a b && prefix p' s'
  | _, _ => false
  end.

Fixpoint substring_of (p s : string) : bool :=
  prefix p s ||
  match s with
  | EmptyString => false
  | String _ s' => substring_of p s'
  end.

Definition is_str (k : string) (v : pyval) : bool :=
  match v with PStr s => String.eqb k s | _ => false end.

(** [k in v] for a text [k]. *)
Definition contains (k : string) (v : pyval) : res bool :=
  match v with
  | PDict d => Ok (dict_has d k)
  | PList l => Ok (existsb (is_str k) l)
  | PStr s => Ok (substring_of k s)
  | _ => Raise TypeError
  end.

(** *** Scanning of numeric text (ASCII digits and white space) *)

Definition is_digit (c : ascii) : bool :=
  let n := N_of_ascii c in ((48 <=? n) && (n <=? 57))%N.

Definition digit_val (c : ascii) : N := (N_of_ascii c - 48)%N.

Definition is_space (c : ascii) : bool :=
  let n := N_of_ascii c in
  (((9 <=? n) && (n <=? 13)) || ((28 <=? n) && (n <=? 32)))%N.

Fixpoint lstrip (s : string) : string :=
  match s with
  | String c r => if is_space c then lstrip r else s
  | EmptyString => EmptyString
  end.

Fixpoint rstrip (s : string) : string :=
  match s with
  | EmptyString => EmptyString
  | String c r =>
      match rstrip r with
      | EmptyString => if is_space c then EmptyString else String c EmptyString
      | r' => String c r'
      end
  end.

Definition strip (s : string) : string := rstrip (lstrip s).

(** Longest prefix of digits, and what follows it. *)
Fixpoint span_digits (s : string) : string * string :=
  match s with
  | String c r =>
      if is_digit c then let (d, t) := span_digits r in (String c d, t)
      else (EmptyString, s)
  | EmptyString => (EmptyString, EmptyString)
  end.

(** The number a sequence of digits writes, most significant first. *)
Fixpoint digits_value_from (acc : N) (s : string) : N :=
  match s with
  | EmptyString => acc
  | String c r => digits_value_from (10 * acc + digit_val c)%N r
  end.

Definition digits_value (s : string) : N := digits_value_from 0 s.

Definition take_sign (s : string) : bool * string :=
  match s with
  | String c r =>
      if Ascii.eqb c "-" then (true, r)
      else if Ascii.eqb c "+" then (false, r)
      else (false, s)
  | EmptyString => (false, s)
  end.

(** *** [decimal.Decimal(v)] *)

Definition lower_ascii (c : ascii) : ascii :=
  let n := N_of_ascii c in
  if ((65 <=? n) && (n <=? 90))%N then ascii_of_N (n + 32) else c.

Fixpoint lower (s : string) : string :=
  match s with
  | EmptyString => EmptyString
  | String c r => String (lower_ascii c) (lower r)
  end.

Fixpoint remove_underscores (s : string) : string :=
  match s with
  | EmptyString => EmptyString
  | String c r =>
      if Ascii.eqb c "_" then remove_underscores r
      else String c (remove_underscores r)
  end.

Definition signed (neg : bool) (n : N) : Z :=
  if neg then - Z.of_N n else Z.of_N n.

(** [[-+]?\d+] after the exponent marker. *)
Definition parse_exponent (s : string) : option (Z * string) :=
  let (neg, r) := take_sign s in
  let (ds, t) := span_digits r in
  match ds with
  | EmptyString => None
  | _ => Some (signed neg (digits_value ds), t)
  end.

(** An optional point followed by digits: the digits, and what follows. *)
Definition fraction_part (s : string) : string * string :=
  match s with
  | String c r =>
      if Ascii.eqb c "." then span_digits r else (EmptyString, s)
  | EmptyString => (EmptyString, s)
  end.

(** An optional exponent: its value (0 without one), and what follows. *)
Definition exponent_part (s : string) : option (Z * string) :=
  match s with
  | String c r =>
      if Ascii.eqb (lower_ascii c) "e" then parse_exponent r
      else Some (0, s)
  | EmptyString => Some (0, s)
  end.

(** The numeric branch of the constructor's grammar: digits with an optional
    point, at least one digit, an optional exponent, then the end. *)
Definition parse_finite (neg : bool) (s : string) : option decimal :=
  let (ip, r1) := span_digits s in
  let (fp, r2) := fraction_part r1 in
  if String.eqb ip EmptyString && String.eqb fp EmptyString then None
  else
    match exponent_part r2 with
    | Some (e, EmptyString) =>
        Some (DFinite neg (digits_value (ip ++ fp)%string)
                      (e - Z.of_nat (String.length fp)))
    | _ => None
    end.

(** The other branches: an infinity, or a NaN with diagnostic digits. *)
Definition parse_special (neg : bool) (s : string) : option decimal :=
  let l := lower s in
  if String.eqb l "inf" || String.eqb l "infinity" then Some (DInf neg)
  else
    let '(sig, r) :=
      match l with
      | String "s" r => (true, r)
      | _ => (false, l)
      end in
    if prefix "nan" r then
      let (ds, t) := span_digits (substring 3 (String.length r - 3) r) in
      match t with
      | EmptyString => Some (DNaN neg sig (digits_value ds))
      | _ => None
      end
    else None.

Definition Decimal_of_str (s : string) : res decimal :=
  let (neg, r) := take_sign (remove_underscores (strip s)) in
  match parse_finite neg r with
  | Some d => Ok d
  | None =>
      match parse_special neg r with
      | Some d => Ok d
      | None => Raise InvalidOperation
      end
  end.

Definition as_int (v : pyval) : option Z :=
  match v with
  | PInt z => Some z
  | PBool b => Some (if b then 1 else 0)
  | _ => None
  end.

Fixpoint digits_of_seq (acc : N) (l : list pyval) : option N :=
  match l with
  | [] => Some acc
  | v :: r =>
      match as_int v with
      | Some z => if (0 <=? z) && (z <=? 9)
                  then digits_of_seq (10 * acc + Z.to_N z)%N r
                  else None
      | None => None
      end
  end.

(** The [(sign, digits, exponent)] form of the constructor. *)
Definition Decimal_of_seq (l : list pyval) : res decimal :=
  match l with
  | [sg; PList ds; ex] =>
      match as_int sg, digits_of_seq 0 ds with
      | Some z, Some c =>
          if (z =? 0) || (z =? 1) then
            match ex with
            | PStr "F" => Ok (DInf (z =? 1))
            | PStr "n" => Ok (DNaN (z =? 1) false c)
            | PStr "N" => Ok (DNaN (z =? 1) true c)
            | PInt e => Ok (DFinite (z =? 1) c e)
            | PBool b => Ok (DFinite (z =? 1) c (if b then 1 else 0))
            | _ => Raise ValueError
            end
          else Raise ValueError
      | _, _ => Raise ValueError
      end
  | _ => Raise ValueError
  end.

Definition Decimal (v : pyval) : res decimal :=
  match v with
  | PStr s => Decimal_of_str s
  | PInt z => Ok (DFinite (z <? 0) (Z.abs_N z) 0)
  | PBool b => Ok (DFinite false (if b then 1 else 0) 0)
  | PDecimal d => Ok d
  | PList l => Decimal_of_seq l
  | _ => Raise TypeError
  end.


(** *** [int(v)] *)

(** Digits, single underscores allowed between two digits. *)
Fixpoint int_digits (acc : N) (after_digit : bool) (s : string) : option N :=
  match s with
  | EmptyString => if after_digit then Some acc else None
  | String c r =>
      if is_digit c then int_digits (10 * acc + digit_val c)%N true r
      else if Ascii.eqb c "_" && after_digit then
        match r with
        | EmptyString => None
        | _ => int_digits acc false r
        end
      else None
  end.

Definition int_of_str (s : string) : option Z :=
  let (neg, r) := take_sign (strip s) in
  match int_digits 0 false r with
  | Some n => Some (signed neg n)
  | None => None
  end.

Definition py_int (v : pyval) : res Z :=
  match v with
  | PInt z => Ok z
  | PBool b => Ok (if b then 1 else 0)
  | PStr s => match int_of_str s with
              | Some z => Ok z
              | None => Raise ValueError
              end
  | PDecimal (DFinite neg c e) =>
      Ok (if 0 <=? e then signed neg c * 10 ^ e
          else Z.quot (signed neg c) (10 ^ (- e)))
  | PDecimal (DInf _) => Raise OverflowError
  | PDecimal (DNaN _ _ _) => Raise ValueError
  | _ => Raise TypeError
  end.

End Py.

(* ================================================================== *)
(** ** The [time] and [datetime] functions used by the timestamp
       conversion *)

Module PyTime.
Import Py.

Record struct_time := StructTime {
  tm_year : Z; tm_mon : Z; tm_mday : Z;
  tm_hour : Z; tm_min : Z; tm_sec : Z }.

(** The directives of the two formats of the source. *)
Inductive directive := DY | Dm | Dd | DH | DM | DS | Df.

Inductive token :=
  | TLit (c : ascii)
  | TSpaces
  | TField (f : directive).

(** A format is read into tokens: a run of white space stands for one or
    more white-space characters of the data, a directive for its field. *)
Fixpoint compile_format (s : string) : option (list token) :=
  match s with
  | EmptyString => Some []
  | String "%" (String c r) =>
      let field :=
        match c with
        | "Y" => Some (TField DY) | "m" => Some (TField Dm)
        | "d" => Some (TField Dd) | "H" => Some (TField DH)
        | "M" => Some (TField DM) | "S" => Some (TField DS)
        | "f" => Some (TField Df) | "%" => Some (TLit "%")
        | _ => None
        end%char in
      match field, compile_format r with
      | Some t, Some ts => Some (t :: ts)
      | _, _ => None
      end
  | String c r =>
      match compile_format r with
      | Some ts =>
          if is_space c then
            match ts with
            | TSpaces :: _ => Some ts
            | _ => Some (TSpaces :: ts)
            end
          else Some (TLit c :: ts)
      | None => None
      end
  end.

Definition in_range (lo hi : ascii) (c : ascii) : bool :=
  ((N_of_ascii lo <=? N_of_ascii c) && (N_of_ascii c <=? N_of_ascii hi))%N.

Definition one (a : ascii) (c : ascii) : bool := Ascii.eqb a c.

(** The alternatives of each field, in the order they are tried. *)
Definition alternatives (f : directive) : list (list (ascii -> bool)) :=
  match f with
  | DY => [[is_digit; is_digit; is_digit; is_digit]]
  | Dm => [[one "1"; in_range "0" "2"]; [one "0"; in_range "1" "9"];
           [in_range "1" "9"]]
  | Dd => [[one "3"; in_range "0" "1"]; [in_range "1" "2"; is_digit];
           [one "0"; in_range "1" "9"]; [in_range "1" "9"];
           [one " "; in_range "1" "9"]]
  | DH => [[one "2"; in_range "0" "3"]; [in_range "0" "1"; is_digit];
           [is_digit]]
  | DM => [[in_range "0" "5"; is_digit]; [is_digit]]
  | DS => [[one "6"; in_range "0" "1"]; [in_range "0" "5"; is_digit];
           [is_digit]]
  | Df => [repeat is_digit 6; repeat is_digit 5; repeat is_digit 4;
           repeat is_digit 3; repeat is_digit 2; repeat is_digit 1]
  end%char.

Fixpoint match_classes (cs : list (ascii -> bool)) (s : string)
    : option (string * string) :=
  match cs, s with
  | [], _ => Some (EmptyString, s)
  | p :: cs', String c r =>
      if p c then
        match match_classes cs' r with
        | Some (m, t) => Some (String c m, t)
        | None => None
        end
      else None
  | _ :: _, EmptyString => None
  end.

(** Every way of taking one or more leading white-space characters, the
    longest first. *)
Fixpoint space_splits (s : string) : list (string * string) :=
  match s with
  | String c r =>
      if is_space c then
        map (fun mt => (String c (fst mt), snd mt)) (space_splits r)
        ++ [(String c EmptyString, r)]
      else []
  | EmptyString => []
  end.

Definition candidates (t : token) (s : string) : list (string * string) :=
  match t with
  | TLit c =>
      match s with
      | String c' r =>
          if Ascii.eqb (lower_ascii c) (lower_ascii c')
          then [(String c' EmptyString, r)] else []
      | EmptyString => []
      end
  | TSpaces => space_splits s
  | TField f =>
      flat_map (fun cs => match match_classes cs s with
                          | Some mt => [mt]
                          | None => []
                          end) (alternatives f)
  end.

Definition binding := (directive * string)%type.

(** First match of the tokens against a prefix of the data, alternatives
    tried in order with backtracking; the fields found and the data left. *)
Fixpoint match_tokens (ts : list token) (s : string)
    : option (list binding * string) :=
  match ts with
  | [] => Some ([], s)
  | t :: ts' =>
      let try1 (mt : string * string) :=
        match match_tokens ts' (snd mt) with
        | Some (bs, rest) =>
            Some (match t with
                  | TField f => (f, fst mt) :: bs
                  | _ => bs
                  end, rest)
        | None => None
        end in
      fold_right (fun mt later =>
                    match try1 mt with
                    | Some x => Some x
                    | None => later
                    end) None (candidates t s)
  end.

Definition directive_eqb (a b : directive) : bool :=
  match a, b with
  | DY, DY | Dm, Dm | Dd, Dd | DH, DH | DM, DM | DS, DS | Df, Df => true
  | _, _ => false
  end.

Fixpoint field_of (bs : list binding) (f : directive) (default : Z) : Z :=
  match bs with
  | [] => default
  | (g, txt) :: r =>
      if directive_eqb f g then Z.of_N (digits_value (lstrip txt))
      else field_of r f default
  end.

Definition is_leap (y : Z) : bool :=
  ((y mod 4 =? 0) && negb (y mod 100 =? 0)) || (y mod 400 =? 0).

Definition days_in_month (y m : Z) : Z :=
  if m =? 2 then (if is_leap y then 29 else 28)
  else if (m =? 4) || (m =? 6) || (m =? 9) || (m =? 11) then 30
  else 31.

(** [datetime.date(y, m, d)] accepts the triple. *)
Definition valid_date (y m d : Z) : bool :=
  (1 <=? y) && (y <=? 9999) && (1 <=? m) && (m <=? 12)
  && (1 <=? d) && (d <=? days_in_month y m).

(** [time.strptime(data, format)]: the data must match the format entirely
    and name a real calendar day; the fraction of a second is read and
    dropped.  Anything else is a [ValueError]. *)
Definition strptime (data : pyval) (format : string) : res struct_time :=
  match data with
  | PStr s =>
      match compile_format format with
      | None => Raise ValueError
      | Some ts =>
          match match_tokens ts s with
          | Some (bs, EmptyString) =>
              let y := field_of bs DY 1900 in
              let m := field_of bs Dm 1 in
              let d := field_of bs Dd 1 in
              if valid_date y m d then
                Ok (StructTime y m d (field_of bs DH 0) (field_of bs DM 0)
                               (field_of bs DS 0))
              else Raise ValueError
          | _ => Raise ValueError
          end
      end
  | _ => Raise TypeError
  end.

(** Days from 1970-01-01 to the given civil date. *)
Definition days_from_civil (y m d : Z) : Z :=
  let y' := if m <=? 2 then y - 1 else y in
  let era := y' / 400 in
  let yoe := y' - era * 400 in
  let mp := if 2 <? m then m - 3 else m + 9 in
  let doy := (153 * mp + 2) / 5 + d - 1 in
  let doe := yoe * 365 + yoe / 4 - yoe / 100 + doy in
  era * 146097 + doe - 719468.

(** [time.mktime] for a process whose local time is UTC plus a fixed
    number of seconds. *)
Definition mktime (utc_offset : Z) (t : struct_time) : res Z :=
  Ok (days_from_civil (tm_year t) (tm_mon t) (tm_mday t) * 86400
      + tm_hour t * 3600 + tm_min t * 60 + tm_sec t - utc_offset).

(** [datetime.datetime.fromtimestamp]: the local year must lie in
    1..9999. *)
Definition fromtimestamp (utc_offset : Z) (ts : Z) : res datetime :=
  if 2 ^ 63 <=? Z.abs ts then Raise OverflowError
  else if (-62135596800 <=? ts + utc_offset)
          && (ts + utc_offset <? 253402300800)
  then Ok (Datetime ts)
  else Raise ValueError.

End PyTime.

(* ================================================================== *)
(** ** [connectivity/calls.py] *)

Module Calls.
Import Py Bytes.
Local Open Scope py_scope.

(** The library functions the timestamp conversion calls. *)
Class Library := {
  lib_int : pyval -> res Z;
  lib_strptime : pyval -> string -> res PyTime.struct_time;
  lib_mktime : PyTime.struct_time -> res Z;
  lib_fromtimestamp : Z -> res datetime }.

(** The interpreter's own, for a process whose local time is UTC plus
    [utc_offset] seconds. *)
Definition CPython (utc_offset : Z) : Library :=
  {| lib_int := py_int;
     lib_strptime := PyTime.strptime;
     lib_mktime := PyTime.mktime utc_offset;
     lib_fromtimestamp := PyTime.fromtimestamp utc_offset |}.

Definition DEFAULT_CURRENCY_PAIR : string := "btceur".

Section WithLibrary.
Context {L : Library}.

(** [dt(timestamp)]. *)
Definition dt (timestamp : pyval) : res pyval :=
  if negb (truthy timestamp) then Ok PNone
  else
    ts <- try_except is_ValueError
            (lib_int timestamp)
            (try_except is_ValueError
               (tm <- lib_strptime timestamp "%Y-%m-%d %H:%M:%S.%f" ;;
                lib_mktime tm)
               (tm <- lib_strptime timestamp "%Y-%m-%d %H:%M:%S" ;;
                lib_mktime tm)) ;;
    d <- lib_fromtimestamp ts ;;
    Ok (PDatetime d).

(** The call classes. *)
Inductive endpoint :=
  | APIAccountBalanceCall
  | APIBitcoinDepositAddressCall
  | APIBitcoinWithdrawalCall
  | APIBuyLimitOrderBTCEURCall
  | APICancelOrderCall
  | APIEURUSDConversionRateCall
  | APIOrderBookCall
  | APIOpenOrdersCall
  | APIRippleDepositAddressCall
  | APIRippleWithdrawalCall
  | APISellLimitBTCEUROrderCall
  | APITickerCall
  | APITransactionsCall
  | APIUnconfirmedBitcoinDepositsCall
  | APIUserTransactionsCall
  | APIWithdrawalRequestsCall.

Inductive http_method := GET | POST.

(** Classes derived from [APIPrivateCall]. *)
Definition is_private (e : endpoint) : bool :=
  match e with
  | APIEURUSDConversionRateCall | APIOrderBookCall | APITickerCall
  | APITransactionsCall => false
  | _ => true
  end.

Definition method (e : endpoint) : http_method :=
  if is_private e then POST else GET.

Definition url (e : endpoint) : string :=
  match e with
  | APIAccountBalanceCall => "balance/"
  | APIBitcoinDepositAddressCall => "bitcoin_deposit_address/"
  | APIBitcoinWithdrawalCall => "bitcoin_withdrawal/"
  | APIBuyLimitOrderBTCEURCall => "buy/" ++ DEFAULT_CURRENCY_PAIR ++ "/"
  | APICancelOrderCall => "cancel_order/"
  | APIEURUSDConversionRateCall => "eur_usd/"
  | APIOrderBookCall => "order_book/" ++ DEFAULT_CURRENCY_PAIR ++ "/"
  | APIOpenOrdersCall => "open_orders/all/"
  | APIRippleDepositAddressCall => "ripple_address/"
  | APIRippleWithdrawalCall => "ripple_withdrawal/"
  | APISellLimitBTCEUROrderCall => "sell/" ++ DEFAULT_CURRENCY_PAIR ++ "/"
  | APITickerCall => "ticker/" ++ DEFAULT_CURRENCY_PAIR ++ "/"
  | APITransactionsCall => "transactions/" ++ DEFAULT_CURRENCY_PAIR ++ "/"
  | APIUnconfirmedBitcoinDepositsCall => "unconfirmed_btc/"
  | APIUserTransactionsCall => "user_transactions/"
  | APIWithdrawalRequestsCall => "withdrawal_requests/"
  end%string.

(** *** The response hooks *)

Definition to_Decimal (v : pyval) : res pyval :=
  d <- Decimal v ;; Ok (PDecimal d).

Definition to_int (v : pyval) : res pyval :=
  z <- lib_int v ;; Ok (PInt z).

(** [r[key] = f(r[key])]. *)
Definition coerce (f : pyval -> res pyval) (key : string) (r : pyval)
    : res pyval :=
  x <- getitem r key ;;
  y <- f x ;;
  setitem r key y.

(** [if key in r: r[key] = f(r[key])]. *)
Definition coerce_if_present (f : pyval -> res pyval) (key : string)
    (r : pyval) : res pyval :=
  c <- contains key r ;;
  if c then coerce f key r else Ok r.

(** A sequence of statements, each working on the object the previous one
    left. *)
Fixpoint statements (l : list (pyval -> res pyval)) (r : pyval) : res pyval :=
  match l with
  | [] => Ok r
  | f :: l' => r' <- f r ;; statements l' r'
  end.

(** [r['reason'] = r['reason']['__all__'][0]]. *)
Definition first_reason (r : pyval) : res pyval :=
  x <- getitem r "reason" ;;
  y <- getitem x "__all__" ;;
  z <- getitem0 y ;;
  setitem r "reason" z.

(** [{'price': Decimal(price), 'amount': Decimal(amount)}] for
    [(price, amount)] taken from one row. *)
Definition book_row (row : pyval) : res pyval :=
  '(price, amount) <- unpack2 row ;;
  p <- Decimal price ;;
  a <- Decimal amount ;;
  Ok (PDict [("price", PDecimal p); ("amount", PDecimal a)]).

(** [r[side] = [ ... for (price, amount) in r[side]]]. *)
Definition book_side (side : string) (r : pyval) : res pyval :=
  x <- getitem r side ;;
  rows <- iterate x ;;
  rows' <- map_res book_row rows ;;
  setitem r side (PList rows').

(** [for x in response: <body on x>], the body updating [x] in place. *)
Definition for_each (body : pyval -> res pyval) (response : pyval)
    : res pyval :=
  items <- iterate response ;;
  items' <- map_res body items ;;
  match response with
  | PList _ => Ok (PList items')
  | _ => Ok response
  end.

(** The hook of each class: the response as the hook leaves it. *)
Definition process (e : endpoint) (response : pyval) : res pyval :=
  match e with
  | APIAccountBalanceCall =>
      statements [coerce to_Decimal "btc_reserved";
                  coerce to_Decimal "btc_available";
                  coerce to_Decimal "btc_balance";
                  coerce to_Decimal "usd_reserved";
                  coerce to_Decimal "usd_available";
                  coerce to_Decimal "usd_balance";
                  coerce to_Decimal "fee"] response
  | APIBuyLimitOrderBTCEURCall =>
      statements [coerce_if_present dt "datetime";
                  coerce_if_present to_Decimal "price";
                  coerce_if_present to_Decimal "amount";
                  (fun r => c <- contains "reason" r ;;
                            if c then first_reason r else Ok r)] response
  | APIEURUSDConversionRateCall =>
      statements [coerce to_Decimal "buy"; coerce to_Decimal "sell"] response
  | APIOrderBookCall =>
      statements [coerce dt "timestamp"; book_side "bids"; book_side "asks"]
                 response
  | APIOpenOrdersCall =>
      for_each (statements [coerce dt "datetime";
                            coerce to_Decimal "price";
                            coerce to_Decimal "amount"]) response
  | APISellLimitBTCEUROrderCall =>
      statements [coerce_if_present dt "datetime";
                  coerce_if_present to_Decimal "price";
                  coerce_if_present to_Decimal "amount"] response
  | APITickerCall =>
      statements [coerce to_Decimal "last"; coerce to_Decimal "high";
                  coerce to_Decimal "low"; coerce to_Decimal "volume";
                  coerce dt "timestamp";
                  coerce to_Decimal "bid"; coerce to_Decimal "ask"] response
  | APITransactionsCall =>
      for_each (statements [coerce dt "date";
                            coerce to_Decimal "price";
                            coerce to_Decimal "amount"]) response
  | APIUnconfirmedBitcoinDepositsCall =>
      statements [coerce to_Decimal "amount"; coerce to_int "confirmations"]
                 response
  | APIUserTransactionsCall =>
      for_each (statements [coerce dt "datetime";
                            coerce to_Decimal "usd";
                            coerce to_Decimal "btc";
                            coerce to_Decimal "fee"]) response
  | APIWithdrawalRequestsCall =>
      for_each (statements [coerce dt "datetime";
                            coerce to_Decimal "amount"]) response
  | APIBitcoinDepositAddressCall | APIBitcoinWithdrawalCall
  | APICancelOrderCall | APIRippleDepositAddressCall
  | APIRippleWithdrawalCall => Ok response
  end.

(** [_process_response]: the response object after the hook has worked on
    it, and what the hook returns; every hook of the file alters the
    response in place and returns nothing. *)
Definition _process_response (e : endpoint) (response : pyval)
    : res (pyval * option pyval) :=
  r <- process e response ;; Ok (r, None).

(** *** The request pipeline *)

Record request := Request {
  req_method : http_method;   (* GET: parameters in the query; POST: in the body *)
  req_url : string;
  req_params : dict }.

(** What a call does that can be seen from outside it. *)
Inductive event :=
  | Sent (rq : request)
  | Hook (e : endpoint) (payload : pyval).

(** The exchange seen from the caller: the decoded JSON body answered to a
    request, or the exception [requests] or [r.json()] raises. *)
Definition transport := request -> res pyval.

Definition has_error (response : pyval) : bool :=
  match response with
  | PDict d => dict_has d "error"
  | _ => false
  end.

(** [APICall.call(prefix_url, **params)]. *)
Definition APICall_call (e : endpoint) (net : transport)
    (prefix_url : string) (params : dict) : list event * res pyval :=
  let rq := Request (method e) (prefix_url ++ url e)%string params in
  match net rq with
  | Raise x => ([Sent rq], Raise x)
  | Ok response =>
      if has_error response then
        ([Sent rq],
         match getitem response "error" with
         | Ok v => Raise (APIError v)
         | Raise x => Raise x
         end)
      else
        match _process_response e response with
        | Raise x => ([Sent rq; Hook e response], Raise x)
        | Ok (response', new_response) =>
            ([Sent rq; Hook e response],
             Ok (match new_response with
                 | Some n => n
                 | None => response'
                 end))
        end
  end.

Record credentials := Credentials {
  client_id : string; api_key : string; api_secret : string }.

Definition Qtrunc (q : Q) : Z := Z.quot (Qnum q) (Z.pos (Qden q)).

Definition str (z : Z) : string := NilZero.string_of_int (Z.to_int z).

(** [_get_nonce()], for the clock reading [now] in seconds; the reading is
    taken as the rational number it denotes. *)
Definition _get_nonce (now : Q) : string :=
  str (Qtrunc (now * inject_Z (10 ^ 6))).

Definition sign (c : credentials) (nonce : string) : string :=
  let message := (nonce ++ client_id c ++ api_key c)%string in
  upper (SHA256.hmac_hexdigest (encode_utf8 (api_secret c))
                               (encode_utf8 message)).

(** [APIPrivateCall.call(prefix_url, **params)]. *)
Definition APIPrivateCall_call (e : endpoint) (c : credentials) (now : Q)
    (net : transport) (prefix_url : string) (params : dict)
    : list event * res pyval :=
  let nonce := _get_nonce now in
  let signature := sign c nonce in
  let params' :=
    dict_update params [("key", PStr (api_key c));
                        ("signature", PStr signature);
                        ("nonce", PStr nonce)] in
  APICall_call e net prefix_url params'.

(** [call] as each class resolves it. *)
Definition call (e : endpoint) (c : credentials) (now : Q) (net : transport)
    (prefix_url : string) (params : dict) : list event * res pyval :=
  if is_private e then APIPrivateCall_call e c now net prefix_url params
  else APICall_call e net prefix_url params.

End WithLibrary.


(** *** The specification's reading of a quantity *)

(** The value of a plain decimal literal, read digit by digit: the digits
    before the point count units, tens, ..., those after it tenths,
    hundredths, ...; an exponent scales by a power of ten. *)
Fixpoint spec_int_part (acc : Q) (s : string) : Q * string :=
  match s with
  | String c r =>
      if is_digit c
      then spec_int_part (acc * (10 # 1) + inject_Z (Z.of_N (digit_val c)))%Q r
      else (acc, s)
  | EmptyString => (acc, s)
  end.

Fixpoint spec_frac_part (acc : Q) (place : Q) (s : string) : Q * string :=
  match s with
  | String c r =>
      if is_digit c
      then spec_frac_part
             (acc + inject_Z (Z.of_N (digit_val c)) * place)%Q
             (place / (10 # 1))%Q r
      else (acc, s)
  | EmptyString => (acc, s)
  end.

Definition leading_digit (s : string) : bool :=
  match s with
  | String c _ => is_digit c
  | EmptyString => false
  end.

(** A literal has a digit before or right after its point. *)
Definition has_digit (s : string) : bool :=
  leading_digit s
  || match s with
     | String c t => Ascii.eqb c "." && leading_digit t
     | EmptyString => false
     end.

Definition spec_fraction (i : Q) (s : string) : Q * string :=
  match s with
  | String c t =>
      if Ascii.eqb c "." then spec_frac_part i (1 # 10)%Q t else (i, s)
  | EmptyString => (i, s)
  end.

Definition spec_scaled (v : Q) (s : string) : option Q :=
  match s with
  | EmptyString => Some v
  | String c t =>
      if (Ascii.eqb c "e" || Ascii.eqb c "E")%bool then
        match parse_exponent t with
        | Some (e, EmptyString) => Some (v * (10 # 1) ^ e)%Q
        | _ => None
        end
      else None
  end.

Definition spec_magnitude (s : string) : option Q :=
  let (i, r1) := spec_int_part 0%Q s in
  let (v, r2) := spec_fraction i r1 in
  if has_digit s then spec_scaled v r2 else None.

Definition spec_decimal_value (s : string) : option Q :=
  let (neg, r) := take_sign s in
  option_map (fun x => if neg then (- x)%Q else x) (spec_magnitude r).

End Calls.

(* ================================================================== *)
(** ** [run.py]: the observer entry point and the supervisor loop *)

Module Run.
Import Py.

(** A [threading.Lock]. *)
Inductive lock_state := Free | Held.

(** Modelled from the spec: the worker class ([Observable], a thread with
    [is_alive], [terminate] and [join]) is not part of the sources.  A worker
    is running or dead; [terminate] asks it to stop, [join] waits until it
    has finished, after which it is dead. *)
Record worker := Worker { alive : bool; stop_requested : bool }.

Definition is_alive (w : worker) : bool := alive w.
Definition terminate (w : worker) : worker := Worker (alive w) true.
Definition join (w : worker) : worker := Worker false (stop_requested w).

(** The type of the object that calls [notify]. *)
Inductive observable := BitstampAPI | OtherSource (type_name : string).

Definition is_BitstampAPI (o : observable) : bool :=
  match o with BitstampAPI => true | OtherSource _ => false end.

(** What the supervisor and the dispatch do, in the order they do it. *)
Inductive event :=
  | Acquire
  | Release
  | LogReceived
  | LogModelOutput
  | LogNoAction
  | LogInitiated
  | IsAlive (i : nat) (answer : bool)
  | LogDead (i : nat)
  | Terminate (i : nat)
  | Join (i : nat)
  | Sleep.

Section Trading.

(** The collaborators built in [__init__] (the price model, the action
    taker with the order system behind it) are not part of the sources:
    their state and their two entry points are parameters.  They do not hold
    the dispatch lock. *)
Variable world : Type.
Variable model_output action : Type.
Variable model_prices_call :
  list pyval * dict -> world -> world * res model_output.
Variable take_trading_action :
  model_output -> world -> world * res (option action).

Record trading := Trading {
  lock : lock_state;
  workers : list worker;
  collaborators : world;
  journal : list event }.

Definition record (ev : event) (t : trading) : trading :=
  Trading (lock t) (workers t) (collaborators t) (journal t ++ [ev]).

Definition with_world (w : world) (t : trading) : trading :=
  Trading (lock t) (workers t) w (journal t).

Definition with_lock (l : lock_state) (t : trading) : trading :=
  Trading l (workers t) (collaborators t) (journal t).

(** [price_update_notification(observable, *args, **kwargs)]. *)
Definition price_update_notification (payload : list pyval * dict)
    (t : trading) : trading * res unit :=
  let t := record LogReceived t in
  match model_prices_call payload (collaborators t) with
  | (w, Raise e) => (with_world w t, Raise e)
  | (w, Ok model_output) =>
      let t := record LogModelOutput (with_world w t) in
      match take_trading_action model_output (collaborators t) with
      | (w, Raise e) => (with_world w t, Raise e)
      | (w, Ok trading_action) =>
          let t := with_world w t in
          match trading_action with
          | None => (record LogNoAction t, Ok tt)
          | Some _ => (record LogInitiated t, Ok tt)
          end
      end
  end.

(** How a call ends: it returns or raises, or it never comes back from
    [lock.acquire()]. *)
Inductive outcome :=
  | Returns (r : res unit)
  | Blocks.

Definition is_Exception (e : exn) : bool :=
  match e with KeyboardInterrupt => false | _ => true end.

(** [notify(observable, *args, **kwargs)]. *)
Definition notify (o : observable) (payload : list pyval * dict)
    (t : trading) : trading * outcome :=
  match lock t with
  | Held => (t, Blocks)
  | Free =>
      let t := record Acquire (with_lock Held t) in
      (* try *)
      let (t, r) :=
        if is_BitstampAPI o then price_update_notification payload t
        else (t, Raise (Exception_ "Unknown type.")) in
      (* except Exception as e: raise e *)
      let r :=
        match r with
        | Raise e => if is_Exception e then Raise e else Raise e
        | Ok x => Ok x
        end in
      (* finally *)
      (record Release (with_lock Free t), Returns r)
  end.

(** *** The supervisor loop *)

(** One pass through the body of [while True] runs until it ends or until a
    [KeyboardInterrupt] arrives; [countdown] is the number of operations the
    pass still performs before the interrupt, if one is due. *)
Record pass := Pass { state : trading; countdown : option nat }.

(** An operation of the loop body: interrupted ([None]) or done. *)
Definition op (ev : event) (f : list worker -> list worker) (p : pass)
    : option pass :=
  match countdown p with
  | Some O => None
  | c =>
      let t := state p in
      Some (Pass (Trading (lock t) (f (workers t)) (collaborators t)
                          (journal t ++ [ev]))
                 (option_map Nat.pred c))
  end.

Fixpoint update_nth (i : nat) (f : worker -> worker) (l : list worker)
    : list worker :=
  match l, i with
  | [], _ => []
  | w :: r, O => f w :: r
  | w :: r, S j => w :: update_nth j f r
  end.

(** [for t in self.workers: t.terminate(); t.join()], from worker [i] on;
    the pass as the interrupt found it, when one arrived. *)
Fixpoint drain (i n : nat) (p : pass) : pass * bool :=
  match n with
  | O => (p, true)
  | S m =>
      match op (Terminate i) (update_nth i terminate) p with
      | None => (p, false)
      | Some p1 =>
          match op (Join i) (update_nth i join) p1 with
          | None => (p1, false)
          | Some p2 => drain (S i) m p2
          end
      end
  end.

Definition drain_all (p : pass) : pass * bool :=
  drain 0 (List.length (workers (state p))) p.

(** [for t in self.workers: if not t.is_alive(): ...; break], from worker
    [i] on. *)
Fixpoint check (i n : nat) (p : pass) : pass * bool :=
  match n with
  | O => (p, true)
  | S m =>
      let a := match nth_error (workers (state p)) i with
               | Some w => is_alive w
               | None => false
               end in
      match op (IsAlive i a) (fun ws => ws) p with
      | None => (p, false)
      | Some p1 =>
          if a then check (S i) m p1
          else
            match op (LogDead i) (fun ws => ws) p1 with
            | None => (p1, false)
            | Some p2 => drain_all p2      (* then [break] out of the [for] *)
            end
      end
  end.

(** How a pass leaves the [while]: by [break], or round again with the
    value of [keyboard_trigger_stop]. *)
Inductive step := Break | Again (keyboard_trigger_stop : bool).

(** The body of [while True], with its [try] and [except]. *)
Definition body (keyboard_trigger_stop : bool) (p : pass) : trading * step :=
  if keyboard_trigger_stop then
    match drain_all p with
    | (p1, true) => (state p1, Break)
    | (p1, false) => (state p1, Again true)
    end
  else
    match check 0 (List.length (workers (state p))) p with
    | (p1, false) => (state p1, Again true)
    | (p1, true) =>
        match op Sleep (fun ws => ws) p1 with
        | None => (state p1, Again true)
        | Some p2 => (state p2, Again keyboard_trigger_stop)
        end
    end.

(** How much of [Trading.run] has been seen: it has returned, or it is
    still in its loop after the passes allowed. *)
Inductive run_result := Returned | StillLooping.

(** [Trading.run()], for at most [passes] passes of the loop; [interrupts]
    tells, pass after pass, whether and when a [KeyboardInterrupt] arrives
    (none once the list is used up). *)
Fixpoint run_loop (passes : nat) (interrupts : list (option nat))
    (keyboard_trigger_stop : bool) (t : trading) : trading * run_result :=
  match passes with
  | O => (t, StillLooping)
  | S n =>
      match body keyboard_trigger_stop (Pass t (hd None interrupts)) with
      | (t', Break) => (t', Returned)
      | (t', Again k) => run_loop n (tl interrupts) k t'
      end
  end.

Definition Trading_run (passes : nat) (interrupts : list (option nat))
    (t : trading) : trading * run_result :=
  run_loop passes interrupts false t.

(** The status the process ends with: the module's [run()] calls
    [Trading.run()] last and nothing in the file calls [sys.exit] or raises
    after it, so a process whose [Trading.run()] returns ends with status
    0; there is no status while the loop goes on. *)
Definition exit_status (r : run_result) : option Z :=
  match r with
  | Returned => Some 0
  | StillLooping => None
  end.

End Trading.

Arguments Trading {world}.
Arguments lock {world}.
Arguments workers {world}.
Arguments collaborators {world}.
Arguments journal {world}.
Arguments record {world}.
Arguments with_world {world}.
Arguments with_lock {world}.
Arguments price_update_notification {world model_output action}.
Arguments notify {world model_output action}.
Arguments Pass {world}.
Arguments state {world}.
Arguments countdown {world}.
Arguments op {world}.
Arguments drain {world}.
Arguments drain_all {world}.
Arguments check {world}.
Arguments body {world}.
Arguments run_loop {world}.
Arguments Trading_run {world}.

End Run.

(* ================================================================== *)
(** ** [connectivity/bitstamp_api.py] *)

Module Bitstamp_api.
Import Py.
Local Open Scope py_scope.

Definition join (l : list string) : string :=
  fold_right String.append EmptyString l.

(** [v[0:n]]: the first [n] characters of a text, the first [n] elements
    of a list; no other object of a decoded JSON body can be sliced. *)
Definition slice_to (n : nat) (v : pyval) : res pyval :=
  match v with
  | PStr s => Ok (PStr (join (firstn n (chars s))))
  | PList l => Ok (PList (firstn n l))
  | _ => Raise TypeError
  end.

(** A line given to [print]: [(before + '{}' + after).format(shown)]. *)
Record line := Line { before : string; shown : pyval; after : string }.

Section Facade.
Variable observer : Type.

Record BitstampAPI := Build {
  credentials : pyval;
  c : pyval;
  k : pyval;
  s : pyval;
  observers : list observer }.

(** [BitstampAPI.__init__], from the reading of the credentials on.
    [loaded] is what [json.load(open('../credentials.json', 'r'))] gives, or
    what it raises.  The result is what was printed and the object built.

    Modelled from the spec: the base class [Observable] is not among the
    sources; its initializer, called first, is taken to set up the
    registration of observers and return. *)
Definition __init__ (loaded : res pyval) : list line * res BitstampAPI :=
  match (creds <- loaded ;;
         c <- getitem creds "CLIENT_ID" ;;
         k <- getitem creds "API_KEY" ;;
         s <- getitem creds "API_SECRET" ;;
         Ok (creds, c, k, s)) with
  | Raise x => ([], Raise x)
  | Ok (creds, c, k, s) =>
      match slice_to 3 c with
      | Raise x => ([], Raise x)
      | Ok c3 =>
          let l1 := Line "CLIENT_ID  (truncated) = " c3 "[...]" in
          match slice_to 10 k with
          | Raise x => ([l1], Raise x)
          | Ok k10 =>
              let l2 := Line "API_KEY    (truncated) = " k10 "[...]" in
              match slice_to 10 s with
              | Raise x => ([l1; l2], Raise x)
              | Ok s10 =>
                  let l3 := Line "API_SECRET (truncated) = " s10 "[...]" in
                  ([l1; l2; l3], Ok (Build creds c k s []))
              end
          end
      end
  end.

(** [poll]. *)
Definition poll (self : BitstampAPI) : pyval :=
  PDict [("key", PStr "price_update")].

End Facade.

Arguments Build {observer}.
Arguments credentials {observer}.
Arguments c {observer}.
Arguments k {observer}.
Arguments s {observer}.
Arguments observers {observer}.
Arguments poll {observer}.

(** The other methods hand the three credentials and their own arguments
    to the functions of [connectivity.api], which is not among the
    sources. *)

End Bitstamp_api.

(* ================================================================== *)
(** ** Notions used to state the properties, and example inputs *)

Module Notions.
Import Py Bytes Calls.

(** The reasonable offsets of a time zone: within a day of UTC. *)
Definition zone_offset (off : Z) : Prop := -86400 <= off <= 86400.

Definition new_year_2021 : PyTime.struct_time :=
  PyTime.StructTime 2021 1 1 10 0 0.

(** A library in which every conversion fails. *)
Definition failing_library : Library :=
  {| lib_int := fun _ => Raise TypeError;
     lib_strptime := fun _ _ => Raise TypeError;
     lib_mktime := fun _ => Raise OverflowError;
     lib_fromtimestamp := fun _ => Raise OverflowError |}.

Definition example_credentials : credentials :=
  Credentials "cid" "key" "secret".

Definition insufficient_funds : transport :=
  fun _ => Ok (PDict [("error", PStr "Insufficient funds")]).

Definition rejected_order : pyval :=
  PDict [("status", PStr "error");
         ("reason",
          PDict [("__all__", PList [PStr "Minimum order size is 5 EUR."])])].

Definition is_lock_event (ev : Run.event) : bool :=
  match ev with Run.Acquire | Run.Release => true | _ => false end.

(** A price model that raises. *)
Definition broken_model (p : list pyval * dict) (w : unit)
    : unit * res unit := (w, Raise ValueError).

Definition no_action (m : unit) (w : unit) : unit * res (option unit) :=
  (w, Ok None).





Definition just_joined (w : Run.worker) : Run.worker :=
  Run.join (Run.terminate w).

Definition some_dead (ws : list Run.worker) : bool :=
  existsb (fun w => negb (Run.is_alive w)) ws.

(** [terminate] then [join], for each of the first [n] workers in turn,
    starting with worker [i]. *)
Definition drain_events_from (i n : nat) : list Run.event :=
  flat_map (fun j => [Run.Terminate j; Run.Join j]) (seq i n).

Definition drain_events (n : nat) : list Run.event := drain_events_from 0 n.

Definition is_check_event (ev : Run.event) : bool :=
  match ev with
  | Run.IsAlive _ _ | Run.LogDead _ => true
  | _ => false
  end.

Definition idle (ws : list Run.worker) : Run.trading unit :=
  Run.Trading Run.Free ws tt [].

Fixpoint all_chars (p : ascii -> bool) (s : string) : bool :=
  match s with
  | EmptyString => true
  | String c r => p c && all_chars p r
  end.

(** The characters a decimal literal is written with. *)
Definition plain_char (c : ascii) : bool :=
  is_digit c || Ascii.eqb c "+" || Ascii.eqb c "-" || Ascii.eqb c "."
  || Ascii.eqb c "e" || Ascii.eqb c "E".











(** A step leaves field [f] as it found it. *)
Definition keeps (f : string) (g : pyval -> res pyval) : Prop :=
  forall r r', g r = Ok r' -> getitem r' f = getitem r f.







End Notions.

(* ================================================================== *)
(** ** Further notions: the supervisor's passes, sequences of
       notifications *)

Module MoreNotions.
Import Py Bytes Calls Notions.

(** Position of the first worker that is not alive. *)
Fixpoint first_dead_from (i : nat) (ws : list Run.worker) : option nat :=
  match ws with
  | [] => None
  | w :: r => if Run.is_alive w then first_dead_from (S i) r else Some i
  end.

Definition first_dead (ws : list Run.worker) : option nat :=
  first_dead_from 0 ws.

Definition alive_checks (i n : nat) : list Run.event :=
  map (fun j => Run.IsAlive j true) (seq i n).

(** What one pass of the loop does when nothing interrupts it. *)
Definition pass_events (ws : list Run.worker) : list Run.event :=
  match first_dead ws with
  | None => alive_checks 0 (List.length ws) ++ [Run.Sleep]
  | Some k =>
      alive_checks 0 k ++ [Run.IsAlive k false; Run.LogDead k]
      ++ drain_events (List.length ws) ++ [Run.Sleep]
  end.

Definition is_drain_event (ev : Run.event) : bool :=
  match ev with
  | Run.Terminate _ | Run.Join _ => true
  | _ => false
  end.

(** Acquisitions and releases of the lock come in turn in a journal,
    starting with the one expected. *)
Fixpoint lock_alternates (held : bool) (j : list Run.event) : bool :=
  match j with
  | [] => negb held
  | Run.Acquire :: r => negb held && lock_alternates true r
  | Run.Release :: r => held && lock_alternates false r
  | _ :: r => lock_alternates held r
  end.

Section Notifications.
Variable world : Type.
Variable model_output action : Type.
Variable model_prices_call :
  list pyval * dict -> world -> world * res model_output.
Variable take_trading_action :
  model_output -> world -> world * res (option action).

(** Notifications delivered one after the other, each starting where the
    one before ended. *)
Fixpoint notify_each (calls : list (Run.observable * (list pyval * dict)))
    (t : Run.trading world) : Run.trading world * list Run.outcome :=
  match calls with
  | [] => (t, [])
  | (o, payload) :: r =>
      let (t1, out) :=
        Run.notify model_prices_call take_trading_action o payload t in
      let (t2, outs) := notify_each r t1 in
      (t2, out :: outs)
  end.

End Notifications.

Arguments notify_each {world model_output action}.

(** *** The response hooks, field by field *)

(** What a hook puts in the place of a field. *)
Inductive conversion :=
  | ToDecimal      (* Decimal(raw) *)
  | ToInt          (* int(raw) *)
  | ToTime         (* dt(raw) *)
  | FirstReason    (* raw['__all__'][0] *)
  | BookRows.      (* a record of two decimals for each (price, amount) *)

(** The fields a class converts, in the order of its statements: in the
    response itself, all required or each only if present, or in every
    element of the response. *)
Inductive layout :=
  | Fields (optional : bool) (fs : list (string * conversion))
  | Rows (fs : list (string * conversion))
  | Untouched.

Definition layout_of (e : endpoint) : layout :=
  match e with
  | APIAccountBalanceCall =>
      Fields false [("btc_reserved", ToDecimal); ("btc_available", ToDecimal);
                    ("btc_balance", ToDecimal); ("usd_reserved", ToDecimal);
                    ("usd_available", ToDecimal); ("usd_balance", ToDecimal);
                    ("fee", ToDecimal)]
  | APIBuyLimitOrderBTCEURCall =>
      Fields true [("datetime", ToTime); ("price", ToDecimal);
                   ("amount", ToDecimal); ("reason", FirstReason)]
  | APIEURUSDConversionRateCall =>
      Fields false [("buy", ToDecimal); ("sell", ToDecimal)]
  | APIOrderBookCall =>
      Fields false [("timestamp", ToTime); ("bids", BookRows);
                    ("asks", BookRows)]
  | APIOpenOrdersCall =>
      Rows [("datetime", ToTime); ("price", ToDecimal); ("amount", ToDecimal)]
  | APISellLimitBTCEUROrderCall =>
      Fields true [("datetime", ToTime); ("price", ToDecimal);
                   ("amount", ToDecimal)]
  | APITickerCall =>
      Fields false [("last", ToDecimal); ("high", ToDecimal);
                    ("low", ToDecimal); ("volume", ToDecimal);
                    ("timestamp", ToTime); ("bid", ToDecimal);
                    ("ask", ToDecimal)]
  | APITransactionsCall =>
      Rows [("date", ToTime); ("price", ToDecimal); ("amount", ToDecimal)]
  | APIUnconfirmedBitcoinDepositsCall =>
      Fields false [("amount", ToDecimal); ("confirmations", ToInt)]
  | APIUserTransactionsCall =>
      Rows [("datetime", ToTime); ("usd", ToDecimal); ("btc", ToDecimal);
            ("fee", ToDecimal)]
  | APIWithdrawalRequestsCall =>
      Rows [("datetime", ToTime); ("amount", ToDecimal)]
  | APIBitcoinDepositAddressCall | APIBitcoinWithdrawalCall
  | APICancelOrderCall | APIRippleDepositAddressCall
  | APIRippleWithdrawalCall => Untouched
  end.

Definition is_book_record (v : pyval) : bool :=
  match v with
  | PDict [(k1, PDecimal _); (k2, PDecimal _)] =>
      String.eqb k1 "price" && String.eqb k2 "amount"
  | _ => false
  end.

(** The type of object each conversion leaves. *)
Definition has_kind (c : conversion) (v : pyval) : bool :=
  match c, v with
  | ToDecimal, PDecimal _ => true
  | ToInt, PInt _ => true
  | ToTime, PNone => true
  | ToTime, PDatetime _ => true
  | FirstReason, _ => true
  | BookRows, PList rows => forallb is_book_record rows
  | _, _ => false
  end.

Section Conversions.
Context {L : Library}.
Local Open Scope py_scope.

Definition convert (c : conversion) (raw : pyval) : res pyval :=
  match c with
  | ToDecimal => to_Decimal raw
  | ToInt => to_int raw
  | ToTime => dt raw
  | FirstReason => y <- getitem raw "__all__" ;; getitem0 y
  | BookRows =>
      rows <- iterate raw ;;
      rows' <- map_res book_row rows ;;
      Ok (PList rows')
  end.

(** One statement of a hook. *)
Definition step (optional : bool) (fc : string * conversion)
    : pyval -> res pyval :=
  if optional then coerce_if_present (convert (snd fc)) (fst fc)
  else coerce (convert (snd fc)) (fst fc).

(** Field [fc] of [r'] is the conversion of what [r] had there; a field
    that [r] lacks, which only an optional conversion allows, is lacking in
    [r'] too. *)
Definition field_converted (optional : bool) (r r' : pyval)
    (fc : string * conversion) : Prop :=
  match getitem r (fst fc) with
  | Ok raw =>
      exists typed, convert (snd fc) raw = Ok typed
                    /\ getitem r' (fst fc) = Ok typed
                    /\ has_kind (snd fc) typed = true
  | Raise x => optional = true /\ getitem r' (fst fc) = Raise x
  end.

(** Every listed field converted from what was received, every other
    field as received. *)
Definition record_converted (optional : bool)
    (fs : list (string * conversion)) (r r' : pyval) : Prop :=
  Forall (field_converted optional r r') fs
  /\ forall f, ~ In f (map fst fs) -> getitem r' f = getitem r f.

Definition hook_result (e : endpoint) (p out : pyval) : Prop :=
  match layout_of e with
  | Fields optional fs => record_converted optional fs p out
  | Rows fs =>
      match p with
      | PList rows =>
          exists rows', out = PList rows'
                        /\ Forall2 (record_converted false fs) rows rows'
      | _ => out = p /\ iterate p = Ok []
      end
  | Untouched => out = p
  end.

(** Each listed field of the record is there, unless it is optional, and
    its conversion succeeds on the value found there. *)
Definition fields_convertible (optional : bool)
    (fs : list (string * conversion)) (d : dict) : Prop :=
  Forall (fun fc => match dict_get d (fst fc) with
                    | Some raw => exists typed, convert (snd fc) raw = Ok typed
                    | None => optional = true
                    end) fs.

(** The payloads a hook accepts.  A record must have its fields
    convertible; an object that is not a record passes a hook of optional
    fields when none of the names is found in it, and a hook of rows when
    it has no element; a list of rows must be made of records with their
    fields convertible. *)
Definition acceptable (e : endpoint) (p : pyval) : Prop :=
  match layout_of e with
  | Fields optional fs =>
      match p with
      | PDict d => fields_convertible optional fs d
      | _ => optional = true
             /\ forall fc, In fc fs -> contains (fst fc) p = Ok false
      end
  | Rows fs =>
      match p with
      | PList rows =>
          Forall (fun r => exists d, r = PDict d
                                     /\ fields_convertible false fs d) rows
      | _ => iterate p = Ok []
      end
  | Untouched => True
  end.

End Conversions.

(** Classes whose hook converts numbers only. *)
Definition numbers_only (e : endpoint) : bool :=
  match layout_of e with
  | Fields false fs =>
      forallb (fun fc => match snd fc with
                         | ToDecimal | ToInt => true
                         | _ => false
                         end) fs
  | Untouched => true
  | _ => false
  end.

Definition raises_APIError {A} (r : res A) : bool :=
  match r with
  | Raise (APIError _) => true
  | _ => false
  end.

(** A library none of whose functions raises the module's own
    [APIError]. *)
Definition foreign_to_APIError (L : Library) : Prop :=
  (forall v, raises_APIError (lib_int v) = false)
  /\ (forall v f, raises_APIError (lib_strptime v f) = false)
  /\ (forall t, raises_APIError (lib_mktime t) = false)
  /\ (forall z, raises_APIError (lib_fromtimestamp z) = false).

Definition is_upper_hex (c : ascii) : bool :=
  let n := N_of_ascii c in
  (((48 <=? n) && (n <=? 57)) || ((65 <=? n) && (n <=? 70)))%N.

Definition example_rates : pyval :=
  PDict [("buy", PStr "1.1325"); ("sell", PStr "1.1225")].

Definition example_rates_converted : pyval :=
  PDict [("buy", PDecimal (DFinite false 11325 (-4)));
         ("sell", PDecimal (DFinite false 11225 (-4)))].

Definition answers (p : pyval) : transport := fun _ => Ok p.


(** *** Previews of the credentials *)

(** [shown] is made of the first [n] characters of the text [full], and of
    nothing else; it is the whole of it when [full] has no more than [n]
    characters. *)
Definition preview_of (n : nat) (full shown : pyval) : Prop :=
  forall text, full = PStr text ->
    exists p rest,
      shown = PStr p /\ text = (p ++ rest)%string
      /\ chars p = firstn n (chars text)
      /\ ((List.length (chars text) <= n)%nat -> p = text).

Definition credential_names : list string :=
  ["CLIENT_ID"; "API_KEY"; "API_SECRET"].

(** The first credential a record lacks. *)
Definition first_missing (d : dict) : option string :=
  find (fun name => negb (dict_has d name)) credential_names.

(** A byte sequence that is one character: a byte, then continuation
    bytes; inside a text the first byte is not a continuation byte. *)
Definition one_character (inside : bool) (x : string) : bool :=
  match x with
  | EmptyString => false
  | String c r =>
      (negb inside || negb (is_continuation c))
      && all_chars is_continuation r
  end.

Definition example_file : pyval :=
  PDict [("CLIENT_ID", PStr "123456"); ("API_KEY", PStr "kkkkkkkkkkkkkkkk");
         ("API_SECRET", PStr "hunter2")].


(** *** Date texts *)

Definition digit_char (n : Z) : ascii := ascii_of_N (Z.to_N (48 + n mod 10)).

Definition two_digits (n : Z) : string :=
  String (digit_char (n / 10)) (String (digit_char n) EmptyString).

Definition four_digits (n : Z) : string :=
  String (digit_char (n / 1000)) (String (digit_char (n / 100)) (two_digits n)).

(** A date and a time of day written with all their digits, as in
    [2021-01-01 10:00:00]. *)
Definition date_text (y m d H M S : Z) : string :=
  (four_digits y ++ "-" ++ two_digits m ++ "-" ++ two_digits d ++ " "
   ++ two_digits H ++ ":" ++ two_digits M ++ ":" ++ two_digits S)%string.

(** The times of day [%H:%M:%S] reads; seconds go up to 61. *)
Definition clock_time (H M S : Z) : Prop :=
  0 <= H <= 23 /\ 0 <= M <= 59 /\ 0 <= S <= 61.

(** One to six digits. *)
Definition fraction_digits (f : string) : Prop :=
  all_chars is_digit f = true
  /\ (1 <= String.length f <= 6)%nat.

Definition not_a_point (c : ascii) : bool := negb (Ascii.eqb c ".").

(** The tokens of [%Y-%m-%d %H:%M:%S], and the fields they find in a date
    text. *)
Definition date_tokens : list PyTime.token :=
  [PyTime.TField PyTime.DY; PyTime.TLit "-"; PyTime.TField PyTime.Dm;
   PyTime.TLit "-"; PyTime.TField PyTime.Dd; PyTime.TSpaces;
   PyTime.TField PyTime.DH; PyTime.TLit ":"; PyTime.TField PyTime.DM;
   PyTime.TLit ":"; PyTime.TField PyTime.DS].

Definition date_bindings (y m d H M S : Z) : list PyTime.binding :=
  [(PyTime.DY, four_digits y); (PyTime.Dm, two_digits m);
   (PyTime.Dd, two_digits d); (PyTime.DH, two_digits H);
   (PyTime.DM, two_digits M); (PyTime.DS, two_digits S)].

(** The values a two-digit field may take. *)
Definition field_value (f : PyTime.directive) (n : Z) : Prop :=
  match f with
  | PyTime.Dm => 1 <= n <= 12
  | PyTime.Dd => 1 <= n <= 31
  | PyTime.DH => 0 <= n <= 23
  | PyTime.DM => 0 <= n <= 59
  | PyTime.DS => 0 <= n <= 61
  | _ => False
  end.


Definition returned (o : Run.outcome) : bool :=
  match o with Run.Returns _ => true | Run.Blocks => false end.

End MoreNotions.

(* ================================================================== *)
(** * Properties *)

Import Py Bytes Calls Notions.
Local Open Scope py_scope.

(** ** Dictionaries *)

Lemma dict_get_set (d : dict) (k k' : string) (v : pyval) :
  dict_get (dict_set d k v) k' =
  if String.eqb k' k then Some v else dict_get d k'.
Proof.
  induction d as [|[k0 v0] d IH]; simpl.
  - reflexivity.
  - destruct (String.eqb k k0) eqn:E; simpl.
    + apply String.eqb_eq in E; subst k0.
      destruct (String.eqb k' k); reflexivity.
    + destruct (String.eqb k' k0) eqn:E0.
      * apply String.eqb_eq in E0; subst k0.
        rewrite String.eqb_sym, E. reflexivity.
      * exact IH.
Qed.

Lemma dict_get_set_same (d : dict) (k : string) (v : pyval) :
  dict_get (dict_set d k v) k = Some v.
Proof. rewrite dict_get_set, String.eqb_refl. reflexivity. Qed.

Lemma dict_get_set_other (d : dict) (k k' : string) (v : pyval) :
  k' <> k -> dict_get (dict_set d k v) k' = dict_get d k'.
Proof.
  intro N. rewrite dict_get_set.
  apply String.eqb_neq in N. rewrite N. reflexivity.
Qed.

(** ** Timestamp conversion *)

Section Dt.
Context {L : Library}.

Lemma dt_falsy (v : pyval) : truthy v = false -> dt v = Ok PNone.
Proof. intro F. unfold dt. rewrite F. reflexivity. Qed.

Lemma dt_int_first (v : pyval) (n : Z) :
  truthy v = true -> lib_int v = Ok n ->
  dt v = (d <- lib_fromtimestamp n ;; Ok (PDatetime d)).
Proof. intros T I. unfold dt. rewrite T, I. reflexivity. Qed.

Lemma dt_fraction_second (v : pyval) (ts : Z) :
  truthy v = true -> lib_int v = Raise ValueError ->
  (tm <- lib_strptime v "%Y-%m-%d %H:%M:%S.%f" ;; lib_mktime tm) = Ok ts ->
  dt v = (d <- lib_fromtimestamp ts ;; Ok (PDatetime d)).
Proof. intros T I F. unfold dt. rewrite T, I. simpl. rewrite F. reflexivity. Qed.

Lemma dt_seconds_last (v : pyval) :
  truthy v = true -> lib_int v = Raise ValueError ->
  (tm <- lib_strptime v "%Y-%m-%d %H:%M:%S.%f" ;; lib_mktime tm)
    = Raise ValueError ->
  dt v = (ts <- (tm <- lib_strptime v "%Y-%m-%d %H:%M:%S" ;; lib_mktime tm) ;;
          d <- lib_fromtimestamp ts ;; Ok (PDatetime d)).
Proof.
  intros T I F. unfold dt. rewrite T, I. simpl. rewrite F. simpl.
  destruct (tm <- lib_strptime v "%Y-%m-%d %H:%M:%S" ;; lib_mktime tm);
    reflexivity.
Qed.

Lemma dt_other_exception (v : pyval) (e : exn) :
  truthy v = true -> lib_int v = Raise e -> is_ValueError e = false ->
  dt v = Raise e.
Proof. intros T I N. unfold dt. rewrite T, I. simpl. rewrite N. reflexivity. Qed.

End Dt.

Lemma fromtimestamp_in_range (off ts : Z) :
  zone_offset off -> 0 <= ts + off < 253402300800 -> 
  PyTime.fromtimestamp off ts = Ok (Datetime ts).
Proof.
  unfold zone_offset, PyTime.fromtimestamp. intros H R.
  destruct (Z.leb_spec (2 ^ 63) (Z.abs ts)) as [B|_].
  - change (2 ^ 63) with 9223372036854775808 in B. lia.
  - destruct (Z.leb_spec (-62135596800) (ts + off));
      destruct (Z.ltb_spec (ts + off) 253402300800);
      simpl; try reflexivity; lia.
Qed.

Lemma mktime_new_year_2021 (off : Z) :
  PyTime.mktime off new_year_2021 = Ok (1609495200 - off).
Proof.
  unfold PyTime.mktime, new_year_2021; simpl PyTime.tm_year; simpl PyTime.tm_mon;
    simpl PyTime.tm_mday; simpl PyTime.tm_hour; simpl PyTime.tm_min;
    simpl PyTime.tm_sec.
  replace (PyTime.days_from_civil 2021 1 1) with 18628
    by (vm_compute; reflexivity).
  f_equal.
Qed.

Lemma strptime_whole_seconds :
  PyTime.strptime (PStr "2021-01-01 10:00:00") "%Y-%m-%d %H:%M:%S"
  = Ok new_year_2021.
Proof. vm_compute. reflexivity. Qed.

Lemma strptime_whole_seconds_as_fraction :
  PyTime.strptime (PStr "2021-01-01 10:00:00") "%Y-%m-%d %H:%M:%S.%f"
  = Raise ValueError.
Proof. vm_compute. reflexivity. Qed.

Lemma strptime_fraction :
  PyTime.strptime (PStr "2021-01-01 10:00:00.500000") "%Y-%m-%d %H:%M:%S.%f"
  = Ok new_year_2021.
Proof. vm_compute. reflexivity. Qed.

Lemma not_a_date_rejected :
  py_int (PStr "not-a-date") = Raise ValueError
  /\ PyTime.strptime (PStr "not-a-date") "%Y-%m-%d %H:%M:%S.%f"
     = Raise ValueError
  /\ PyTime.strptime (PStr "not-a-date") "%Y-%m-%d %H:%M:%S" = Raise ValueError.
Proof. split; [|split]; vm_compute; reflexivity. Qed.

Lemma date_texts_are_not_integers :
  py_int (PStr "2021-01-01 10:00:00") = Raise ValueError
  /\ py_int (PStr "2021-01-01 10:00:00.500000") = Raise ValueError.
Proof. split; vm_compute; reflexivity. Qed.

(** C6: [dt] tries the integer reading first, then the format with a
    fraction of a second, then the format with whole seconds, each attempt
    made only when the one before raised [ValueError]; with the
    interpreter's library the two date texts and the integer 1609495200 are
    converted, and a text that is neither a number nor a date raises
    [ValueError] instead of yielding a default. *)
Theorem dt_parse_order_and_examples :
  (forall (L : Library) (v : pyval), truthy v = true ->
     (forall n, lib_int v = Ok n ->
        dt v = (d <- lib_fromtimestamp n ;; Ok (PDatetime d)))
     /\ (forall ts, lib_int v = Raise ValueError ->
          (tm <- lib_strptime v "%Y-%m-%d %H:%M:%S.%f" ;; lib_mktime tm)
            = Ok ts ->
          dt v = (d <- lib_fromtimestamp ts ;; Ok (PDatetime d)))
     /\ (lib_int v = Raise ValueError ->
          (tm <- lib_strptime v "%Y-%m-%d %H:%M:%S.%f" ;; lib_mktime tm)
            = Raise ValueError ->
          dt v = (ts <- (tm <- lib_strptime v "%Y-%m-%d %H:%M:%S" ;;
                         lib_mktime tm) ;;
                  d <- lib_fromtimestamp ts ;; Ok (PDatetime d))))
  /\ (forall off : Z, zone_offset off ->
        @dt (CPython off) (PStr "2021-01-01 10:00:00")
          = Ok (PDatetime (Datetime (1609495200 - off)))
        /\ @dt (CPython off) (PStr "2021-01-01 10:00:00.500000")
          = Ok (PDatetime (Datetime (1609495200 - off)))
        /\ @dt (CPython off) (PInt 1609495200)
          = Ok (PDatetime (Datetime 1609495200))
        /\ @dt (CPython off) (PStr "not-a-date") = Raise ValueError).
Proof.
  split.
  - intros L v T. split; [|split].
    + intros n I. now apply dt_int_first.
    + intros ts I F. now apply dt_fraction_second.
    + intros I F. now apply dt_seconds_last.
  - intros off Hoff.
    destruct date_texts_are_not_integers as [I1 I2].
    destruct not_a_date_rejected as [N1 [N2 N3]].
    assert (R : PyTime.fromtimestamp off (1609495200 - off)
                = Ok (Datetime (1609495200 - off))).
    { apply fromtimestamp_in_range; [exact Hoff | lia]. }
    split; [|split; [|split]].
    + rewrite (@dt_seconds_last (CPython off));
        cbn [lib_int lib_strptime lib_mktime lib_fromtimestamp CPython].
      * rewrite strptime_whole_seconds. cbn [bind].
        rewrite mktime_new_year_2021. cbn [bind]. rewrite R. reflexivity.
      * reflexivity.
      * exact I1.
      * rewrite strptime_whole_seconds_as_fraction. reflexivity.
    + rewrite (@dt_fraction_second (CPython off) _ (1609495200 - off));
        cbn [lib_int lib_strptime lib_mktime lib_fromtimestamp CPython].
      * rewrite R. reflexivity.
      * reflexivity.
      * exact I2.
      * rewrite strptime_fraction. cbn [bind].
        apply mktime_new_year_2021.
    + rewrite (@dt_int_first (CPython off) _ 1609495200);
        cbn [lib_int lib_strptime lib_mktime lib_fromtimestamp CPython].
      * rewrite fromtimestamp_in_range;
          [reflexivity | exact Hoff | unfold zone_offset in Hoff; lia].
      * reflexivity.
      * reflexivity.
    + rewrite (@dt_seconds_last (CPython off));
        cbn [lib_int lib_strptime lib_mktime lib_fromtimestamp CPython].
      * rewrite N3. reflexivity.
      * reflexivity.
      * exact N1.
      * rewrite N2. reflexivity.
Qed.

Lemma dt_parse_order_and_examples_witness :
  @dt (CPython 3600) (PStr "2021-01-01 10:00:00")
    = Ok (PDatetime (Datetime (1609495200 - 3600)))
  /\ @dt (CPython 3600) (PStr "not-a-date") = Raise ValueError.
Proof.
  assert (Z : zone_offset 3600) by (unfold zone_offset; lia).
  destruct dt_parse_order_and_examples as [_ H].
  destruct (H 3600 Z) as [H1 [_ [_ H4]]].
  split; [exact H1 | exact H4].
Defined.

(** C9: on a falsy argument ([None], the empty text, the integer 0, and any
    other object whose truth value is false) [dt] returns [None], whatever
    the library functions would do: none of them is consulted.  In
    particular the epoch itself, 0, is not converted to a point in time. *)
Theorem dt_falsy_is_None (L : Library) (v : pyval) :
  truthy v = false -> dt v = Ok PNone.
Proof. apply dt_falsy. Qed.

Lemma dt_falsy_is_None_witness :
  @dt failing_library PNone = Ok PNone
  /\ @dt failing_library (PStr EmptyString) = Ok PNone
  /\ @dt failing_library (PInt 0) = Ok PNone
  /\ @dt (CPython 0) (PInt 0) = Ok PNone.
Proof.
  split; [|split; [|split]]; apply dt_falsy_is_None; reflexivity.
Defined.

(** ** The request pipeline *)

Section Pipeline.
Context {L : Library}.

Lemma has_error_get (d : dict) (v : pyval) :
  dict_get d "error" = Some v -> has_error (PDict d) = true.
Proof. intro G. unfold has_error, dict_has. rewrite G. reflexivity. Qed.

(** What [APICall.call] does once the request is fixed. *)
Lemma APICall_call_cases (e : endpoint) (net : transport)
    (prefix_url : string) (params : dict) :
  let rq := Request (method e) (prefix_url ++ url e)%string params in
  let (evs, r) := APICall_call e net prefix_url params in
  (forall d v, net rq = Ok (PDict d) -> dict_get d "error" = Some v ->
     evs = [Sent rq] /\ r = Raise (APIError v))
  /\ (forall e' p, In (Hook e' p) evs ->
        e' = e /\ net rq = Ok p /\ has_error p = false)
  /\ (forall rq', In (Sent rq') evs -> rq' = rq).
Proof.
  unfold APICall_call. cbv zeta.
  set (rq := Request (method e) (prefix_url ++ url e)%string params).
  destruct (net rq) as [response|x] eqn:N.
  - destruct (has_error response) eqn:H.
    + split; [|split].
      * intros d v Eq G. injection Eq as ->.
        cbn [getitem]. rewrite G. split; reflexivity.
      * intros e' p [A|[]]. discriminate A.
      * intros rq' [A|[]]. injection A as <-. reflexivity.
    + assert (NoErr : forall d v, Ok (A:=pyval) response = Ok (PDict d) ->
                dict_get d "error" = Some v -> False).
      { intros d v Eq G. injection Eq as ->.
        rewrite (has_error_get _ _ G) in H. discriminate H. }
      destruct (_process_response e response) as [[r' nr]|x] eqn:P;
        (split; [|split]);
        try (intros d v Eq G; exfalso; exact (NoErr d v Eq G));
        try (intros e' p [A|[A|[]]]; [discriminate A|];
             injection A as <- <-; repeat split; assumption);
        try (intros rq' [A|[A|[]]]; [|discriminate A];
             injection A as <-; reflexivity).
  - split; [|split].
    + intros d v Eq. discriminate Eq.
    + intros e' p [A|[]]. discriminate A.
    + intros rq' [A|[]]. injection A as <-. reflexivity.
Qed.

End Pipeline.

(** ** Request signing *)

(** The digest functions on the published test vectors (FIPS 180-4,
    RFC 4231 case 2, and a key longer than a block). *)
Example sha256_abc :
  hex (SHA256.digest (encode_utf8 "abc"))
  = "ba7816bf8f01cfea414140de5dae2223b00361a396177a9cb410ff61f20015ad"%string.
Proof. vm_compute. reflexivity. Qed.

Example hmac_sha256_rfc4231_2 :
  SHA256.hmac_hexdigest (encode_utf8 "Jefe")
                        (encode_utf8 "what do ya want for nothing?")
  = "5bdcc146bf60754e6a042426089575c75a003f089d2739839dec58b964ec3843"%string.
Proof. vm_compute. reflexivity. Qed.

Example hmac_sha256_long_key :
  SHA256.hmac_hexdigest
    (encode_utf8 "0123456789012345678901234567890123456789012345678901234567890123456789")
    (encode_utf8 "what do ya want for nothing?")
  = "16215316ab110e78cbe310a4e7c2a3a3758ec1ba7dac7fb76eabaa6617fd24ee"%string.
Proof. vm_compute. reflexivity. Qed.

Section PipelineProperties.
Context {L : Library}.

Lemma APICall_call_first_event (e : endpoint) (net : transport)
    (prefix_url : string) (params : dict) :
  hd_error (fst (APICall_call e net prefix_url params))
  = Some (Sent (Request (method e) (prefix_url ++ url e)%string params)).
Proof.
  unfold APICall_call.
  destruct (net _) as [response|x]; [|reflexivity].
  destruct (has_error response); [reflexivity|].
  destruct (_process_response e response) as [[r' nr]|x]; reflexivity.
Qed.

Lemma APICall_call_error (e : endpoint) (net : transport)
    (prefix_url : string) (params : dict) :
  let R := APICall_call e net prefix_url params in
  (forall rq d v, In (Sent rq) (fst R) -> net rq = Ok (PDict d) ->
     dict_get d "error" = Some v ->
     snd R = Raise (APIError v) /\ forall e' p, ~ In (Hook e' p) (fst R))
  /\ (forall e' p, In (Hook e' p) (fst R) -> has_error p = false).
Proof.
  intro R. subst R.
  pose proof (APICall_call_cases e net prefix_url params) as C.
  cbv zeta in C.
  destruct (APICall_call e net prefix_url params) as [evs r].
  destruct C as [C1 [C2 C3]]. cbn [fst snd]. split.
  - intros rq d v S N G. rewrite (C3 rq S) in N.
    destruct (C1 d v N G) as [-> ->]. split; [reflexivity|].
    intros e' p [A|[]]. discriminate A.
  - intros e' p H. exact (proj2 (proj2 (C2 e' p H))).
Qed.

(** C3: when the body answered to the request is a record with an [error]
    field, [call] raises [APIError] carrying the value of that field as it
    is, and the response hook of the class is not run; whenever the hook is
    run, the payload it is given has no [error] field. *)
Theorem api_error_raised_before_hook (e : endpoint) (c : credentials)
    (now : Q) (net : transport) (prefix_url : string) (params : dict) :
  let R := call e c now net prefix_url params in
  (forall rq d v, In (Sent rq) (fst R) -> net rq = Ok (PDict d) ->
     dict_get d "error" = Some v ->
     snd R = Raise (APIError v) /\ forall e' p, ~ In (Hook e' p) (fst R))
  /\ (forall e' p, In (Hook e' p) (fst R) -> has_error p = false).
Proof.
  unfold call, APIPrivateCall_call.
  destruct (is_private e); apply APICall_call_error.
Qed.

(** C5: a private call sends, first of all, a POST request whose parameters
    are the caller's with [key], [signature] and [nonce] set: the key is the
    API key, the nonce the one just generated, and the signature the
    upper-case hexadecimal HMAC-SHA256, keyed by the bytes of the secret, of
    the bytes of nonce, client id and API key joined in that order; the
    other parameters are the caller's.  The signature is a function of the
    nonce and the credentials alone. *)
Theorem private_call_is_signed (e : endpoint) (c : credentials) (now : Q)
    (net : transport) (prefix_url : string) (params : dict) :
  is_private e = true ->
  let nonce := _get_nonce now in
  let signature :=
    upper (hex (SHA256.hmac
                  (encode_utf8 (api_secret c))
                  (encode_utf8 (nonce ++ client_id c ++ api_key c)%string))) in
  exists rq,
    hd_error (fst (call e c now net prefix_url params)) = Some (Sent rq)
    /\ req_method rq = POST
    /\ req_url rq = (prefix_url ++ url e)%string
    /\ dict_get (req_params rq) "key" = Some (PStr (api_key c))
    /\ dict_get (req_params rq) "signature" = Some (PStr signature)
    /\ dict_get (req_params rq) "nonce" = Some (PStr nonce)
    /\ (forall k, k <> "key"%string -> k <> "signature"%string ->
          k <> "nonce"%string ->
          dict_get (req_params rq) k = dict_get params k).
Proof.
  intros P nonce signature. unfold call. rewrite P.
  unfold APIPrivateCall_call. rewrite APICall_call_first_event.
  eexists. split; [reflexivity|].
  cbn [req_method req_url req_params]. unfold method. rewrite P.
  split; [reflexivity|]. split; [reflexivity|].
  unfold dict_update. cbn [fold_left fst snd].
  split; [|split; [|split]].
  - rewrite !dict_get_set. reflexivity.
  - rewrite !dict_get_set. reflexivity.
  - rewrite !dict_get_set. reflexivity.
  - intros k K1 K2 K3. rewrite !dict_get_set.
    apply String.eqb_neq in K1, K2, K3. rewrite K1, K2, K3. reflexivity.
Qed.

End PipelineProperties.

Lemma api_error_raised_before_hook_witness :
  snd (@call (CPython 0) APIAccountBalanceCall example_credentials
         (1609495200 # 1) insufficient_funds "https://exchange/" [])
  = Raise (APIError (PStr "Insufficient funds")).
Proof.
  refine (proj1 (proj1 (@api_error_raised_before_hook (CPython 0)
            APIAccountBalanceCall example_credentials (1609495200 # 1)
            insufficient_funds "https://exchange/" [])
          _ [("error", PStr "Insufficient funds")] _ _ eq_refl eq_refl)).
  vm_compute. left. reflexivity.
Defined.

(** The signature of the example, as an independent HMAC-SHA256
    implementation gives it. *)
Lemma private_call_is_signed_witness :
  exists rq,
    hd_error (fst (@call (CPython 0) APIAccountBalanceCall example_credentials
                     (1609495200 # 1) insufficient_funds "https://exchange/"
                     [("nonce", PInt 3)]))
    = Some (Sent rq)
    /\ dict_get (req_params rq) "signature"
       = Some (PStr "6C047BDF5A767FCADB344EB8CD0553EBB0700CB36AEC5516323D57CBFF3FA67B")
    /\ dict_get (req_params rq) "nonce" = Some (PStr "1609495200000000").
Proof.
  destruct (@private_call_is_signed (CPython 0) APIAccountBalanceCall
              example_credentials (1609495200 # 1) insufficient_funds
              "https://exchange/" [("nonce", PInt 3)] eq_refl)
    as [rq [H [_ [_ [_ [S [N _]]]]]]].
  exists rq. split; [exact H|]. split.
  - rewrite S. vm_compute. reflexivity.
  - rewrite N. vm_compute. reflexivity.
Defined.

(** ** Observer dispatch *)

Section Dispatch.
Import Run.
Variable world : Type.
Variable model_output action : Type.
Variable model_prices_call :
  list pyval * dict -> world -> world * res model_output.
Variable take_trading_action :
  model_output -> world -> world * res (option action).

(** The handler logs and calls the collaborators; it leaves the lock and
    the workers alone. *)
Lemma price_update_notification_frame (payload : list pyval * dict)
    (t : trading world) :
  let t' := fst (price_update_notification model_prices_call take_trading_action payload t) in
  lock t' = lock t /\ workers t' = workers t
  /\ exists mid, journal t' = journal t ++ mid
                 /\ forallb (fun ev => negb (is_lock_event ev)) mid = true.
Proof.
  unfold price_update_notification.
  destruct t as [l ws w j].
  cbn [record with_world lock workers collaborators journal].
  destruct (model_prices_call payload w) as [w1 [mo|e]].
  - cbn [record with_world lock workers collaborators journal].
    destruct (take_trading_action mo w1) as [w2 [[a|]|e]];
      cbn [fst record with_world lock workers collaborators journal];
      (split; [reflexivity|]; split; [reflexivity|]);
      rewrite <- ?app_assoc; eexists; (split; [reflexivity|]); reflexivity.
  - cbn [fst record with_world lock workers collaborators journal].
    split; [reflexivity|]; split; [reflexivity|].
    eexists; (split; [reflexivity|]); reflexivity.
Qed.

(** C10: a call of [notify] that finds the lock free takes it first and
    has given it back when it ends, whichever way it ends: the handler
    returned, the handler raised, or the source is not a [BitstampAPI] and
    [notify] itself raised.  What was raised reaches the caller. *)
Theorem notify_releases_lock (o : observable) (payload : list pyval * dict)
    (t : trading world) :
  lock t = Free ->
  let entered := record Acquire (with_lock Held t) in
  let R := notify model_prices_call take_trading_action o payload t in
  lock (fst R) = Free
  /\ (exists mid,
        journal (fst R) = journal t ++ Acquire :: mid ++ [Release]
        /\ forallb (fun ev => negb (is_lock_event ev)) mid = true)
  /\ (o = BitstampAPI ->
        snd R = Returns (snd (price_update_notification model_prices_call take_trading_action payload entered)))
  /\ (forall name, o = OtherSource name ->
        snd R = Returns (Raise (Exception_ "Unknown type."))).
Proof.
  intros F entered R. subst R. unfold notify. rewrite F.
  fold entered.
  destruct o as [|name]; cbn [is_BitstampAPI].
  - pose proof (price_update_notification_frame payload entered) as Fr.
    cbv zeta in Fr.
    destruct (price_update_notification model_prices_call take_trading_action payload entered) as [t1 r].
    cbn [fst snd] in *. destruct Fr as [_ [_ [mid [J M]]]].
    split; [reflexivity|]. split.
    + exists mid. split; [|exact M].
      cbn [record with_lock journal]. rewrite J.
      subst entered. cbn [record with_lock journal].
      rewrite <- !app_assoc. reflexivity.
    + split.
      * intros _. destruct r as [[]|e]; [reflexivity|].
        destruct (is_Exception e); reflexivity.
      * intros name N. discriminate N.
  - cbn [fst snd]. split; [reflexivity|]. split.
    + exists []. split; [|reflexivity].
      subst entered. cbn [record with_lock journal app].
      rewrite <- !app_assoc. reflexivity.
    + split.
      * intros N. discriminate N.
      * intros name' _. reflexivity.
Qed.

End Dispatch.

Lemma notify_releases_lock_witness :
  let t := Run.Trading Run.Free [] tt [] in
  let R := Run.notify broken_model no_action Run.BitstampAPI ([], []) t in
  Run.lock (fst R) = Run.Free
  /\ snd R = Run.Returns (Raise ValueError).
Proof.
  intros t R.
  destruct (notify_releases_lock unit unit unit broken_model no_action
              Run.BitstampAPI ([], []) t eq_refl) as [H1 [_ [H3 _]]].
  split; [exact H1|]. exact (H3 eq_refl).
Defined.

(** ** The supervisor loop *)

Section Supervisor.
Import Run.
Variable world : Type.
Implicit Type t : trading world.

Lemma op_no_interrupt (ev : event) (f : list worker -> list worker) t :
  op ev f (Pass t None)
  = Some (Pass (Trading (lock t) (f (workers t)) (collaborators t)
                        (journal t ++ [ev])) None).
Proof. reflexivity. Qed.

Lemma update_nth_middle (f : worker -> worker) (pre suf : list worker)
    (w : worker) :
  update_nth (List.length pre) f (pre ++ w :: suf) = pre ++ f w :: suf.
Proof.
  induction pre as [|a pre IH]; simpl; [reflexivity|].
  rewrite IH. reflexivity.
Qed.

(** Without an interrupt the drain goes through: every worker from the
    current one on is asked to stop, then waited for. *)
Lemma drain_no_interrupt (suf : list worker) :
  forall (pre : list worker) t,
    workers t = pre ++ suf ->
    exists t',
      drain (List.length pre) (List.length suf) (Pass t None)
      = (Pass t' None, true)
      /\ workers t' = pre ++ map just_joined suf
      /\ journal t'
         = journal t ++ drain_events_from (List.length pre) (List.length suf).
Proof.
  induction suf as [|w suf IH]; intros pre t W.
  - exists t. split; [reflexivity|]. split; [exact W|].
    cbn. rewrite app_nil_r. reflexivity.
  - cbn [List.length drain]. rewrite op_no_interrupt.
    rewrite op_no_interrupt.
    cbn [lock workers collaborators journal].
    rewrite W, update_nth_middle, update_nth_middle.
    match goal with |- context [Pass ?u None] =>
      destruct (IH (pre ++ [just_joined w]) u) as [t' [D [W' J']]]
    end.
    + cbn [workers]. rewrite <- app_assoc. reflexivity.
    + rewrite length_app, Nat.add_1_r in D, J'.
      exists t'. split; [exact D|]. split.
      * rewrite W', <- app_assoc. reflexivity.
      * rewrite J'. cbn [journal]. unfold drain_events_from.
        cbn [seq flat_map]. rewrite <- !app_assoc. reflexivity.
Qed.

Lemma drain_all_no_interrupt t :
  exists t',
    drain_all (Pass t None) = (Pass t' None, true)
    /\ workers t' = map just_joined (workers t)
    /\ journal t' = journal t ++ drain_events (List.length (workers t)).
Proof.
  unfold drain_all. cbn [state].
  exact (drain_no_interrupt (workers t) [] t eq_refl).
Qed.

Lemma check_no_interrupt (suf : list worker) :
  forall (pre : list worker) t,
    workers t = pre ++ suf ->
    exists t' checks,
      check (List.length pre) (List.length suf) (Pass t None)
      = (Pass t' None, true)
      /\ workers t' = (if some_dead suf then map just_joined (workers t)
                       else workers t)
      /\ forallb is_check_event checks = true
      /\ journal t'
         = journal t ++ checks
           ++ (if some_dead suf then drain_events (List.length (workers t))
               else []).
Proof.
  induction suf as [|w suf IH]; intros pre t W.
  - exists t, []. split; [reflexivity|]. split; [reflexivity|].
    split; [reflexivity|]. cbn. rewrite app_nil_r. reflexivity.
  - cbn [List.length check state].
    assert (N : nth_error (workers t) (List.length pre) = Some w).
    { rewrite W, nth_error_app2, Nat.sub_diag; [reflexivity|lia]. }
    rewrite N, op_no_interrupt.
    unfold some_dead. cbn [existsb]. fold (some_dead suf).
    destruct (is_alive w) eqn:A; cbn [negb orb].
    + match goal with |- context [Pass ?u None] =>
        destruct (IH (pre ++ [w]) u) as [t' [checks [C [W' [F J']]]]]
      end.
      * cbn [workers]. rewrite W, <- app_assoc. reflexivity.
      * rewrite length_app, Nat.add_1_r in C.
        exists t', (IsAlive (List.length pre) true :: checks).
        split; [exact C|]. split; [exact W'|]. split; [exact F|].
        rewrite J'. cbn [journal workers]. rewrite <- !app_assoc.
        reflexivity.
    + rewrite op_no_interrupt.
      match goal with |- context [drain_all (Pass ?u None)] =>
        destruct (drain_all_no_interrupt u) as [t' [D [W' J']]]
      end.
      exists t', [IsAlive (List.length pre) false; LogDead (List.length pre)].
      split; [exact D|]. split; [exact W'|]. split; [reflexivity|].
      rewrite J'. cbn [journal workers]. rewrite <- !app_assoc.
      reflexivity.
Qed.

Lemma body_no_interrupt t :
  exists t' checks,
    body false (Pass t None) = (t', Again false)
    /\ workers t' = (if some_dead (workers t)
                     then map just_joined (workers t) else workers t)
    /\ forallb is_check_event checks = true
    /\ journal t'
       = journal t ++ checks
         ++ (if some_dead (workers t)
             then drain_events (List.length (workers t)) else [])
         ++ [Sleep].
Proof.
  unfold body. cbn [state].
  destruct (check_no_interrupt (workers t) [] t eq_refl)
    as [t1 [checks [C [W [F J]]]]].
  cbn [List.length] in C. rewrite C, op_no_interrupt.
  eexists. exists checks. split; [reflexivity|].
  cbn [workers journal]. split; [exact W|]. split; [exact F|].
  rewrite J, <- !app_assoc. reflexivity.
Qed.



Lemma stopped_just_joined (ws : list worker) :
  Forall (fun w => is_alive w = false /\ stop_requested w = true)
         (map just_joined ws).
Proof.
  apply Forall_forall. intros w H. apply in_map_iff in H.
  destruct H as [x [<- _]]. split; reflexivity.
Qed.



End Supervisor.



(** ** Nonces *)











(** ** Exact reading of quantities *)

Lemma all_chars_app (p : ascii -> bool) (a b : string) :
  all_chars p (a ++ b)%string = all_chars p a && all_chars p b.
Proof.
  induction a as [|c a IH]; cbn [String.append all_chars]; [reflexivity|].
  rewrite IH, andb_assoc. reflexivity.
Qed.

Lemma all_chars_weaken (p q : ascii -> bool) (s : string) :
  (forall c, p c = true -> q c = true) ->
  all_chars p s = true -> all_chars q s = true.
Proof.
  intros W. induction s as [|c s IH]; cbn [all_chars]; [reflexivity|].
  intros H. apply andb_true_iff in H. destruct H as [H1 H2].
  rewrite (W c H1), (IH H2). reflexivity.
Qed.

Lemma plain_char_not_space (c : ascii) :
  plain_char c = true -> is_space c = false /\ Ascii.eqb c "_" = false.
Proof.
  destruct c as [[] [] [] [] [] [] [] []]; vm_compute; intros H;
    (discriminate H || (split; reflexivity)).
Qed.

Lemma digit_is_plain (c : ascii) : is_digit c = true -> plain_char c = true.
Proof. intros H. unfold plain_char. rewrite H. reflexivity. Qed.


Lemma rstrip_plain (s : string) : all_chars plain_char s = true -> rstrip s = s.
Proof.
  induction s as [|c s IH]; cbn [all_chars rstrip]; [reflexivity|].
  intros H. apply andb_true_iff in H. destruct H as [H1 H2].
  rewrite (IH H2). destruct (plain_char_not_space c H1) as [-> _].
  destruct s; reflexivity.
Qed.






Local Open Scope Q_scope.






Lemma leading_digit_false_span (s : string) :
  leading_digit s = false -> span_digits s = (EmptyString, s).
Proof.
  destruct s as [|c s]; cbn [leading_digit span_digits]; [reflexivity|].
  intros ->. reflexivity.
Qed.


Lemma append_empty (s : string) : (s ++ EmptyString)%string = s.
Proof. induction s as [|c s IH]; cbn; [reflexivity|]. rewrite IH. reflexivity. Qed.





Example literal_100_5 :
  exists q, spec_decimal_value "100.5" = Some q /\ q == 201 # 2.
Proof. eexists. split; [vm_compute; reflexivity|reflexivity]. Qed.

Example Decimal_100_5 :
  Decimal_of_str "100.5" = Ok (DFinite false 1005 (-1)).
Proof. vm_compute. reflexivity. Qed.

Local Close Scope Q_scope.

(** ** The response hooks *)

Section Hooks.
Context {L : Library}.

Lemma bind_Ok {A B} (m : res A) (k : A -> res B) (b : B) :
  bind m k = Ok b -> exists a, m = Ok a /\ k a = Ok b.
Proof. destruct m as [a|e]; cbn; [|discriminate]. intros H. exists a. auto. Qed.

Lemma getitem_Ok (r : pyval) (k : string) (x : pyval) :
  getitem r k = Ok x -> exists d, r = PDict d /\ dict_get d k = Some x.
Proof.
  destruct r; cbn; try discriminate.
  destruct (dict_get d k) as [v|] eqn:G; [|discriminate].
  intros [= <-]. exists d. auto.
Qed.

Lemma getitem_set (d : dict) (k f : string) (y : pyval) :
  f <> k -> getitem (PDict (dict_set d k y)) f = getitem (PDict d) f.
Proof. intros N. cbn. rewrite (dict_get_set_other _ _ _ _ N). reflexivity. Qed.

Lemma getitem_set_same (d : dict) (k : string) (y : pyval) :
  getitem (PDict (dict_set d k y)) k = Ok y.
Proof. cbn. rewrite dict_get_set_same. reflexivity. Qed.

Lemma coerce_Ok (g : pyval -> res pyval) (k : string) (r r' : pyval) :
  coerce g k r = Ok r' ->
  exists d x y, r = PDict d /\ dict_get d k = Some x /\ g x = Ok y
                /\ r' = PDict (dict_set d k y).
Proof.
  unfold coerce. intros H.
  apply bind_Ok in H. destruct H as [x [G H]].
  apply bind_Ok in H. destruct H as [y [F H]].
  apply getitem_Ok in G. destruct G as [d [-> G]].
  cbn in H. injection H as <-. exists d, x, y. auto.
Qed.

Lemma coerce_keeps (g : pyval -> res pyval) (k f : string) :
  f <> k -> keeps f (coerce g k).
Proof.
  intros N r r' H. apply coerce_Ok in H.
  destruct H as [d [x [y [-> [_ [_ ->]]]]]]. apply getitem_set, N.
Qed.


Lemma coerce_if_present_keeps (g : pyval -> res pyval) (k f : string) :
  f <> k -> keeps f (coerce_if_present g k).
Proof.
  intros N r r' H. unfold coerce_if_present in H.
  apply bind_Ok in H. destruct H as [c [_ H]].
  destruct c; [exact (coerce_keeps g k f N r r' H)|].
  injection H as <-. reflexivity.
Qed.


Lemma reason_keeps (f : string) :
  f <> "reason"%string ->
  keeps f (fun r => bind (contains "reason" r)
                      (fun c => if c then first_reason r else Ok r)).
Proof.
  intros N r r' H.
  apply bind_Ok in H. destruct H as [c [_ H]].
  destruct c; [|injection H as <-; reflexivity].
  unfold first_reason in H.
  apply bind_Ok in H. destruct H as [x [G H]].
  apply bind_Ok in H. destruct H as [y [_ H]].
  apply bind_Ok in H. destruct H as [z [_ H]].
  apply getitem_Ok in G. destruct G as [d [-> _]].
  cbn in H. injection H as <-. apply getitem_set, N.
Qed.

Lemma book_side_Ok (side : string) (r r' : pyval) :
  book_side side r = Ok r' ->
  exists d x rows rows', r = PDict d /\ dict_get d side = Some x
    /\ iterate x = Ok rows /\ map_res book_row rows = Ok rows'
    /\ r' = PDict (dict_set d side (PList rows')).
Proof.
  unfold book_side. intros H.
  apply bind_Ok in H. destruct H as [x [G H]].
  apply bind_Ok in H. destruct H as [rows [I H]].
  apply bind_Ok in H. destruct H as [rows' [M H]].
  apply getitem_Ok in G. destruct G as [d [-> G]].
  cbn in H. injection H as <-. exists d, x, rows, rows'. auto.
Qed.

Lemma book_side_keeps (side f : string) :
  f <> side -> keeps f (book_side side).
Proof.
  intros N r r' H. apply book_side_Ok in H.
  destruct H as [d [x [rows [rows' [-> [_ [_ [_ ->]]]]]]]].
  apply getitem_set, N.
Qed.

Lemma map_res_Forall2 {A B} (g : A -> res B) (l : list A) :
  forall l', map_res g l = Ok l' -> Forall2 (fun a b => g a = Ok b) l l'.
Proof.
  induction l as [|a l IH]; cbn; intros l' H.
  - injection H as <-. constructor.
  - destruct (g a) as [b|e] eqn:G; [|discriminate].
    destruct (map_res g l) as [bs|e]; [|discriminate].
    injection H as <-. constructor; [exact G|]. apply IH. reflexivity.
Qed.





(** A field that one statement of a sequence sets and the others leave
    alone is, after the sequence, what that statement made of it. *)
Lemma statements_keeps (f : string) (l : list (pyval -> res pyval)) :
  Forall (keeps f) l -> keeps f (statements l).
Proof.
  induction 1 as [|g l K _ IH]; intros r r' H; cbn in H.
  - injection H as <-. reflexivity.
  - apply bind_Ok in H. destruct H as [r1 [G H]].
    rewrite (IH _ _ H). exact (K _ _ G).
Qed.


End Hooks.

Ltac keeps_field :=
  first [ apply coerce_keeps; discriminate
        | apply coerce_if_present_keeps; discriminate
        | apply reason_keeps; discriminate
        | apply book_side_keeps; discriminate ].

Ltac keeps_fields := repeat (constructor; [keeps_field|]); constructor.




Section HookProperties.
Context {L : Library}.

Lemma for_each_rows (body : pyval -> res pyval) (rows : list pyval)
    (out : pyval) :
  for_each body (PList rows) = Ok out ->
  exists rows', out = PList rows'
                /\ Forall2 (fun a b => body a = Ok b) rows rows'.
Proof.
  unfold for_each. cbn [iterate bind]. intros H.
  apply bind_Ok in H. destruct H as [rows' [M H]]. injection H as <-.
  exists rows'. split; [reflexivity|]. apply map_res_Forall2, M.
Qed.


Lemma _process_response_Ok (e : endpoint) (p out : pyval)
    (ret : option pyval) :
  _process_response e p = Ok (out, ret) ->
  process e p = Ok out /\ ret = None.
Proof.
  unfold _process_response. intros H.
  apply bind_Ok in H. destruct H as [r [P H]].
  injection H as <- <-. split; [exact P|reflexivity].
Qed.






End HookProperties.





(** ** The limit-order hooks *)

(** C4: the sell hook never touches [reason]: whatever it found there is
    still there when it has accepted the payload.  On a rejected order the
    buy hook puts the first reason text in [reason]; the sell hook, which
    has no such statement, leaves the nested structure where it was. *)
Theorem sell_hook_leaves_reason_nested :
  (forall (L : Library) (p out : pyval) (ret : option pyval),
     _process_response APISellLimitBTCEUROrderCall p = Ok (out, ret) ->
     getitem out "reason" = getitem p "reason")
  /\ (forall L : Library,
        _process_response APIBuyLimitOrderBTCEURCall rejected_order
          = Ok (PDict [("status", PStr "error");
                       ("reason", PStr "Minimum order size is 5 EUR.")],
                None)
        /\ _process_response APISellLimitBTCEUROrderCall rejected_order
           = Ok (rejected_order, None)).
Proof.
  split.
  - intros L p out ret H.
    apply _process_response_Ok in H. destruct H as [H _].
    cbn [process] in H. revert H. apply statements_keeps. keeps_fields.
  - intros L. split; reflexivity.
Qed.

Lemma sell_hook_leaves_reason_nested_witness :
  exists out,
    @_process_response (CPython 0) APISellLimitBTCEUROrderCall rejected_order
    = Ok (out, None)
    /\ getitem out "reason"
       = Ok (PDict [("__all__",
                     PList [PStr "Minimum order size is 5 EUR."])]).
Proof.
  exists rejected_order. split; [reflexivity|].
  exact (eq_trans (proj1 sell_hook_leaves_reason_nested (CPython 0)
                     rejected_order rejected_order None eq_refl)
                  eq_refl).
Defined.

(* ================================================================== *)
(** * Further properties *)

Import MoreNotions.

(** ** The supervisor loop, pass by pass *)

Section SupervisorPasses.
Import Run.
Variable world : Type.
Implicit Type t : trading world.

Lemma op_done (ev : event) (f : list worker -> list worker)
    (p p' : pass world) :
  op ev f p = Some p' ->
  state p' = Trading (lock (state p)) (f (workers (state p)))
                     (collaborators (state p)) (journal (state p) ++ [ev]).
Proof.
  unfold op. destruct (countdown p) as [[|k]|]; [discriminate| |];
    intros [= <-]; reflexivity.
Qed.

(** A drain that is not interrupted has asked every worker from the
    current one on to stop and waited for it, whatever interrupt was
    pending. *)
Lemma drain_completed (suf : list worker) :
  forall (pre : list worker) (p p' : pass world),
    workers (state p) = pre ++ suf ->
    drain (List.length pre) (List.length suf) p = (p', true) ->
    workers (state p') = pre ++ map just_joined suf.
Proof.
  induction suf as [|w suf IH]; intros pre p p' W D.
  - cbn in D. injection D as <-. exact W.
  - cbn [List.length drain] in D.
    destruct (op (Terminate (List.length pre)) _ p) as [p1|] eqn:O1;
      [|discriminate D].
    destruct (op (Join (List.length pre)) _ p1) as [p2|] eqn:O2;
      [|discriminate D].
    apply op_done in O1. apply op_done in O2.
    assert (W2 : workers (state p2) = (pre ++ [just_joined w]) ++ suf).
    { rewrite O2. cbn [workers]. rewrite O1. cbn [workers].
      rewrite W, update_nth_middle, update_nth_middle, <- app_assoc.
      reflexivity. }
    pose proof (IH (pre ++ [just_joined w]) p2 p' W2) as R.
    rewrite length_app, Nat.add_1_r in R.
    rewrite (R D), <- app_assoc. reflexivity.
Qed.

Lemma drain_all_completed (p p' : pass world) :
  drain_all p = (p', true) ->
  workers (state p') = map just_joined (workers (state p)).
Proof.
  unfold drain_all. intros D.
  exact (drain_completed (workers (state p)) [] p p' eq_refl D).
Qed.

(** A pass entered with the flag set leaves the loop or keeps the flag. *)
Lemma body_flag_set (p : pass world) :
  (exists t', body true p = (t', Break)
              /\ workers t' = map just_joined (workers (state p)))
  \/ (exists t', body true p = (t', Again true)).
Proof.
  unfold body. destruct (drain_all p) as [p1 [|]] eqn:D.
  - left. exists (state p1). split; [reflexivity|].
    apply drain_all_completed, D.
  - right. exists (state p1). reflexivity.
Qed.

Lemma run_loop_flag_set (interrupts : list (option nat)) :
  forall t,
    let R := run_loop (S (List.length interrupts)) interrupts true t in
    snd R = Returned
    /\ Forall (fun w => is_alive w = false /\ stop_requested w = true)
              (workers (fst R)).
Proof.
  induction interrupts as [|c rest IH]; intros t R; subst R.
  - cbn [List.length run_loop hd tl].
    destruct (body_flag_set (Pass t None)) as [[t' [B W]]|[t' B]].
    + rewrite B. cbn [fst snd]. split; [reflexivity|].
      rewrite W. apply stopped_just_joined.
    + exfalso. unfold body in B.
      destruct (drain_all_no_interrupt world t) as [t1 [D _]].
      rewrite D in B. discriminate B.
  - change (run_loop (S (List.length (c :: rest))) (c :: rest) true t)
      with (match body true (Pass t c) with
            | (t', Break) => (t', Returned)
            | (t', Again k) => run_loop (S (List.length rest)) rest k t'
            end).
    destruct (body_flag_set (Pass t c)) as [[t' [B W]]|[t' B]]; rewrite B.
    + cbn [fst snd]. split; [reflexivity|].
      rewrite W. apply stopped_just_joined.
    + apply IH.
Qed.

(** Without an interrupt no pass leaves the loop. *)
Lemma run_loop_no_interrupt (passes : nat) :
  forall t, snd (run_loop passes [] false t) = StillLooping.
Proof.
  induction passes as [|n IH]; intros t; [reflexivity|].
  cbn [run_loop hd tl].
  destruct (body_no_interrupt world t) as [t' [checks [B _]]].
  rewrite B. apply IH.
Qed.

(** X1: The only way out of [Trading.run] is an interrupt: with none, the loop
    is still going after any number of passes, whether the workers are
    alive, dead or there is none, and the process has not ended. *)
Theorem run_returns_only_on_interrupt (passes : nat) t :
  snd (Trading_run passes [] t) = StillLooping
  /\ exit_status (snd (Trading_run passes [] t)) = None.
Proof.
  unfold Trading_run. rewrite run_loop_no_interrupt. split; reflexivity.
Qed.

(** An interrupt that is due before the first operation of a pass is
    taken by that pass, which does nothing else. *)
Lemma body_interrupted_at_once t :
  body false (Pass t (Some O)) = (t, Again true).
Proof.
  unfold body. cbn [state].
  destruct (workers t) as [|w ws]; reflexivity.
Qed.

(** X2: After a pass that an interrupt cut short, [Trading.run] returns: in
    the first later pass that no interrupt cuts short, and at the latest
    when the interrupts are used up; every worker has then been asked to
    stop and waited for, none is running, and the process ends with
    status 0.  An interrupt due at the very start of a pass always cuts
    it short. *)
Theorem run_returns_after_interrupt (first : option nat)
    (rest : list (option nat)) t :
  snd (body false (Pass t first)) = Again true ->
  let R := Trading_run (S (S (List.length rest))) (first :: rest) t in
  snd R = Returned
  /\ Forall (fun w => is_alive w = false /\ stop_requested w = true)
            (workers (fst R))
  /\ exit_status (snd R) = Some 0
  /\ snd (body false (Pass t (Some O))) = Again true.
Proof.
  intros I R. subst R. unfold Trading_run.
  change (run_loop (S (S (List.length rest))) (first :: rest) false t)
    with (match body false (Pass t first) with
          | (t', Break) => (t', Returned)
          | (t', Again k) => run_loop (S (List.length rest)) rest k t'
          end).
  destruct (body false (Pass t first)) as [t1 s1]. cbn [snd] in I. subst s1.
  destruct (run_loop_flag_set rest t1) as [S1 S2].
  rewrite S1. split; [reflexivity|]. split; [exact S2|].
  split; [reflexivity|]. rewrite body_interrupted_at_once. reflexivity.
Qed.

Lemma first_dead_from_none (suf : list worker) (i : nat) :
  first_dead_from i suf = None <-> some_dead suf = false.
Proof.
  revert i. induction suf as [|w suf IH]; intros i; cbn.
  - split; reflexivity.
  - unfold some_dead in *. cbn [existsb].
    destruct (is_alive w); cbn [negb orb]; [apply IH|].
    split; discriminate.
Qed.

Lemma first_dead_from_some (suf : list worker) (i k : nat) :
  first_dead_from i suf = Some k -> (i <= k)%nat /\ some_dead suf = true.
Proof.
  revert i. induction suf as [|w suf IH]; intros i; cbn; [discriminate|].
  unfold some_dead in *. cbn [existsb].
  destruct (is_alive w); cbn [negb orb].
  - intros H. destruct (IH _ H) as [L D]. split; [lia|exact D].
  - intros [= <-]. split; [lia|reflexivity].
Qed.

Lemma alive_checks_step (i n : nat) :
  alive_checks i (S n) = IsAlive i true :: alive_checks (S i) n.
Proof. reflexivity. Qed.

(** The liveness checks of a pass, from worker [length pre] on. *)
Lemma check_journal (suf : list worker) :
  forall (pre : list worker) t,
    workers t = pre ++ suf ->
    exists t',
      check (List.length pre) (List.length suf) (Pass t None)
      = (Pass t' None, true)
      /\ journal t'
         = journal t
           ++ match first_dead_from (List.length pre) suf with
              | None => alive_checks (List.length pre) (List.length suf)
              | Some k =>
                  alive_checks (List.length pre) (k - List.length pre)
                  ++ [IsAlive k false; LogDead k]
                  ++ drain_events (List.length (workers t))
              end
      /\ workers t' = (if some_dead suf then map just_joined (workers t)
                       else workers t).
Proof.
  induction suf as [|w suf IH]; intros pre t W.
  - exists t. split; [reflexivity|]. cbn. rewrite app_nil_r.
    split; reflexivity.
  - cbn [List.length check state first_dead_from].
    assert (N : nth_error (workers t) (List.length pre) = Some w).
    { rewrite W, nth_error_app2, Nat.sub_diag; [reflexivity|lia]. }
    rewrite N, op_no_interrupt.
    unfold some_dead. cbn [existsb]. fold (some_dead suf).
    destruct (is_alive w) eqn:A; cbn [negb orb].
    + match goal with |- context [Pass ?u None] =>
        destruct (IH (pre ++ [w]) u) as [t' [C [J W']]]
      end.
      * cbn [workers]. rewrite W, <- app_assoc. reflexivity.
      * rewrite length_app, Nat.add_1_r in C, J.
        exists t'. split; [exact C|]. split; [|exact W'].
        rewrite J. cbn [journal workers]. rewrite <- !app_assoc.
        f_equal. cbn [app].
        destruct (first_dead_from (S (List.length pre)) suf) as [k|] eqn:F.
        -- destruct (first_dead_from_some _ _ _ F) as [L _].
           replace (k - List.length pre)%nat
             with (S (k - S (List.length pre))) by lia.
           rewrite alive_checks_step. reflexivity.
        -- rewrite alive_checks_step. reflexivity.
    + rewrite op_no_interrupt.
      match goal with |- context [drain_all (Pass ?u None)] =>
        destruct (drain_all_no_interrupt world u) as [t' [D [W' J']]]
      end.
      exists t'. split; [exact D|]. split; [|exact W'].
      rewrite J'. cbn [journal workers]. rewrite Nat.sub_diag.
      rewrite <- !app_assoc. reflexivity.
Qed.

(** The loop works on the workers and the journal only. *)
Lemma drain_frame (n : nat) :
  forall (i : nat) (p p' : pass world) (b : bool),
    drain i n p = (p', b) ->
    lock (state p') = lock (state p)
    /\ collaborators (state p') = collaborators (state p).
Proof.
  induction n as [|n IH]; intros i p p' b D.
  - cbn in D. injection D as <- _. split; reflexivity.
  - cbn [drain] in D.
    destruct (op (Terminate i) _ p) as [p1|] eqn:O1.
    + destruct (op (Join i) _ p1) as [p2|] eqn:O2.
      * apply op_done in O1. apply op_done in O2.
        destruct (IH _ _ _ _ D) as [L C]. rewrite L, C, O2.
        cbn [lock collaborators]. rewrite O1. split; reflexivity.
      * injection D as <- _. apply op_done in O1. rewrite O1.
        split; reflexivity.
    + injection D as <- _. split; reflexivity.
Qed.

Lemma check_frame (n : nat) :
  forall (i : nat) (p p' : pass world) (b : bool),
    check i n p = (p', b) ->
    lock (state p') = lock (state p)
    /\ collaborators (state p') = collaborators (state p).
Proof.
  induction n as [|n IH]; intros i p p' b C.
  - cbn in C. injection C as <- _. split; reflexivity.
  - cbn [check] in C.
    destruct (op (IsAlive i _) _ p) as [p1|] eqn:O1.
    + pose proof (op_done _ _ _ _ O1) as E1.
      destruct (match nth_error (workers (state p)) i with
                | Some w => is_alive w
                | None => false
                end).
      * destruct (IH _ _ _ _ C) as [L K]. rewrite L, K, E1.
        split; reflexivity.
      * destruct (op (LogDead i) _ p1) as [p2|] eqn:O2.
        -- pose proof (op_done _ _ _ _ O2) as E2.
           destruct (drain_frame _ _ _ _ _ C) as [L K].
           rewrite L, K, E2. cbn [lock collaborators]. rewrite E1.
           split; reflexivity.
        -- injection C as <- _. rewrite E1. split; reflexivity.
    + injection C as <- _. split; reflexivity.
Qed.

Lemma pass_no_interrupt t :
  exists t',
    body false (Pass t None) = (t', Again false)
    /\ journal t' = journal t ++ pass_events (workers t)
    /\ workers t' = (if some_dead (workers t)
                     then map just_joined (workers t) else workers t)
    /\ lock t' = lock t /\ collaborators t' = collaborators t.
Proof.
  unfold body. cbn [state].
  destruct (check_journal (workers t) [] t eq_refl) as [t1 [C [J W]]].
  assert (LC : lock t1 = lock t /\ collaborators t1 = collaborators t).
  { exact (check_frame _ _ _ _ _ C). }
  cbn [List.length] in C. rewrite C, op_no_interrupt.
  eexists. split; [reflexivity|].
  cbn [workers journal lock collaborators].
  split; [|split; [exact W|exact LC]].
  rewrite J. unfold pass_events, first_dead. cbn [List.length].
  destruct (first_dead_from 0 (workers t)) as [k|];
    rewrite ?Nat.sub_0_r, <- ?app_assoc; reflexivity.
Qed.

(** X3: A pass that nothing interrupts checks the workers in order up to the
    first dead one; if there is none it only sleeps; otherwise it logs
    that worker alone, does not check the workers after it, and asks every
    worker (alive or not) to stop and waits for each before it sleeps.  It
    touches neither the lock nor the collaborators. *)
Theorem uninterrupted_pass t :
  let R := Trading_run 1 [] t in
  journal (fst R) = journal t ++ pass_events (workers t)
  /\ workers (fst R) = (if some_dead (workers t)
                        then map just_joined (workers t) else workers t)
  /\ lock (fst R) = lock t
  /\ collaborators (fst R) = collaborators t.
Proof.
  intros R. subst R. unfold Trading_run. cbn [run_loop hd tl].
  destruct (pass_no_interrupt t) as [t' [B [J [W [L C]]]]].
  rewrite B. cbn [run_loop fst]. auto.
Qed.

Lemma alive_checks_quiet (i n : nat) :
  forallb (fun ev => negb (is_drain_event ev)) (alive_checks i n) = true.
Proof.
  unfold alive_checks. revert i.
  induction n as [|n IH]; intros i; cbn; [reflexivity|apply IH].
Qed.

Lemma run_loop_all_alive (passes : nat) :
  forall t, some_dead (workers t) = false ->
    let R := run_loop passes [] false t in
    workers (fst R) = workers t
    /\ exists added,
         journal (fst R) = journal t ++ added
         /\ forallb (fun ev => negb (is_drain_event ev)) added = true.
Proof.
  induction passes as [|n IH]; intros t D R; subst R.
  - cbn. split; [reflexivity|]. exists []. rewrite app_nil_r.
    split; reflexivity.
  - cbn [run_loop hd tl].
    destruct (pass_no_interrupt t) as [t' [B [J [W _]]]].
    rewrite B. rewrite D in W.
    destruct (IH t') as [W1 [added [J1 Q1]]]; [rewrite W; exact D|].
    split; [rewrite W1; exact W|].
    exists (pass_events (workers t) ++ added).
    split; [rewrite J1, J, <- app_assoc; reflexivity|].
    rewrite forallb_app, Q1, andb_true_r.
    unfold pass_events, first_dead.
    rewrite (proj2 (first_dead_from_none (workers t) 0) D).
    rewrite forallb_app, alive_checks_quiet. reflexivity.
Qed.

(** X4: While every worker answers that it is alive and no interrupt arrives,
    the supervisor never asks a worker to stop nor waits for one: pass
    after pass the workers are as they were. *)
Theorem live_workers_are_left_alone (passes : nat) t :
  some_dead (workers t) = false ->
  let R := Trading_run passes [] t in
  workers (fst R) = workers t
  /\ exists added,
       journal (fst R) = journal t ++ added
       /\ forallb (fun ev => negb (is_drain_event ev)) added = true.
Proof. intros D. exact (run_loop_all_alive passes t D). Qed.

End SupervisorPasses.

Lemma run_returns_after_interrupt_witness :
  snd (Run.Trading_run 4 [Some 1%nat; Some 3%nat; None]
         (idle [Run.Worker true false; Run.Worker true false]))
  = Run.Returned.
Proof.
  exact (proj1 (run_returns_after_interrupt unit (Some 1%nat)
                  [Some 3%nat; None]
                  (idle [Run.Worker true false; Run.Worker true false])
                  eq_refl)).
Defined.

Lemma live_workers_are_left_alone_witness :
  Run.workers
    (fst (Run.Trading_run 5 []
            (idle [Run.Worker true false; Run.Worker true false])))
  = [Run.Worker true false; Run.Worker true false].
Proof.
  exact (proj1 (live_workers_are_left_alone unit 5
                  (idle [Run.Worker true false; Run.Worker true false])
                  eq_refl)).
Defined.

(** ** Notifications in sequence *)

Section NotifySequence.
Import Run.
Variable world : Type.
Variable model_output action : Type.
Variable model_prices_call :
  list pyval * dict -> world -> world * res model_output.
Variable take_trading_action :
  model_output -> world -> world * res (option action).

Lemma lock_alternates_quiet (mid rest : list event) (held : bool) :
  forallb (fun ev => negb (is_lock_event ev)) mid = true ->
  lock_alternates held (mid ++ rest) = lock_alternates held rest.
Proof.
  induction mid as [|ev mid IH]; cbn [app forallb]; [reflexivity|].
  intros H. apply andb_true_iff in H. destruct H as [Q H].
  destruct ev; cbn in Q; try discriminate Q; cbn [lock_alternates];
    apply IH, H.
Qed.

Lemma lock_alternates_app (a b : list event) :
  forall held,
    lock_alternates held a = true -> lock_alternates false b = true ->
    lock_alternates held (a ++ b) = true.
Proof.
  induction a as [|ev a IH]; intros held A B.
  - destruct held; [discriminate A|exact B].
  - destruct ev; cbn [app lock_alternates] in *;
      try (apply IH; assumption);
      apply andb_true_iff in A; destruct A as [A1 A2];
      rewrite A1; cbn [andb]; apply IH; assumption.
Qed.

(** One notification on a free lock: it returns, the lock is free again,
    the workers are untouched, and the journal has grown by one
    acquisition, the handler's entries and one release. *)
Lemma notify_on_free_lock (o : observable) (payload : list pyval * dict)
    (t : trading world) :
  lock t = Free ->
  let R := notify model_prices_call take_trading_action o payload t in
  lock (fst R) = Free
  /\ workers (fst R) = workers t
  /\ returned (snd R) = true
  /\ exists mid,
       journal (fst R) = journal t ++ Acquire :: mid ++ [Release]
       /\ forallb (fun ev => negb (is_lock_event ev)) mid = true.
Proof.
  intros F R. subst R. unfold notify. rewrite F.
  set (entered := record Acquire (with_lock Held t)).
  destruct o as [|name]; cbn [is_BitstampAPI].
  - pose proof (price_update_notification_frame world model_output action
                  model_prices_call take_trading_action payload entered)
      as Fr.
    cbv zeta in Fr.
    destruct (price_update_notification model_prices_call
                take_trading_action payload entered) as [t1 r].
    cbn [fst snd] in *. destruct Fr as [_ [W [mid [J M]]]].
    split; [reflexivity|]. split; [exact W|]. split; [reflexivity|].
    exists mid. split; [|exact M].
    cbn [record with_lock journal]. rewrite J.
    subst entered. cbn [record with_lock journal].
    rewrite <- !app_assoc. reflexivity.
  - cbn [fst snd]. split; [reflexivity|]. split; [reflexivity|].
    split; [reflexivity|]. exists []. split; [|reflexivity].
    subst entered. cbn [record with_lock journal app].
    rewrite <- !app_assoc. reflexivity.
Qed.

(** X5: Any number of notifications delivered in turn from a free lock all
    return (none waits for the lock), whatever their sources and whether
    their handlers raise; the lock is free at the end, the workers are
    untouched, and in the journal acquisitions and releases alternate:
    the lock is never taken twice without a release between. *)
Theorem notifications_take_the_lock_in_turn
    (calls : list (observable * (list pyval * dict))) (t : trading world) :
  lock t = Free ->
  lock_alternates false (journal t) = true ->
  let R := notify_each model_prices_call take_trading_action calls t in
  lock (fst R) = Free
  /\ workers (fst R) = workers t
  /\ List.length (snd R) = List.length calls
  /\ forallb returned (snd R) = true
  /\ lock_alternates false (journal (fst R)) = true.
Proof.
  revert t. induction calls as [|[o payload] calls IH]; intros t F A R;
    subst R.
  - cbn. auto.
  - cbn [notify_each].
    pose proof (notify_on_free_lock o payload t F) as N. cbv zeta in N.
    destruct (notify model_prices_call take_trading_action o payload t)
      as [t1 out].
    cbn [fst snd] in N. destruct N as [F1 [W1 [R1 [mid [J1 M1]]]]].
    assert (A1 : lock_alternates false (journal t1) = true).
    { rewrite J1. apply lock_alternates_app; [exact A|].
      cbn [lock_alternates negb andb].
      rewrite (lock_alternates_quiet mid [Release] true M1). reflexivity. }
    specialize (IH t1 F1 A1). cbv zeta in IH.
    destruct (notify_each model_prices_call take_trading_action calls t1)
      as [t2 outs].
    cbn [fst snd] in *. destruct IH as [F2 [W2 [L2 [R2 A2]]]].
    split; [exact F2|]. split; [rewrite W2; exact W1|].
    split; [cbn [List.length]; rewrite L2; reflexivity|].
    split; [cbn [forallb]; rewrite R1, R2; reflexivity|exact A2].
Qed.

(** X6: When the price model raises, the notification ends there: the action
    taker is not consulted (neither the outcome nor the state depends on
    it), the collaborators are as the model left them, and [notify] gives
    the model's exception to its caller. *)
Theorem failing_model_stops_the_notification
    (other_action_taker : model_output -> world -> world * res (option action))
    (payload : list pyval * dict) (t : trading world) (w : world) (e : exn) :
  lock t = Free ->
  model_prices_call payload (collaborators t) = (w, Raise e) ->
  let R := notify model_prices_call take_trading_action BitstampAPI
                  payload t in
  snd R = Returns (Raise e)
  /\ collaborators (fst R) = w
  /\ journal (fst R) = journal t ++ [Acquire; LogReceived; Release]
  /\ notify model_prices_call other_action_taker BitstampAPI payload t = R.
Proof.
  intros F M R. subst R. unfold notify, price_update_notification.
  rewrite F. cbn [is_BitstampAPI].
  destruct t as [l ws c j].
  cbn [record with_lock with_world lock workers collaborators journal] in *.
  rewrite M.
  cbn [record with_lock with_world lock workers collaborators journal
       fst snd].
  rewrite <- !app_assoc.
  destruct (is_Exception e); repeat split.
Qed.

End NotifySequence.

Lemma notifications_take_the_lock_in_turn_witness :
  let R := notify_each broken_model no_action
             [(Run.BitstampAPI, ([], [])); (Run.OtherSource "Timer", ([], []))]
             (Run.Trading Run.Free [] tt []) in
  Run.lock (fst R) = Run.Free /\ List.length (snd R) = 2%nat.
Proof.
  intro R.
  destruct (notifications_take_the_lock_in_turn unit unit unit broken_model
              no_action
              [(Run.BitstampAPI, ([], []));
               (Run.OtherSource "Timer", ([], []))]
              (Run.Trading Run.Free [] tt []) eq_refl eq_refl)
    as [H1 [_ [H3 _]]].
  split; [exact H1 | exact H3].
Defined.

Lemma failing_model_stops_the_notification_witness :
  snd (Run.notify broken_model no_action Run.BitstampAPI ([], [])
         (Run.Trading Run.Free [] tt []))
  = Run.Returns (Raise ValueError).
Proof.
  exact (proj1 (failing_model_stops_the_notification unit unit unit
                  broken_model no_action no_action ([], [])
                  (Run.Trading Run.Free [] tt []) tt ValueError
                  eq_refl eq_refl)).
Defined.

(** ** The hooks, field by field *)

Section HookLayout.
Context {L : Library}.

Lemma statements_app (a b : list (pyval -> res pyval)) (r : pyval) :
  statements (a ++ b) r = (r1 <- statements a r ;; statements b r1).
Proof.
  revert r. induction a as [|g a IH]; intro r; cbn [app statements bind].
  - reflexivity.
  - destruct (g r) as [r1|x]; cbn [bind]; [apply IH|reflexivity].
Qed.

Lemma statements_ext (l l' : list (pyval -> res pyval)) :
  Forall2 (fun g h => forall r, g r = h r) l l' ->
  forall r, statements l r = statements l' r.
Proof.
  induction 1 as [|g h l l' E _ IH]; intro r; cbn [statements];
    [reflexivity|].
  rewrite E. destruct (h r) as [r1|x]; cbn [bind]; [apply IH|reflexivity].
Qed.

Lemma first_reason_coerce (r : pyval) :
  first_reason r = coerce (convert FirstReason) "reason" r.
Proof.
  unfold first_reason, coerce, convert.
  destruct (getitem r "reason") as [x|e]; cbn [bind]; [|reflexivity].
  destruct (getitem x "__all__") as [y|e]; cbn [bind]; reflexivity.
Qed.

Lemma book_side_coerce (side : string) (r : pyval) :
  book_side side r = coerce (convert BookRows) side r.
Proof.
  unfold book_side, coerce, convert.
  destruct (getitem r side) as [x|e]; cbn [bind]; [|reflexivity].
  destruct (iterate x) as [rows|e]; cbn [bind]; [|reflexivity].
  destruct (map_res book_row rows) as [rows'|e]; cbn [bind]; reflexivity.
Qed.

(** Each hook is the sequence of conversions its layout lists. *)
Lemma process_layout (e : endpoint) (p : pyval) :
  process e p
  = match layout_of e with
    | Fields optional fs => statements (map (step optional) fs) p
    | Rows fs => for_each (statements (map (step false) fs)) p
    | Untouched => Ok p
    end.
Proof.
  destruct e; cbn [layout_of process]; try reflexivity.
  - apply statements_ext. repeat constructor.
    intro r. unfold step. cbn [fst snd]. unfold coerce_if_present.
    destruct (contains "reason" r) as [[|]|x]; cbn [bind];
      [apply first_reason_coerce|reflexivity|reflexivity].
  - apply statements_ext. repeat constructor; intro r;
      apply book_side_coerce.
Qed.

Lemma book_row_record (row row' : pyval) :
  book_row row = Ok row' -> is_book_record row' = true.
Proof.
  unfold book_row. intros H.
  apply bind_Ok in H. destruct H as [[price amount] [_ H]].
  apply bind_Ok in H. destruct H as [p [_ H]].
  apply bind_Ok in H. destruct H as [a [_ H]]. injection H as <-.
  reflexivity.
Qed.

Lemma dt_kind (v out : pyval) : dt v = Ok out -> has_kind ToTime out = true.
Proof.
  unfold dt. destruct (negb (truthy v)); [intros [= <-]; reflexivity|].
  intros H. apply bind_Ok in H. destruct H as [ts [_ H]].
  apply bind_Ok in H. destruct H as [d [_ H]]. injection H as <-.
  reflexivity.
Qed.

Lemma convert_kind (c : conversion) (raw typed : pyval) :
  convert c raw = Ok typed -> has_kind c typed = true.
Proof.
  destruct c; cbn [convert]; intros H.
  - unfold to_Decimal in H. apply bind_Ok in H.
    destruct H as [d [_ H]]. injection H as <-. reflexivity.
  - unfold to_int in H. apply bind_Ok in H.
    destruct H as [z [_ H]]. injection H as <-. reflexivity.
  - exact (dt_kind raw typed H).
  - reflexivity.
  - apply bind_Ok in H. destruct H as [rows [_ H]].
    apply bind_Ok in H. destruct H as [rows' [M H]]. injection H as <-.
    cbn [has_kind]. apply map_res_Forall2 in M.
    induction M as [|a b rows rows' Hab _ IH]; cbn [forallb];
      [reflexivity|].
    rewrite (book_row_record a b Hab), IH. reflexivity.
Qed.

Lemma step_keeps (optional : bool) (fc : string * conversion) (f : string) :
  f <> fst fc -> keeps f (step optional fc).
Proof.
  intros N. unfold step. destruct optional;
    [apply coerce_if_present_keeps|apply coerce_keeps]; exact N.
Qed.

Lemma steps_keep (optional : bool) (fs : list (string * conversion))
    (f : string) :
  ~ In f (map fst fs) -> Forall (keeps f) (map (step optional) fs).
Proof.
  induction fs as [|fc fs IH]; cbn [map In]; intros N; constructor.
  - apply step_keeps. intros E. apply N. left. symmetry. exact E.
  - apply IH. intros I. apply N. right. exact I.
Qed.

(** What one statement makes of its own field. *)
Lemma step_converts (optional : bool) (fc : string * conversion)
    (r r' : pyval) :
  step optional fc r = Ok r' -> field_converted optional r r' fc.
Proof.
  unfold step, field_converted. intros H.
  assert (C : coerce (convert (snd fc)) (fst fc) r = Ok r' ->
              match getitem r (fst fc) with
              | Ok raw =>
                  exists typed, convert (snd fc) raw = Ok typed
                                /\ getitem r' (fst fc) = Ok typed
                                /\ has_kind (snd fc) typed = true
              | Raise x => optional = true /\ getitem r' (fst fc) = Raise x
              end).
  { intros K. apply coerce_Ok in K.
    destruct K as [d [x [y [-> [D [F ->]]]]]].
    cbn [getitem]. rewrite D. exists y.
    split; [exact F|]. split; [apply getitem_set_same|].
    exact (convert_kind _ _ _ F). }
  destruct optional; [|exact (C H)].
  unfold coerce_if_present in H.
  apply bind_Ok in H. destruct H as [b [B H]].
  destruct b; [exact (C H)|]. injection H as <-.
  destruct r; cbn in B; try discriminate B; cbn [getitem]; auto.
  injection B as B. unfold dict_has in B.
  destruct (dict_get d (fst fc)); [discriminate B|]. auto.
Qed.

Lemma statements_field (optional : bool)
    (pre post : list (string * conversion)) (fc : string * conversion)
    (p out : pyval) :
  ~ In (fst fc) (map fst pre) -> ~ In (fst fc) (map fst post) ->
  statements (map (step optional) (pre ++ fc :: post)) p = Ok out ->
  field_converted optional p out fc.
Proof.
  intros Npre Npost H.
  rewrite map_app, statements_app in H. cbn [map statements] in H.
  apply bind_Ok in H. destruct H as [r1 [H1 H]].
  apply bind_Ok in H. destruct H as [r2 [H2 H3]].
  pose proof (statements_keeps _ _ (steps_keep optional pre _ Npre) _ _ H1)
    as K1.
  pose proof (statements_keeps _ _ (steps_keep optional post _ Npost) _ _ H3)
    as K3.
  pose proof (step_converts optional fc r1 r2 H2) as C.
  unfold field_converted in *. rewrite <- K1, K3. exact C.
Qed.

Lemma statements_record (optional : bool) (fs : list (string * conversion))
    (p out : pyval) :
  NoDup (map fst fs) ->
  statements (map (step optional) fs) p = Ok out ->
  record_converted optional fs p out.
Proof.
  intros D H. split.
  - apply Forall_forall. intros fc I.
    destruct (in_split fc fs I) as [pre [post E]]. subst fs.
    rewrite map_app in D. cbn [map] in D.
    pose proof (NoDup_remove_2 _ _ _ D) as N.
    apply (statements_field optional pre post fc p out); [| |exact H];
      intro I'; apply N, in_or_app; [left|right]; exact I'.
  - intros f N.
    exact (statements_keeps _ _ (steps_keep optional fs f N) _ _ H).
Qed.

End HookLayout.

Ltac distinct_names :=
  repeat (constructor;
          [cbn [In];
           let H := fresh in
           intro H;
           repeat (destruct H as [H|H]; [discriminate H|]); exact H|]);
  constructor.

Section HookResults.
Context {L : Library}.

Lemma layout_distinct (e : endpoint) :
  match layout_of e with
  | Fields _ fs | Rows fs => NoDup (map fst fs)
  | Untouched => True
  end.
Proof. destruct e; cbn [layout_of map fst]; try exact I; distinct_names. Qed.

Lemma for_each_not_rows (body : pyval -> res pyval) (p out : pyval) :
  (forall r r', body r = Ok r' -> exists d, r = PDict d) ->
  for_each body p = Ok out ->
  match p with
  | PList rows =>
      exists rows', out = PList rows'
                    /\ Forall2 (fun a b => body a = Ok b) rows rows'
  | _ => out = p /\ iterate p = Ok []
  end.
Proof.
  intros B H. destruct p; try discriminate H;
    try exact (for_each_rows body _ out H);
    unfold for_each in H;
    apply bind_Ok in H; destruct H as [items [I H]];
    apply bind_Ok in H; destruct H as [items' [M H]];
    injection H as <-; (split; [reflexivity|]);
    rewrite I; f_equal;
    (destruct items as [|x items]; [reflexivity|exfalso]);
    cbn [map_res] in M;
    (destruct (body x) as [y|] eqn:Bx; [|discriminate M]);
    destruct (B x y Bx) as [d0 ->].
  - (* a text: its characters are texts *)
    cbn [iterate] in I. injection I as I.
    destruct (chars s); discriminate I.
  - (* a record: its keys are texts *)
    cbn [iterate] in I. injection I as I.
    destruct d as [|[k v] d]; discriminate I.
Qed.

Lemma row_statements_need_record (fs : list (string * conversion))
    (r r' : pyval) :
  fs <> [] -> statements (map (step false) fs) r = Ok r' ->
  exists d, r = PDict d.
Proof.
  destruct fs as [|fc fs]; [congruence|]. intros _ H.
  cbn [map statements] in H. apply bind_Ok in H.
  destruct H as [r1 [H _]]. unfold step in H. apply coerce_Ok in H.
  destruct H as [d [_ [_ [-> _]]]]. exists d. reflexivity.
Qed.

(** What a hook has done to a payload it accepted. *)
Lemma process_result (e : endpoint) (p out : pyval) :
  process e p = Ok out -> hook_result e p out.
Proof.
  rewrite process_layout. unfold hook_result.
  pose proof (layout_distinct e) as D.
  destruct e; cbn [layout_of] in *;
    try (intros [= <-]; reflexivity);
    try (apply statements_record; exact D);
    (intros H; apply for_each_not_rows in H;
     [|intros r r'; apply (row_statements_need_record _ r r');
       discriminate];
     destruct p; try exact H;
     destruct H as [rows' [-> F]]; exists rows';
     (split; [reflexivity|]);
     eapply Forall2_impl; [|exact F];
     intros a b Hab; cbv beta in Hab;
     apply statements_record; [exact D|exact Hab]).
Qed.

(** X7: A call that returns has sent one request, been answered a payload
    without an [error] field and run the hook of its class once, on that
    payload; what it returns is the payload with each field the class
    converts ([Decimal], [int], [dt], the first reason, the rows of a book
    side) replaced by the conversion of the value received there, which has
    the type of that conversion, and every other field as received.  A
    class that works on rows does so in every row; a response without
    elements that is not a list is returned as it is. *)
Theorem call_returns_converted_payload (e : endpoint) (c : credentials)
    (now : Q) (net : transport) (prefix_url : string) (params : dict)
    (out : pyval) :
  snd (call e c now net prefix_url params) = Ok out ->
  exists rq p,
    fst (call e c now net prefix_url params) = [Sent rq; Hook e p]
    /\ req_url rq = (prefix_url ++ url e)%string
    /\ net rq = Ok p
    /\ has_error p = false
    /\ hook_result e p out.
Proof.
  assert (A : forall ps,
             snd (APICall_call e net prefix_url ps) = Ok out ->
             exists rq p,
               fst (APICall_call e net prefix_url ps) = [Sent rq; Hook e p]
               /\ req_url rq = (prefix_url ++ url e)%string
               /\ net rq = Ok p
               /\ has_error p = false
               /\ hook_result e p out).
  { intros ps. unfold APICall_call.
    set (rq := Request (method e) (prefix_url ++ url e)%string ps).
    destruct (net rq) as [response|x] eqn:N; [|discriminate].
    destruct (has_error response) eqn:E.
    - cbn [snd]. destruct (getitem response "error"); discriminate.
    - destruct (_process_response e response) as [[r' nr]|x] eqn:P;
        [|discriminate].
      apply _process_response_Ok in P. destruct P as [P ->].
      cbn [fst snd]. intros [= <-].
      exists rq, response. split; [reflexivity|]. split; [reflexivity|].
      split; [exact N|]. split; [exact E|]. apply process_result, P. }
  unfold call, APIPrivateCall_call. destruct (is_private e); apply A.
Qed.

End HookResults.

Lemma call_returns_converted_payload_witness :
  hook_result (L := CPython 0) APIEURUSDConversionRateCall
    example_rates example_rates_converted.
Proof.
  destruct (call_returns_converted_payload (L := CPython 0)
              APIEURUSDConversionRateCall example_credentials
              (1609495200 # 1) (answers example_rates) "https://exchange/"
              [] example_rates_converted eq_refl)
    as [rq [p [_ [_ [N [_ R]]]]]].
  injection N as <-. exact R.
Defined.

(** ** Where an [APIError] comes from *)

Section NoAPIError.
Context {L : Library}.
Hypothesis foreign : foreign_to_APIError L.

Lemma bind_quiet {A B} (m : res A) (k : A -> res B) :
  raises_APIError m = false -> (forall a, raises_APIError (k a) = false) ->
  raises_APIError (bind m k) = false.
Proof. destruct m as [a|x]; cbn [bind]; auto. Qed.

Lemma map_res_quiet {A B} (g : A -> res B) (l : list A) :
  (forall a, raises_APIError (g a) = false) ->
  raises_APIError (map_res g l) = false.
Proof.
  intros Q. induction l as [|a l IH]; cbn [map_res]; [reflexivity|].
  pose proof (Q a) as Qa. destruct (g a) as [b|x]; [|exact Qa].
  destruct (map_res g l) as [bs|x]; [reflexivity|exact IH].
Qed.

Lemma getitem_quiet (r : pyval) (k : string) :
  raises_APIError (getitem r k) = false.
Proof.
  destruct r; try reflexivity. cbn. destruct (dict_get d k); reflexivity.
Qed.

Lemma getitem0_quiet (r : pyval) : raises_APIError (getitem0 r) = false.
Proof.
  destruct r; try reflexivity; cbn.
  - destruct (chars s); reflexivity.
  - destruct l; reflexivity.
Qed.

Lemma setitem_quiet (r : pyval) (k : string) (x : pyval) :
  raises_APIError (setitem r k x) = false.
Proof. destruct r; reflexivity. Qed.

Lemma contains_quiet (k : string) (r : pyval) :
  raises_APIError (contains k r) = false.
Proof. destruct r; reflexivity. Qed.

Lemma iterate_quiet (r : pyval) : raises_APIError (iterate r) = false.
Proof. destruct r; reflexivity. Qed.

Lemma unpack2_quiet (r : pyval) : raises_APIError (unpack2 r) = false.
Proof.
  unfold unpack2. apply bind_quiet; [apply iterate_quiet|].
  intros [|a [|b [|c l]]]; reflexivity.
Qed.

Lemma Decimal_of_str_quiet (s : string) :
  raises_APIError (Decimal_of_str s) = false.
Proof.
  unfold Decimal_of_str. destruct (take_sign _) as [neg r].
  destruct (parse_finite neg r); [reflexivity|].
  destruct (parse_special neg r); reflexivity.
Qed.

Lemma Decimal_of_seq_quiet (l : list pyval) :
  raises_APIError (Decimal_of_seq l) = false.
Proof.
  unfold Decimal_of_seq.
  repeat match goal with
         | |- context [match ?x with _ => _ end] => destruct x
         end; reflexivity.
Qed.

Lemma Decimal_quiet (v : pyval) : raises_APIError (Decimal v) = false.
Proof.
  destruct v; try reflexivity;
    [apply Decimal_of_str_quiet|apply Decimal_of_seq_quiet].
Qed.

Lemma dt_quiet (v : pyval) : raises_APIError (dt v) = false.
Proof.
  destruct foreign as [Fi [Fs [Fm Ff]]].
  unfold dt. destruct (negb (truthy v)); [reflexivity|].
  apply bind_quiet.
  - assert (S : forall f,
               raises_APIError (tm <- lib_strptime v f ;; lib_mktime tm)
               = false)
      by (intro f; apply bind_quiet; [apply Fs|apply Fm]).
    unfold try_except. pose proof (Fi v) as Q.
    destruct (lib_int v) as [z|x]; [reflexivity|].
    destruct (is_ValueError x); [|exact Q].
    pose proof (S "%Y-%m-%d %H:%M:%S.%f"%string) as Q1.
    destruct (tm <- lib_strptime v "%Y-%m-%d %H:%M:%S.%f" ;; lib_mktime tm)
      as [z|y]; [reflexivity|].
    destruct (is_ValueError y); [apply S|exact Q1].
  - intro ts. apply bind_quiet; [apply Ff|reflexivity].
Qed.

Lemma book_row_quiet (row : pyval) : raises_APIError (book_row row) = false.
Proof.
  unfold book_row. apply bind_quiet; [apply unpack2_quiet|].
  intros [price amount]. apply bind_quiet; [apply Decimal_quiet|].
  intro p. apply bind_quiet; [apply Decimal_quiet|reflexivity].
Qed.

Lemma convert_quiet (c : conversion) (raw : pyval) :
  raises_APIError (convert c raw) = false.
Proof.
  destruct c; cbn [convert].
  - apply bind_quiet; [apply Decimal_quiet|reflexivity].
  - apply bind_quiet; [apply (proj1 foreign)|reflexivity].
  - apply dt_quiet.
  - apply bind_quiet; [apply getitem_quiet|]. intro. apply getitem0_quiet.
  - apply bind_quiet; [apply iterate_quiet|]. intro rows.
    apply bind_quiet; [apply map_res_quiet, book_row_quiet|reflexivity].
Qed.

Lemma step_quiet (optional : bool) (fc : string * conversion) (r : pyval) :
  raises_APIError (step optional fc r) = false.
Proof.
  assert (C : raises_APIError (coerce (convert (snd fc)) (fst fc) r) = false).
  { unfold coerce. apply bind_quiet; [apply getitem_quiet|]. intro x.
    apply bind_quiet; [apply convert_quiet|]. intro y. apply setitem_quiet. }
  unfold step. destruct optional; [|exact C].
  unfold coerce_if_present. apply bind_quiet; [apply contains_quiet|].
  intros [|]; [exact C|reflexivity].
Qed.

Lemma statements_quiet (optional : bool) (fs : list (string * conversion))
    (r : pyval) :
  raises_APIError (statements (map (step optional) fs) r) = false.
Proof.
  revert r. induction fs as [|fc fs IH]; intro r; cbn [map statements];
    [reflexivity|].
  apply bind_quiet; [apply step_quiet|exact IH].
Qed.

Lemma process_quiet (e : endpoint) (p : pyval) :
  raises_APIError (process e p) = false.
Proof.
  rewrite process_layout. destruct (layout_of e) as [optional fs|fs|].
  - apply statements_quiet.
  - unfold for_each. apply bind_quiet; [apply iterate_quiet|]. intro items.
    apply bind_quiet; [apply map_res_quiet; intro; apply statements_quiet|].
    intro items'. destruct p; reflexivity.
  - reflexivity.
Qed.

Lemma APICall_call_APIError (e : endpoint) (net : transport)
    (prefix_url : string) (params : dict) (v : pyval) :
  snd (APICall_call e net prefix_url params) = Raise (APIError v) ->
  exists rq,
    fst (APICall_call e net prefix_url params) = [Sent rq]
    /\ (net rq = Raise (APIError v)
        \/ exists d, net rq = Ok (PDict d) /\ dict_get d "error" = Some v).
Proof.
  unfold APICall_call.
  set (rq := Request (method e) (prefix_url ++ url e)%string params).
  destruct (net rq) as [response|x] eqn:N.
  - destruct (has_error response) eqn:E.
    + cbn [fst snd]. intros H. exists rq. split; [reflexivity|]. right.
      destruct response; try discriminate E.
      exists d. split; [exact N|].
      cbn [getitem] in H. destruct (dict_get d "error") as [v'|];
        [|discriminate H].
      injection H as ->. reflexivity.
    + pose proof (process_quiet e response) as Q.
      unfold _process_response.
      destruct (process e response) as [r|x]; cbn [bind fst snd].
      * discriminate.
      * intros [= ->]. discriminate Q.
  - cbn [fst snd]. intros [= ->]. exists rq. split; [reflexivity|].
    left. exact N.
Qed.

End NoAPIError.

Lemma py_int_quiet (v : pyval) : raises_APIError (py_int v) = false.
Proof.
  destruct v; try reflexivity; cbn.
  - destruct (int_of_str s); reflexivity.
  - destruct d; reflexivity.
Qed.

Lemma strptime_quiet (v : pyval) (f : string) :
  raises_APIError (PyTime.strptime v f) = false.
Proof.
  unfold PyTime.strptime. destruct v; try reflexivity.
  destruct (PyTime.compile_format f) as [ts|]; [|reflexivity].
  destruct (PyTime.match_tokens ts s) as [[bs [|c r]]|]; try reflexivity.
  destruct (PyTime.valid_date _ _ _); reflexivity.
Qed.

Lemma fromtimestamp_quiet (off z : Z) :
  raises_APIError (PyTime.fromtimestamp off z) = false.
Proof.
  unfold PyTime.fromtimestamp.
  destruct (2 ^ 63 <=? Z.abs z); [reflexivity|].
  destruct (_ && _); reflexivity.
Qed.

(** The interpreter's library knows nothing of [APIError]. *)
Lemma CPython_foreign (off : Z) : foreign_to_APIError (CPython off).
Proof.
  split; [|split; [|split]]; cbn [lib_int lib_strptime lib_mktime
                                    lib_fromtimestamp CPython].
  - apply py_int_quiet.
  - apply strptime_quiet.
  - reflexivity.
  - apply fromtimestamp_quiet.
Qed.

(** X9: With a library that does not raise it, an [APIError] out of a call
    has one origin only: the body answered to the one request sent was a
    record with an [error] field, and the exception carries the value of
    that field (or the transport itself raised it); no conversion of a hook
    raises it, and the hook has not run. *)
Theorem api_error_only_from_error_payload (L : Library) (e : endpoint)
    (c : credentials) (now : Q) (net : transport) (prefix_url : string)
    (params : dict) (v : pyval) :
  foreign_to_APIError L ->
  snd (call e c now net prefix_url params) = Raise (APIError v) ->
  exists rq,
    fst (call e c now net prefix_url params) = [Sent rq]
    /\ (net rq = Raise (APIError v)
        \/ exists d, net rq = Ok (PDict d) /\ dict_get d "error" = Some v).
Proof.
  intros F. unfold call, APIPrivateCall_call.
  destruct (is_private e); apply APICall_call_APIError; exact F.
Qed.

Lemma api_error_only_from_error_payload_witness :
  exists rq d,
    insufficient_funds rq = Ok (PDict d)
    /\ dict_get d "error" = Some (PStr "Insufficient funds").
Proof.
  destruct (api_error_only_from_error_payload (CPython 0)
              APIAccountBalanceCall example_credentials (1609495200 # 1)
              insufficient_funds "https://exchange/" []
              (PStr "Insufficient funds") (CPython_foreign 0) eq_refl)
    as [rq [_ [N|[d [N G]]]]].
  - discriminate N.
  - exists rq, d. split; [exact N|exact G].
Defined.

(** ** Hooks applied to their own result *)

Section Idempotence.
Context {L : Library}.
Hypothesis int_of_int : forall z, lib_int (PInt z) = Ok z.

Lemma dict_set_same_value (d : dict) (k : string) (v : pyval) :
  dict_get d k = Some v -> dict_set d k v = d.
Proof.
  induction d as [|[k0 v0] d IH]; cbn [dict_get dict_set]; [discriminate|].
  destruct (String.eqb k k0); [intros [= ->]; reflexivity|].
  intros G. rewrite (IH G). reflexivity.
Qed.

Lemma number_converted_again (fc : string * conversion) (p out : pyval) :
  match snd fc with ToDecimal | ToInt => true | _ => false end = true ->
  field_converted false p out fc -> step false fc out = Ok out.
Proof.
  unfold field_converted, step. intros Num C.
  destruct (getitem p (fst fc)) as [raw|x]; [|destruct C; discriminate].
  destruct C as [typed [_ [G K]]].
  apply getitem_Ok in G. destruct G as [d [-> G]].
  unfold coerce. cbn [getitem]. rewrite G. cbn [bind].
  assert (F : convert (snd fc) typed = Ok typed).
  { destruct (snd fc); try discriminate Num;
      destruct typed; try discriminate K; cbn [convert].
    - reflexivity.
    - unfold to_int. rewrite int_of_int. reflexivity. }
  rewrite F. cbn [bind setitem]. rewrite (dict_set_same_value d _ _ G).
  reflexivity.
Qed.

Lemma statements_fixed (l : list (pyval -> res pyval)) (r : pyval) :
  Forall (fun g => g r = Ok r) l -> statements l r = Ok r.
Proof.
  induction 1 as [|g l G _ IH]; cbn [statements]; [reflexivity|].
  rewrite G. exact IH.
Qed.

(** X10: The hook of a class that converts numbers only ([Decimal], [int])
    changes nothing when it is given a response it has already worked on:
    it accepts it and leaves it as it is. *)
Theorem number_hooks_are_idempotent (e : endpoint) (p out : pyval)
    (ret : option pyval) :
  numbers_only e = true ->
  _process_response e p = Ok (out, ret) ->
  _process_response e out = Ok (out, None).
Proof.
  intros Num H. apply _process_response_Ok in H. destruct H as [H _].
  pose proof (process_result e p out H) as R.
  unfold _process_response. rewrite process_layout.
  unfold hook_result, numbers_only in *.
  destruct (layout_of e) as [[|] fs|fs|]; try discriminate Num.
  - rewrite statements_fixed; [reflexivity|].
    destruct R as [R _]. apply Forall_map.
    rewrite forallb_forall in Num. rewrite Forall_forall in *.
    intros fc I. exact (number_converted_again fc p out (Num fc I) (R fc I)).
  - reflexivity.
Qed.

End Idempotence.

Lemma number_hooks_are_idempotent_witness :
  @_process_response (CPython 0) APIEURUSDConversionRateCall
    example_rates_converted
  = Ok (example_rates_converted, None).
Proof.
  exact (number_hooks_are_idempotent (L := CPython 0) (fun z => eq_refl)
           APIEURUSDConversionRateCall example_rates
           example_rates_converted None eq_refl eq_refl).
Defined.

(** ** The form of a signature *)

Lemma be_bytes_length (n : nat) (x : Z) :
  List.length (SHA256.be_bytes n x) = n.
Proof.
  unfold SHA256.be_bytes. rewrite length_map, length_rev, length_seq.
  reflexivity.
Qed.

Lemma be_bytes_range (n : nat) (x : Z) :
  Forall (fun b => 0 <= b < 256) (SHA256.be_bytes n x).
Proof.
  unfold SHA256.be_bytes. apply Forall_map, Forall_forall.
  intros i _. apply Z.mod_pos_bound. lia.
Qed.

Lemma compress_length (h block : list Z) :
  List.length h = 8%nat -> List.length (SHA256.compress h block) = 8%nat.
Proof.
  intros H. unfold SHA256.compress.
  rewrite length_map, length_combine, H. reflexivity.
Qed.

Lemma compress_all_length (bs : list (list Z)) :
  forall h, List.length h = 8%nat ->
    List.length (fold_left SHA256.compress bs h) = 8%nat.
Proof.
  induction bs as [|b bs IH]; intros h H; cbn [fold_left]; [exact H|].
  apply IH, compress_length, H.
Qed.

Lemma words_bytes_length (h : list Z) :
  List.length (List.concat (map (SHA256.be_bytes 4) h))
  = (4 * List.length h)%nat.
Proof.
  induction h as [|x h IH]; cbn [map List.concat List.length];
    [reflexivity|].
  rewrite length_app, be_bytes_length, IH. lia.
Qed.

Lemma words_bytes_range (h : list Z) :
  Forall (fun b => 0 <= b < 256) (List.concat (map (SHA256.be_bytes 4) h)).
Proof.
  induction h as [|x h IH]; cbn [map List.concat]; [constructor|].
  apply Forall_app. split; [apply be_bytes_range|exact IH].
Qed.

(** A digest is thirty-two bytes. *)
Lemma digest_length (msg : bytes) : List.length (SHA256.digest msg) = 32%nat.
Proof.
  unfold SHA256.digest. cbv zeta.
  rewrite words_bytes_length, compress_all_length; reflexivity.
Qed.

Lemma digest_range (msg : bytes) :
  Forall (fun b => 0 <= b < 256) (SHA256.digest msg).
Proof. unfold SHA256.digest. cbv zeta. apply words_bytes_range. Qed.

Lemma hex_digit_upper (d : Z) :
  0 <= d < 16 -> is_upper_hex (upper_ascii (hex_digit d)) = true.
Proof.
  intros R.
  assert (C : d = 0 \/ d = 1 \/ d = 2 \/ d = 3 \/ d = 4 \/ d = 5 \/ d = 6
              \/ d = 7 \/ d = 8 \/ d = 9 \/ d = 10 \/ d = 11 \/ d = 12
              \/ d = 13 \/ d = 14 \/ d = 15) by lia.
  repeat (destruct C as [->|C]; [reflexivity|]). subst d. reflexivity.
Qed.

Lemma upper_hex_form (bs : bytes) :
  Forall (fun b => 0 <= b < 256) bs ->
  String.length (upper (hex bs)) = (2 * List.length bs)%nat
  /\ all_chars is_upper_hex (upper (hex bs)) = true.
Proof.
  induction 1 as [|b bs R _ [IH1 IH2]];
    cbn [hex upper String.length List.length all_chars].
  - split; reflexivity.
  - split; [rewrite IH1; lia|].
    rewrite IH2, !hex_digit_upper; [reflexivity| |].
    + apply Z.mod_pos_bound. lia.
    + split; [apply Z.div_pos; lia|apply Z.div_lt_upper_bound; lia].
Qed.

Lemma sign_form (c : credentials) (nonce : string) :
  String.length (sign c nonce) = 64%nat
  /\ all_chars is_upper_hex (sign c nonce) = true.
Proof.
  unfold sign, SHA256.hmac_hexdigest, SHA256.hmac. cbv zeta.
  match goal with
  | |- context [hex (SHA256.digest ?m)] =>
      destruct (upper_hex_form (SHA256.digest m) (digest_range m))
        as [Len Hex];
      rewrite digest_length in Len
  end.
  split; [exact Len|exact Hex].
Qed.

(** X11: Whatever the credentials, the clock and the parameters, the request of
    a private call carries under [signature] a text of exactly sixty-four
    characters, each a digit or a capital letter from A to F. *)
Theorem signature_is_64_upper_hex (L : Library) (e : endpoint)
    (c : credentials) (now : Q) (net : transport) (prefix_url : string)
    (params : dict) :
  is_private e = true ->
  exists rq s,
    hd_error (fst (call e c now net prefix_url params)) = Some (Sent rq)
    /\ dict_get (req_params rq) "signature" = Some (PStr s)
    /\ String.length s = 64%nat
    /\ all_chars is_upper_hex s = true.
Proof.
  intros P. unfold call. rewrite P. unfold APIPrivateCall_call.
  rewrite APICall_call_first_event.
  eexists. exists (sign c (_get_nonce now)).
  split; [reflexivity|]. cbn [req_params].
  unfold dict_update. cbn [fold_left fst snd].
  split; [rewrite !dict_get_set; reflexivity|].
  apply sign_form.
Qed.

Lemma signature_is_64_upper_hex_witness :
  exists rq s,
    hd_error (fst (@call (CPython 0) APICancelOrderCall example_credentials
                     (1609495200 # 1) insufficient_funds "https://exchange/"
                     [("id", PInt 7)]))
    = Some (Sent rq)
    /\ dict_get (req_params rq) "signature" = Some (PStr s)
    /\ String.length s = 64%nat
    /\ all_chars is_upper_hex s = true.
Proof.
  exact (signature_is_64_upper_hex (CPython 0) APICancelOrderCall
           example_credentials (1609495200 # 1) insufficient_funds
           "https://exchange/" [("id", PInt 7)] eq_refl).
Defined.

(** ** Integers written as text *)






Lemma digit_not_sign (c : ascii) :
  is_digit c = true ->
  Ascii.eqb c "-" = false /\ Ascii.eqb c "+" = false.
Proof.
  destruct c as [[] [] [] [] [] [] [] []]; vm_compute; intros H;
    (discriminate H || (split; reflexivity)).
Qed.






(** ** The exchange facade: reading the credentials *)

Lemma append_assoc (a b c : string) :
  ((a ++ b) ++ c)%string = (a ++ (b ++ c))%string.
Proof.
  induction a as [|x a IH]; cbn [String.append]; [reflexivity|].
  rewrite IH. reflexivity.
Qed.

Lemma join_chars_aux (s : string) :
  forall cur, Bitstamp_api.join (chars_aux cur s) = (cur ++ s)%string.
Proof.
  induction s as [|c s IH]; intro cur; cbn [chars_aux].
  - cbn. reflexivity.
  - destruct (is_continuation c).
    + rewrite IH. rewrite append_assoc. reflexivity.
    + cbn [Bitstamp_api.join fold_right]. fold (Bitstamp_api.join
        (chars_aux (String c EmptyString) s)).
      rewrite IH. reflexivity.
Qed.

(** A text is its characters put together. *)
Lemma join_chars (s : string) : Bitstamp_api.join (chars s) = s.
Proof. destruct s as [|c s]; [reflexivity|]. apply join_chars_aux. Qed.

Lemma chars_aux_continuation (r : string) :
  all_chars is_continuation r = true ->
  forall cur rest,
    chars_aux cur (r ++ rest) = chars_aux (cur ++ r)%string rest.
Proof.
  induction r as [|c r IH]; cbn [all_chars String.append]; intros A cur rest.
  - rewrite append_empty. reflexivity.
  - apply andb_true_iff in A. destruct A as [A1 A2].
    cbn [chars_aux]. rewrite A1, (IH A2).
    rewrite append_assoc. reflexivity.
Qed.

Lemma chars_aux_join (l : list string) :
  Forall (fun x => one_character true x = true) l ->
  forall cur, chars_aux cur (Bitstamp_api.join l) = cur :: l.
Proof.
  induction 1 as [|x l X _ IH]; intro cur; [reflexivity|].
  destruct x as [|c r]; [discriminate X|].
  cbn [one_character negb orb] in X.
  apply andb_true_iff in X. destruct X as [X1 X2].
  apply negb_true_iff in X1.
  cbn [Bitstamp_api.join fold_right String.append].
  fold (Bitstamp_api.join l).
  cbn [chars_aux]. rewrite X1.
  rewrite (chars_aux_continuation r X2). cbn [String.append].
  rewrite IH. reflexivity.
Qed.

Lemma chars_join (x : string) (l : list string) :
  one_character false x = true ->
  Forall (fun y => one_character true y = true) l ->
  chars (Bitstamp_api.join (x :: l)) = x :: l.
Proof.
  intros X F. destruct x as [|c r]; [discriminate X|].
  cbn [one_character negb orb andb] in X.
  cbn [Bitstamp_api.join fold_right String.append].
  fold (Bitstamp_api.join l). cbn [chars].
  rewrite (chars_aux_continuation r X). cbn [String.append].
  apply chars_aux_join, F.
Qed.

Lemma one_character_extend (inside : bool) (cur : string) (c : ascii) :
  one_character inside cur = true -> is_continuation c = true ->
  one_character inside (cur ++ String c EmptyString) = true.
Proof.
  destruct cur as [|a cur]; [discriminate|].
  cbn [one_character String.append]. intros H C.
  apply andb_true_iff in H. destruct H as [H1 H2].
  rewrite H1, all_chars_app, H2. cbn [all_chars andb]. rewrite C.
  reflexivity.
Qed.

Lemma chars_aux_shape (s : string) :
  forall (inside : bool) (cur : string),
    one_character inside cur = true ->
    exists y l, chars_aux cur s = y :: l
                /\ one_character inside y = true
                /\ Forall (fun x => one_character true x = true) l.
Proof.
  induction s as [|c s IH]; intros inside cur H; cbn [chars_aux].
  - exists cur, []. auto.
  - destruct (is_continuation c) eqn:C.
    + apply IH, one_character_extend; assumption.
    + destruct (IH true (String c EmptyString)) as [y [l [E [Y F]]]].
      { cbn [one_character all_chars]. rewrite C. reflexivity. }
      exists cur, (y :: l). rewrite E. auto.
Qed.

Lemma Forall_first {A} (P : A -> Prop) (l : list A) :
  Forall P l -> forall n, Forall P (firstn n l).
Proof.
  induction 1 as [|x l X _ IH]; intros [|n]; cbn [firstn]; constructor;
    [exact X|apply IH].
Qed.

(** The first characters of a text, put together, are a text of just
    those characters. *)
Lemma chars_of_slice (n : nat) (s : string) :
  chars (Bitstamp_api.join (firstn n (chars s))) = firstn n (chars s).
Proof.
  destruct s as [|c s]; [destruct n; reflexivity|].
  cbn [chars].
  destruct (chars_aux_shape s false (String c EmptyString) eq_refl)
    as [y [l [-> [Y F]]]].
  destruct n as [|n]; [reflexivity|]. cbn [firstn].
  apply chars_join; [exact Y|]. apply Forall_first, F.
Qed.

Lemma join_app (a b : list string) :
  Bitstamp_api.join (a ++ b)
  = (Bitstamp_api.join a ++ Bitstamp_api.join b)%string.
Proof.
  induction a as [|x a IH]; [reflexivity|].
  cbn [app Bitstamp_api.join fold_right].
  fold (Bitstamp_api.join (a ++ b)). fold (Bitstamp_api.join a).
  rewrite IH, append_assoc. reflexivity.
Qed.

Lemma slice_preview (n : nat) (full shown : pyval) :
  Bitstamp_api.slice_to n full = Ok shown -> preview_of n full shown.
Proof.
  intros H text ->. cbn [Bitstamp_api.slice_to] in H. injection H as <-.
  exists (Bitstamp_api.join (firstn n (chars text))),
         (Bitstamp_api.join (skipn n (chars text))).
  split; [reflexivity|]. split; [|split].
  - rewrite <- join_app, firstn_skipn, join_chars. reflexivity.
  - apply chars_of_slice.
  - intros Le. rewrite firstn_all2 by exact Le. apply join_chars.
Qed.

Section Credentials.
Variable observer : Type.

(** X14: When the object is built, three lines have been printed, and each
    shows no more of a credential than its first characters: three of the
    client identifier, ten of the key, ten of the secret.  A secret of ten
    characters or fewer is printed whole.  The object holds the three
    values as the file gives them and no observer. *)
Theorem previews_show_leading_characters (loaded : res pyval)
    (lines : list Bitstamp_api.line)
    (self : Bitstamp_api.BitstampAPI observer) :
  Bitstamp_api.__init__ observer loaded = (lines, Ok self) ->
  exists d c3 k10 s10,
    loaded = Ok (PDict d)
    /\ dict_get d "CLIENT_ID" = Some (Bitstamp_api.c self)
    /\ dict_get d "API_KEY" = Some (Bitstamp_api.k self)
    /\ dict_get d "API_SECRET" = Some (Bitstamp_api.s self)
    /\ Bitstamp_api.observers self = []
    /\ lines = [Bitstamp_api.Line "CLIENT_ID  (truncated) = " c3 "[...]";
                Bitstamp_api.Line "API_KEY    (truncated) = " k10 "[...]";
                Bitstamp_api.Line "API_SECRET (truncated) = " s10 "[...]"]
    /\ preview_of 3 (Bitstamp_api.c self) c3
    /\ preview_of 10 (Bitstamp_api.k self) k10
    /\ preview_of 10 (Bitstamp_api.s self) s10.
Proof.
  unfold Bitstamp_api.__init__.
  destruct loaded as [creds|x]; cbn [bind]; [|discriminate].
  destruct (getitem creds "CLIENT_ID") as [vc|x] eqn:Gc; cbn [bind];
    [|discriminate].
  destruct (getitem creds "API_KEY") as [vk|x] eqn:Gk; cbn [bind];
    [|discriminate].
  destruct (getitem creds "API_SECRET") as [vs|x] eqn:Gs; cbn [bind];
    [|discriminate].
  destruct (Bitstamp_api.slice_to 3 vc) as [c3|x] eqn:Sc; [|discriminate].
  destruct (Bitstamp_api.slice_to 10 vk) as [k10|x] eqn:Sk; [|discriminate].
  destruct (Bitstamp_api.slice_to 10 vs) as [s10|x] eqn:Ss; [|discriminate].
  intros [= <- <-].
  apply getitem_Ok in Gc. destruct Gc as [d [-> Gc]].
  cbn [getitem] in Gk, Gs.
  destruct (dict_get d "API_KEY") as [vk'|] eqn:Dk; [|discriminate Gk].
  destruct (dict_get d "API_SECRET") as [vs'|] eqn:Ds; [|discriminate Gs].
  injection Gk as ->. injection Gs as ->.
  exists d, c3, k10, s10. cbn.
  split; [reflexivity|]. split; [exact Gc|]. split; [exact Dk|].
  split; [exact Ds|]. split; [reflexivity|]. split; [reflexivity|].
  split; [|split]; apply slice_preview; assumption.
Qed.

(** X15: When the file lacks a credential, the construction ends with a
    [KeyError] naming the first one lacking, in the order client
    identifier, key, secret; nothing has been printed.  When reading the
    file raises, that is what the caller gets. *)
Theorem missing_credential_is_a_KeyError (d : dict) (name : string)
    (x : exn) :
  (first_missing d = Some name ->
   Bitstamp_api.__init__ observer (Ok (PDict d))
   = ([], Raise (KeyError (PStr name))))
  /\ Bitstamp_api.__init__ observer (Raise x) = ([], Raise x).
Proof.
  split; [|reflexivity].
  unfold first_missing, credential_names, Bitstamp_api.__init__, dict_has.
  cbn [find getitem bind].
  destruct (dict_get d "CLIENT_ID"); cbn [negb bind];
    [|intros [= <-]; reflexivity].
  destruct (dict_get d "API_KEY"); cbn [negb bind];
    [|intros [= <-]; reflexivity].
  destruct (dict_get d "API_SECRET"); cbn [negb bind];
    [discriminate|intros [= <-]; reflexivity].
Qed.

End Credentials.

Lemma previews_show_leading_characters_witness :
  exists s10,
    nth_error (fst (Bitstamp_api.__init__ unit (Ok example_file))) 2
    = Some (Bitstamp_api.Line "API_SECRET (truncated) = " s10 "[...]")
    /\ preview_of 10 (PStr "hunter2") s10.
Proof.
  destruct (previews_show_leading_characters unit (Ok example_file) _ _
              eq_refl)
    as [d [c3 [k10 [s10 [_ [_ [_ [_ [_ [E [_ [_ P]]]]]]]]]]]].
  exists s10. split; [|exact P]. injection E as _ _ <-. reflexivity.
Defined.

Lemma missing_credential_is_a_KeyError_witness :
  Bitstamp_api.__init__ unit
    (Ok (PDict [("CLIENT_ID", PStr "123456"); ("API_SECRET", PStr "hunter2")]))
  = ([], Raise (KeyError (PStr "API_KEY"))).
Proof.
  exact (proj1 (missing_credential_is_a_KeyError unit
                  [("CLIENT_ID", PStr "123456");
                   ("API_SECRET", PStr "hunter2")]
                  "API_KEY" ValueError) eq_refl).
Defined.

(** ** The payloads a hook accepts *)

Section Acceptance.
Context {L : Library}.

Lemma step_on_record (optional : bool) (fc : string * conversion)
    (d : dict) :
  match dict_get d (fst fc) with
  | Some raw => exists typed, convert (snd fc) raw = Ok typed
  | None => optional = true
  end ->
  exists d', step optional fc (PDict d) = Ok (PDict d')
             /\ forall f, f <> fst fc -> dict_get d' f = dict_get d f.
Proof.
  unfold step. destruct (dict_get d (fst fc)) as [raw|] eqn:G.
  - intros [typed C]. exists (dict_set d (fst fc) typed).
    split; [|intros f N; apply dict_get_set_other, N].
    assert (K : coerce (convert (snd fc)) (fst fc) (PDict d)
                = Ok (PDict (dict_set d (fst fc) typed))).
    { unfold coerce. cbn [getitem]. rewrite G. cbn [bind]. rewrite C.
      reflexivity. }
    destruct optional; [|exact K].
    unfold coerce_if_present. cbn [contains]. unfold dict_has. rewrite G.
    exact K.
  - intros ->. exists d. split; [|reflexivity].
    unfold coerce_if_present. cbn [contains]. unfold dict_has. rewrite G.
    reflexivity.
Qed.

Lemma statements_succeed (optional : bool) (fs : list (string * conversion)) :
  forall d, NoDup (map fst fs) -> fields_convertible optional fs d ->
    exists out, statements (map (step optional) fs) (PDict d) = Ok out.
Proof.
  induction fs as [|fc fs IH]; intros d D C; cbn [map statements].
  - eexists. reflexivity.
  - inversion C as [|? ? C1 C2]; subst.
    cbn [map] in D. inversion D as [|? ? N D']; subst.
    destruct (step_on_record optional fc d C1) as [d' [-> K]].
    cbn [bind]. apply IH; [exact D'|].
    unfold fields_convertible in *. rewrite Forall_forall in *.
    intros fc' I. rewrite K; [exact (C2 fc' I)|].
    intros E. apply N. rewrite <- E. apply in_map, I.
Qed.

Lemma record_was_convertible (optional : bool)
    (fs : list (string * conversion)) (d : dict) (out : pyval) :
  record_converted optional fs (PDict d) out ->
  fields_convertible optional fs d.
Proof.
  intros [R _]. unfold fields_convertible.
  eapply Forall_impl; [|exact R].
  intros fc. unfold field_converted. cbn [getitem].
  destruct (dict_get d (fst fc)).
  - intros [typed [C _]]. exists typed. exact C.
  - intros [O _]. exact O.
Qed.

(** The statements of a hook succeed on a record exactly when its fields
    are convertible. *)
Lemma statements_accept_record (optional : bool)
    (fs : list (string * conversion)) (d : dict) :
  NoDup (map fst fs) ->
  (exists out, statements (map (step optional) fs) (PDict d) = Ok out)
  <-> fields_convertible optional fs d.
Proof.
  intros D. split.
  - intros [out H]. apply (record_was_convertible optional fs d out).
    apply statements_record; assumption.
  - apply statements_succeed, D.
Qed.

Lemma map_res_succeeds {A B} (g : A -> res B) (l : list A) :
  (exists l', map_res g l = Ok l') <-> Forall (fun a => exists b, g a = Ok b) l.
Proof.
  split.
  - intros [l' H]. apply map_res_Forall2 in H.
    induction H as [|a b l l' G _ IH]; constructor;
      [exists b; exact G|exact IH].
  - induction 1 as [|a l [b G] _ [l' IH]]; cbn [map_res].
    + eexists. reflexivity.
    + rewrite G, IH. eexists. reflexivity.
Qed.

Lemma optional_statements_elsewhere (fs : list (string * conversion))
    (p : pyval) :
  (forall d, p <> PDict d) ->
  (exists out, statements (map (step true) fs) p = Ok out)
  <-> forall fc, In fc fs -> contains (fst fc) p = Ok false.
Proof.
  intros NotRecord. split.
  - intros [out H]. revert H.
    induction fs as [|fc fs IH]; cbn [map statements]; intros H fc' I;
      [destruct I|].
    apply bind_Ok in H. destruct H as [r1 [H1 H]].
    unfold step, coerce_if_present in H1.
    apply bind_Ok in H1. destruct H1 as [b [B H1]].
    destruct b.
    + apply coerce_Ok in H1. destruct H1 as [d [_ [_ [E _]]]].
      exfalso. exact (NotRecord d E).
    + injection H1 as <-. destruct I as [<-|I]; [exact B|].
      exact (IH H fc' I).
  - intros C. exists p. apply statements_fixed, Forall_map, Forall_forall.
    intros fc I. unfold step, coerce_if_present. rewrite (C fc I).
    reflexivity.
Qed.

Lemma required_statements_elsewhere (fs : list (string * conversion))
    (p out : pyval) :
  fs <> [] -> (forall d, p <> PDict d) ->
  statements (map (step false) fs) p = Ok out -> False.
Proof.
  intros N NotRecord H.
  destruct (row_statements_need_record fs p out N H) as [d E].
  exact (NotRecord d E).
Qed.

Lemma rows_accepted (fs : list (string * conversion)) (rows : list pyval) :
  fs <> [] -> NoDup (map fst fs) ->
  (exists out, for_each (statements (map (step false) fs)) (PList rows)
               = Ok out)
  <-> Forall (fun r => exists d, r = PDict d
                                 /\ fields_convertible false fs d) rows.
Proof.
  intros N D.
  assert (Row : forall r,
             (exists r', statements (map (step false) fs) r = Ok r')
             <-> exists d, r = PDict d /\ fields_convertible false fs d).
  { intro r. split.
    - intros [r' H].
      destruct (row_statements_need_record fs r r' N H) as [d ->].
      exists d. split; [reflexivity|].
      apply (statements_accept_record false fs d D). exists r'. exact H.
    - intros [d [-> C]]. apply (statements_accept_record false fs d D), C. }
  unfold for_each. cbn [iterate bind]. split.
  - intros [out H]. apply bind_Ok in H. destruct H as [rows' [M _]].
    assert (S : exists l', map_res (statements (map (step false) fs)) rows
                           = Ok l') by (exists rows'; exact M).
    apply map_res_succeeds in S.
    eapply Forall_impl; [|exact S]. intros r. apply Row.
  - intros F.
    assert (S : Forall (fun r => exists r',
                          statements (map (step false) fs) r = Ok r') rows)
      by (eapply Forall_impl; [|exact F]; intros r; apply Row).
    apply map_res_succeeds in S. destruct S as [rows' ->].
    eexists. reflexivity.
Qed.

Lemma elements_accepted (body : pyval -> res pyval) (p : pyval) :
  (forall r r', body r = Ok r' -> exists d, r = PDict d) ->
  (forall rows, p <> PList rows) ->
  (exists out, for_each body p = Ok out) <-> iterate p = Ok [].
Proof.
  intros B NotList. split.
  - intros [out H]. apply (for_each_not_rows body p out B) in H.
    destruct p; try exact (proj2 H). exfalso. exact (NotList l eq_refl).
  - intros I. unfold for_each. rewrite I. cbn [bind map_res].
    destruct p; eexists; reflexivity.
Qed.

(** X8: The hook of a class accepts a payload exactly when each field it
    converts is there (unless the class converts it only if present) and
    the conversion of the value received there succeeds; for a class that
    works on rows, when this holds of every row.  No conversion depends on
    what another one has done.  Apart from records and lists of rows, the
    only payloads accepted are those in which a hook of optional fields
    finds none of its names, and those without elements for a hook of
    rows. *)
Theorem hook_accepts_exactly (e : endpoint) (p : pyval) :
  (exists out ret, _process_response e p = Ok (out, ret)) <-> acceptable e p.
Proof.
  assert (P : (exists out ret, _process_response e p = Ok (out, ret))
              <-> exists out, process e p = Ok out).
  { unfold _process_response. split.
    - intros [out [ret H]]. apply bind_Ok in H. destruct H as [r [H _]].
      exists r. exact H.
    - intros [out ->]. eexists. eexists. reflexivity. }
  rewrite P. clear P. rewrite process_layout. unfold acceptable.
  pose proof (layout_distinct e) as D.
  assert (N : match layout_of e with
              | Fields false fs | Rows fs => fs <> []
              | _ => True
              end) by (destruct e; cbn [layout_of]; try exact I; discriminate).
  destruct (layout_of e) as [optional fs|fs|].
  - destruct p; try apply (statements_accept_record optional fs _ D);
      (destruct optional;
       [ rewrite optional_statements_elsewhere by discriminate;
         split; [intros H; split; [reflexivity|exact H]|intros [_ H]; exact H]
       | split;
         [ intros [out H]; exfalso;
           refine (required_statements_elsewhere fs _ out N _ H); discriminate
         | intros [H _]; discriminate H ] ]).
  - destruct p; try apply (rows_accepted fs _ N D);
      (apply elements_accepted;
       [intros r r'; apply (row_statements_need_record fs r r' N)
       |discriminate]).
  - split; [trivial|]. intros _. eexists. reflexivity.
Qed.

End Acceptance.

(** ** Date texts *)

Lemma digit_char_cases (n : Z) :
  exists k, digit_char n = ascii_of_N (Z.to_N (48 + k))
            /\ k = n mod 10
            /\ (k = 0 \/ k = 1 \/ k = 2 \/ k = 3 \/ k = 4 \/ k = 5 \/ k = 6
                \/ k = 7 \/ k = 8 \/ k = 9).
Proof.
  exists (n mod 10). split; [reflexivity|]. split; [reflexivity|].
  pose proof (Z.mod_pos_bound n 10 eq_refl). lia.
Qed.

Lemma digit_char_digit (n : Z) : is_digit (digit_char n) = true.
Proof.
  destruct (digit_char_cases n) as [k [-> [_ C]]].
  repeat (destruct C as [->|C]; [reflexivity|]). subst k. reflexivity.
Qed.

Lemma digit_char_val (n : Z) : digit_val (digit_char n) = Z.to_N (n mod 10).
Proof.
  destruct (digit_char_cases n) as [k [-> [<- C]]].
  repeat (destruct C as [->|C]; [reflexivity|]). subst k. reflexivity.
Qed.

Lemma digit_is_no_mark (c : ascii) :
  is_digit c = true ->
  is_space c = false /\ not_a_point c = true /\ Ascii.eqb c "_" = false.
Proof.
  destruct c as [[] [] [] [] [] [] [] []]; vm_compute; intros H;
    (discriminate H || (repeat split; reflexivity)).
Qed.

Lemma digit_char_no_space (n : Z) : is_space (digit_char n) = false.
Proof. exact (proj1 (digit_is_no_mark _ (digit_char_digit n))). Qed.

Lemma digit_char_no_point (n : Z) : not_a_point (digit_char n) = true.
Proof. exact (proj1 (proj2 (digit_is_no_mark _ (digit_char_digit n)))). Qed.

Lemma digit_char_unsigned (n : Z) :
  Ascii.eqb (digit_char n) "-" = false /\ Ascii.eqb (digit_char n) "+" = false.
Proof. exact (digit_not_sign _ (digit_char_digit n)). Qed.

(** *** The matcher *)

Lemma match_first (t : PyTime.token) (ts : list PyTime.token)
    (s m rest : string) (bs : list PyTime.binding) (r : string) :
  hd_error (PyTime.candidates t s) = Some (m, rest) ->
  PyTime.match_tokens ts rest = Some (bs, r) ->
  PyTime.match_tokens (t :: ts) s
  = Some (match t with
          | PyTime.TField f => (f, m) :: bs
          | _ => bs
          end, r).
Proof.
  intros C M. cbn [PyTime.match_tokens].
  destruct (PyTime.candidates t s) as [|c cs]; [discriminate C|].
  injection C as ->. cbn [fold_right fst snd]. rewrite M. reflexivity.
Qed.

Lemma match_classes_split (cs : list (ascii -> bool)) :
  forall s m rest, PyTime.match_classes cs s = Some (m, rest) ->
    s = (m ++ rest)%string.
Proof.
  induction cs as [|p cs IH]; intros s m rest; cbn [PyTime.match_classes].
  - intros [= <- <-]. reflexivity.
  - destruct s as [|c s]; [discriminate|].
    destruct (p c); [|discriminate].
    destruct (PyTime.match_classes cs s) as [[m' t']|] eqn:E; [|discriminate].
    intros [= <- <-]. cbn [String.append]. rewrite (IH s m' t' E).
    reflexivity.
Qed.

Lemma space_splits_split (s : string) :
  forall m rest, In (m, rest) (PyTime.space_splits s) ->
    s = (m ++ rest)%string.
Proof.
  induction s as [|c s IH]; intros m rest; cbn [PyTime.space_splits];
    [intros []|].
  destruct (is_space c); [|intros []].
  intros I. apply in_app_or in I. destruct I as [I|[I|[]]].
  - apply in_map_iff in I. destruct I as [[m' r'] [E I]].
    cbn [fst snd] in E. injection E as <- <-.
    cbn [String.append]. rewrite (IH m' r' I). reflexivity.
  - injection I as <- <-. reflexivity.
Qed.

(** What a token takes and what it leaves make up the data. *)
Lemma candidates_split (t : PyTime.token) (s m rest : string) :
  In (m, rest) (PyTime.candidates t s) -> s = (m ++ rest)%string.
Proof.
  destruct t as [c| |f]; cbn [PyTime.candidates].
  - destruct s as [|c' r]; [intros []|].
    destruct (Ascii.eqb _ _); [|intros []].
    intros [I|[]]. injection I as <- <-. reflexivity.
  - apply space_splits_split.
  - intros I. apply in_flat_map in I. destruct I as [cs [_ I]].
    destruct (PyTime.match_classes cs s) as [[m' r']|] eqn:E; [|destruct I].
    destruct I as [I|[]]. injection I as <- <-.
    exact (match_classes_split cs s m' r' E).
Qed.

Lemma point_only (c : ascii) :
  Ascii.eqb (lower_ascii ".") (lower_ascii c) = true -> not_a_point c = false.
Proof.
  destruct c as [[] [] [] [] [] [] [] []]; vm_compute; intros H;
    (discriminate H || reflexivity).
Qed.

Lemma no_candidate_matches {X : Type} (try1 : string * string -> option X)
    (l : list (string * string)) :
  (forall mt, In mt l -> try1 mt = None) ->
  fold_right (fun mt later => match try1 mt with
                              | Some x => Some x
                              | None => later
                              end) None l = None.
Proof.
  induction l as [|mt l IH]; intros H; cbn [fold_right]; [reflexivity|].
  rewrite (H mt (or_introl eq_refl)). apply IH.
  intros mt' I. apply H. right. exact I.
Qed.

(** A format that asks for a point matches no data without one. *)
Lemma match_tokens_no_point (ts : list PyTime.token) :
  In (PyTime.TLit ".") ts ->
  forall s, all_chars not_a_point s = true -> PyTime.match_tokens ts s = None.
Proof.
  induction ts as [|t ts IH]; [intros []|].
  intros I s A. cbn [PyTime.match_tokens].
  apply no_candidate_matches. intros [m rest] C. cbn [fst snd].
  pose proof (candidates_split t s m rest C) as E.
  destruct I as [->|I].
  - exfalso. cbn [PyTime.candidates] in C.
    destruct s as [|c r]; [destruct C|].
    cbn [all_chars] in A. apply andb_true_iff in A. destruct A as [A _].
    destruct (Ascii.eqb (lower_ascii ".") (lower_ascii c)) eqn:P;
      [|destruct C].
    rewrite (point_only c P) in A. discriminate A.
  - rewrite (IH I rest); [reflexivity|].
    rewrite E, all_chars_app in A. apply andb_true_iff in A. apply A.
Qed.

(** *** The fields of a date text *)

Lemma year_field (y : Z) (rest : string) :
  hd_error (PyTime.candidates (PyTime.TField PyTime.DY)
              (four_digits y ++ rest))
  = Some (four_digits y, rest).
Proof.
  unfold four_digits, two_digits.
  cbn [String.append PyTime.candidates PyTime.alternatives flat_map
       PyTime.match_classes].
  rewrite !digit_char_digit. reflexivity.
Qed.

Lemma year_value (y : Z) :
  0 <= y <= 9999 -> Z.of_N (digits_value (lstrip (four_digits y))) = y.
Proof.
  intros R. unfold four_digits, two_digits, digits_value.
  cbn [lstrip]. rewrite digit_char_no_space.
  cbn [digits_value_from]. rewrite !digit_char_val.
  pose proof (Z.mod_pos_bound (y / 1000) 10 eq_refl).
  pose proof (Z.mod_pos_bound (y / 100) 10 eq_refl).
  pose proof (Z.mod_pos_bound (y / 10) 10 eq_refl).
  pose proof (Z.mod_pos_bound y 10 eq_refl).
  rewrite !N2Z.inj_add, !N2Z.inj_mul, !Z2N.id by lia.
  change (Z.of_N 10) with 10. change (Z.of_N 0) with 0.
  assert (D1 : y / 10 / 10 = y / 100)
    by (rewrite Z.div_div by lia; reflexivity).
  assert (D2 : y / 100 / 10 = y / 1000)
    by (rewrite Z.div_div by lia; reflexivity).
  pose proof (Z.div_mod y 10 ltac:(lia)) as E0.
  pose proof (Z.div_mod (y / 10) 10 ltac:(lia)) as E1.
  pose proof (Z.div_mod (y / 100) 10 ltac:(lia)) as E2.
  rewrite D1 in E1. rewrite D2 in E2.
  assert (S : (y / 1000) mod 10 = y / 1000).
  { apply Z.mod_small. split; [apply Z.div_pos; lia|].
    apply Z.div_lt_upper_bound; lia. }
  rewrite S in *. lia.
Qed.

Lemma two_digit_field (f : PyTime.directive) (n : Z) (rest : string) :
  field_value f n ->
  hd_error (PyTime.candidates (PyTime.TField f) (two_digits n ++ rest))
  = Some (two_digits n, rest)
  /\ Z.of_N (digits_value (lstrip (two_digits n))) = n.
Proof.
  intros R.
  assert (E : exists i : nat, n = Z.of_nat i /\ (i <= 61)%nat)
    by (exists (Z.to_nat n); destruct f; cbn [field_value] in R; lia).
  destruct E as [i [-> Hi]].
  destruct f; cbn [field_value] in R; try contradiction;
    do 62 (destruct i as [|i];
           [try (exfalso; lia); split; vm_compute; reflexivity|]);
    lia.
Qed.

Lemma literal_candidate (c : ascii) (rest : string) :
  hd_error (PyTime.candidates (PyTime.TLit c) (String c rest))
  = Some (String c EmptyString, rest).
Proof. cbn [PyTime.candidates]. rewrite Ascii.eqb_refl. reflexivity. Qed.

Lemma space_candidate (n : Z) (rest : string) :
  hd_error (PyTime.candidates PyTime.TSpaces
              (String " " (two_digits n ++ rest)))
  = Some (String " " EmptyString, (two_digits n ++ rest)%string).
Proof.
  unfold two_digits. cbn [String.append PyTime.candidates PyTime.space_splits].
  change (is_space " ") with true. cbv iota.
  rewrite digit_char_no_space. reflexivity.
Qed.

Lemma fraction_candidate (f : string) :
  fraction_digits f ->
  hd_error (PyTime.candidates (PyTime.TField PyTime.Df) f)
  = Some (f, EmptyString).
Proof.
  intros [A Len].
  destruct f as [|c1 [|c2 [|c3 [|c4 [|c5 [|c6 [|c7 f]]]]]]];
    cbn [String.length] in Len; try lia;
    cbn [all_chars] in A;
    repeat match type of A with
           | (_ && _)%bool = true =>
               let A1 := fresh "A" in
               apply andb_true_iff in A; destruct A as [A1 A]
           end;
    cbn [PyTime.candidates PyTime.alternatives flat_map repeat
         PyTime.match_classes];
    repeat match goal with
           | H : is_digit _ = true |- _ => rewrite H; clear H
           end;
    reflexivity.
Qed.

(** The tokens of the date format take a date text whole, field by
    field, and go on with what follows it. *)
Lemma match_date (ts : list PyTime.token) (suffix : string)
    (bs : list PyTime.binding) (r : string) (y m d H M S : Z) :
  field_value PyTime.Dm m -> field_value PyTime.Dd d ->
  field_value PyTime.DH H -> field_value PyTime.DM M ->
  field_value PyTime.DS S ->
  PyTime.match_tokens ts suffix = Some (bs, r) ->
  PyTime.match_tokens (date_tokens ++ ts) (date_text y m d H M S ++ suffix)
  = Some (date_bindings y m d H M S ++ bs, r).
Proof.
  intros Vm Vd VH VM VS T.
  unfold date_text, date_tokens, date_bindings.
  rewrite !append_assoc. cbn [app].
  apply (match_first (PyTime.TField PyTime.DY) _ _ (four_digits y) _ _ _
           (year_field y _)).
  apply (match_first (PyTime.TLit "-") _ _ _ _ _ _ (literal_candidate "-" _)).
  apply (match_first (PyTime.TField PyTime.Dm) _ _ (two_digits m) _ _ _
           (proj1 (two_digit_field PyTime.Dm m _ Vm))).
  apply (match_first (PyTime.TLit "-") _ _ _ _ _ _ (literal_candidate "-" _)).
  apply (match_first (PyTime.TField PyTime.Dd) _ _ (two_digits d) _ _ _
           (proj1 (two_digit_field PyTime.Dd d _ Vd))).
  apply (match_first PyTime.TSpaces _ _ _ _ _ _ (space_candidate H _)).
  apply (match_first (PyTime.TField PyTime.DH) _ _ (two_digits H) _ _ _
           (proj1 (two_digit_field PyTime.DH H _ VH))).
  apply (match_first (PyTime.TLit ":") _ _ _ _ _ _ (literal_candidate ":" _)).
  apply (match_first (PyTime.TField PyTime.DM) _ _ (two_digits M) _ _ _
           (proj1 (two_digit_field PyTime.DM M _ VM))).
  apply (match_first (PyTime.TLit ":") _ _ _ _ _ _ (literal_candidate ":" _)).
  apply (match_first (PyTime.TField PyTime.DS) _ _ (two_digits S) _ _ _
           (proj1 (two_digit_field PyTime.DS S _ VS))).
  exact T.
Qed.

Lemma days_in_month_bound (y m : Z) : PyTime.days_in_month y m <= 31.
Proof.
  unfold PyTime.days_in_month.
  destruct (m =? 2); [destruct (PyTime.is_leap y); lia|].
  destruct (_ || _)%bool; lia.
Qed.

Lemma valid_date_fields (y m d : Z) :
  PyTime.valid_date y m d = true ->
  0 <= y <= 9999 /\ field_value PyTime.Dm m /\ field_value PyTime.Dd d.
Proof.
  unfold PyTime.valid_date. intros V.
  repeat (apply andb_true_iff in V; destruct V as [V ?]).
  pose proof (days_in_month_bound y m). cbn [field_value]. lia.
Qed.

Lemma date_fields_read (y m d H M S : Z) (more : list PyTime.binding) :
  PyTime.valid_date y m d = true -> clock_time H M S ->
  let bs := date_bindings y m d H M S ++ more in
  PyTime.field_of bs PyTime.DY 1900 = y
  /\ PyTime.field_of bs PyTime.Dm 1 = m
  /\ PyTime.field_of bs PyTime.Dd 1 = d
  /\ PyTime.field_of bs PyTime.DH 0 = H
  /\ PyTime.field_of bs PyTime.DM 0 = M
  /\ PyTime.field_of bs PyTime.DS 0 = S.
Proof.
  intros V [VH [VM VS]]. destruct (valid_date_fields y m d V) as [Vy [Vm Vd]].
  cbv zeta. unfold date_bindings.
  cbn [app PyTime.field_of PyTime.directive_eqb].
  split; [exact (year_value y Vy)|].
  split; [exact (proj2 (two_digit_field PyTime.Dm m EmptyString Vm))|].
  split; [exact (proj2 (two_digit_field PyTime.Dd d EmptyString Vd))|].
  split; [exact (proj2 (two_digit_field PyTime.DH H EmptyString VH))|].
  split; [exact (proj2 (two_digit_field PyTime.DM M EmptyString VM))|].
  exact (proj2 (two_digit_field PyTime.DS S EmptyString VS)).
Qed.

(** [strptime] reads a date text with the format of whole seconds. *)
Lemma strptime_date_text (y m d H M S : Z) :
  PyTime.valid_date y m d = true -> clock_time H M S ->
  PyTime.strptime (PStr (date_text y m d H M S)) "%Y-%m-%d %H:%M:%S"
  = Ok (PyTime.StructTime y m d H M S).
Proof.
  intros V C. pose proof C as [VH [VM VS]].
  destruct (valid_date_fields y m d V) as [_ [Vm Vd]].
  unfold PyTime.strptime.
  replace (PyTime.compile_format "%Y-%m-%d %H:%M:%S")
    with (Some (date_tokens ++ [])) by (vm_compute; reflexivity).
  rewrite <- (append_empty (date_text y m d H M S)).
  rewrite (match_date [] EmptyString [] EmptyString y m d H M S
             Vm Vd VH VM VS eq_refl).
  destruct (date_fields_read y m d H M S [] V C)
    as [-> [-> [-> [-> [-> ->]]]]].
  rewrite V. reflexivity.
Qed.

(** With the format of a fraction of a second it reads the same fields
    from a date text followed by a point and one to six digits. *)
Lemma strptime_date_text_fraction (y m d H M S : Z) (f : string) :
  PyTime.valid_date y m d = true -> clock_time H M S -> fraction_digits f ->
  PyTime.strptime (PStr (date_text y m d H M S ++ "." ++ f))
                  "%Y-%m-%d %H:%M:%S.%f"
  = Ok (PyTime.StructTime y m d H M S).
Proof.
  intros V C F. pose proof C as [VH [VM VS]].
  destruct (valid_date_fields y m d V) as [_ [Vm Vd]].
  unfold PyTime.strptime.
  replace (PyTime.compile_format "%Y-%m-%d %H:%M:%S.%f")
    with (Some (date_tokens ++ [PyTime.TLit "."; PyTime.TField PyTime.Df]))
    by (vm_compute; reflexivity).
  rewrite (match_date [PyTime.TLit "."; PyTime.TField PyTime.Df]
             ("." ++ f) [(PyTime.Df, f)] EmptyString y m d H M S
             Vm Vd VH VM VS).
  - destruct (date_fields_read y m d H M S [(PyTime.Df, f)] V C)
      as [-> [-> [-> [-> [-> ->]]]]].
    rewrite V. reflexivity.
  - cbn [String.append].
    apply (match_first (PyTime.TLit ".") _ _ _ _ _ _
             (literal_candidate "." _)).
    apply (match_first (PyTime.TField PyTime.Df) _ _ f _ _ _
             (fraction_candidate f F)).
    reflexivity.
Qed.

(** *** Neither an integer nor, without a point, a time with a fraction *)

Lemma rstrip_app_plain (a b : string) :
  b <> EmptyString -> all_chars plain_char b = true ->
  rstrip (a ++ b) = (a ++ b)%string.
Proof.
  intros N P. induction a as [|x a IH]; cbn [String.append].
  - apply rstrip_plain, P.
  - cbn [rstrip]. rewrite IH.
    destruct (a ++ b)%string eqn:E; [|reflexivity].
    destruct a; [cbn in E; congruence|discriminate E].
Qed.

Lemma two_digits_plain (n : Z) : all_chars plain_char (two_digits n) = true.
Proof.
  unfold two_digits. cbn [all_chars].
  rewrite !(digit_is_plain _ (digit_char_digit _)). reflexivity.
Qed.

Lemma int_digits_digit (c : ascii) (r : string) (acc : N) (after : bool) :
  is_digit c = true ->
  int_digits acc after (String c r)
  = int_digits (10 * acc + digit_val c)%N true r.
Proof. intros D. cbn [int_digits]. rewrite D. reflexivity. Qed.

Lemma int_digits_hyphen (r : string) (acc : N) :
  int_digits acc true (String "-" r) = None.
Proof. reflexivity. Qed.

Lemma date_text_not_integer (y m d H M S : Z) (suffix last : string) :
  last <> EmptyString -> all_chars plain_char last = true ->
  (date_text y m d H M S ++ suffix)%string
  = ((four_digits y ++ "-" ++ two_digits m ++ "-" ++ two_digits d ++ " "
      ++ two_digits H ++ ":" ++ two_digits M ++ ":") ++ last)%string ->
  py_int (PStr (date_text y m d H M S ++ suffix)) = Raise ValueError.
Proof.
  intros N P E. cbn [py_int]. unfold int_of_str, strip.
  assert (Ls : lstrip (date_text y m d H M S ++ suffix)
               = (date_text y m d H M S ++ suffix)%string).
  { unfold date_text, four_digits. cbn [String.append lstrip].
    rewrite digit_char_no_space. reflexivity. }
  rewrite Ls. rewrite E at 1. rewrite (rstrip_app_plain _ last N P).
  rewrite <- E.
  unfold date_text, four_digits, two_digits.
  cbn [String.append take_sign].
  destruct (digit_char_unsigned (y / 1000)) as [-> ->].
  rewrite !int_digits_digit by apply digit_char_digit.
  rewrite int_digits_hyphen. reflexivity.
Qed.

Lemma date_text_no_point (y m d H M S : Z) :
  all_chars not_a_point (date_text y m d H M S) = true.
Proof.
  unfold date_text, four_digits, two_digits.
  cbn [String.append all_chars]. rewrite !digit_char_no_point.
  reflexivity.
Qed.

Lemma date_text_truthy (y m d H M S : Z) (suffix : string) :
  truthy (PStr (date_text y m d H M S ++ suffix)) = true.
Proof. reflexivity. Qed.

(** X13: A date and time of day written with all its digits is converted to
    the second [mktime] gives for exactly those fields: it is not taken
    for an integer, it is refused by the format with a fraction, and the
    format of whole seconds reads each field as written.  Followed by a
    point and one to six digits it is converted to the same second: the
    fraction is read and dropped. *)
Theorem dt_converts_date_texts (off y m d H M S : Z) (f : string) :
  PyTime.valid_date y m d = true -> clock_time H M S -> fraction_digits f ->
  let second :=
    ts <- PyTime.mktime off (PyTime.StructTime y m d H M S) ;;
    t <- PyTime.fromtimestamp off ts ;;
    Ok (PDatetime t) in
  @dt (CPython off) (PStr (date_text y m d H M S)) = second
  /\ @dt (CPython off) (PStr (date_text y m d H M S ++ "." ++ f)) = second.
Proof.
  intros V C F second. subst second. split.
  - rewrite (dt_seconds_last (L := CPython off)).
    + cbn [lib_strptime lib_mktime lib_fromtimestamp CPython].
      rewrite (strptime_date_text y m d H M S V C). reflexivity.
    + rewrite <- (append_empty (date_text y m d H M S)).
      apply date_text_truthy.
    + cbn [lib_int CPython].
      rewrite <- (append_empty (date_text y m d H M S)).
      apply (date_text_not_integer y m d H M S EmptyString (two_digits S)).
      * discriminate.
      * apply two_digits_plain.
      * unfold date_text. rewrite append_empty, !append_assoc. reflexivity.
    + cbn [lib_strptime lib_mktime CPython]. unfold PyTime.strptime.
      replace (PyTime.compile_format "%Y-%m-%d %H:%M:%S.%f")
        with (Some (date_tokens ++ [PyTime.TLit "."; PyTime.TField PyTime.Df]))
        by (vm_compute; reflexivity).
      rewrite match_tokens_no_point;
        [reflexivity|apply in_or_app; right; left; reflexivity
        |apply date_text_no_point].
  - destruct F as [FA FL].
    assert (Mk : exists ts,
               PyTime.mktime off (PyTime.StructTime y m d H M S) = Ok ts)
      by (eexists; reflexivity).
    destruct Mk as [ts Mk]. rewrite Mk. cbn [bind].
    apply (dt_fraction_second (L := CPython off)).
    + apply date_text_truthy.
    + cbn [lib_int CPython].
      apply (date_text_not_integer y m d H M S _
               (two_digits S ++ "." ++ f)).
      * unfold two_digits. discriminate.
      * rewrite all_chars_app, two_digits_plain.
        cbn [andb String.append all_chars].
        rewrite (all_chars_weaken _ _ _ digit_is_plain FA). reflexivity.
      * unfold date_text. rewrite !append_assoc. reflexivity.
    + cbn [lib_strptime lib_mktime CPython].
      rewrite (strptime_date_text_fraction y m d H M S f V C (conj FA FL)).
      exact Mk.
Qed.

Lemma dt_converts_date_texts_witness :
  @dt (CPython 3600) (PStr "2021-01-01 10:00:00.500000")
  = Ok (PDatetime (Datetime 1609491600)).
Proof.
  refine (proj2 (dt_converts_date_texts 3600 2021 1 1 10 0 0 "500000"
                   eq_refl _ _)).
  - unfold clock_time. lia.
  - split; [reflexivity|cbn [String.length]; lia].
Defined.

(** ** The two limit-order hooks side by side *)

Section LimitOrders.
Context {L : Library}.

Lemma contains_kept (g : pyval -> res pyval) (k k' : string) (r r' : pyval) :
  k' <> k -> coerce_if_present g k r = Ok r' ->
  contains k' r' = contains k' r.
Proof.
  intros N H. unfold coerce_if_present in H.
  apply bind_Ok in H. destruct H as [c [_ H]].
  destruct c; [|injection H as <-; reflexivity].
  apply coerce_Ok in H. destruct H as [d [x [y [-> [_ [_ ->]]]]]].
  cbn [contains]. unfold dict_has.
  rewrite (dict_get_set_other d k k' y N). reflexivity.
Qed.

Lemma limit_order_statements (p : pyval) :
  process APIBuyLimitOrderBTCEURCall p
  = (r <- process APISellLimitBTCEUROrderCall p ;;
     c <- contains "reason" r ;;
     if c then first_reason r else Ok r).
Proof.
  cbn [process].
  change (statements
            [coerce_if_present dt "datetime";
             coerce_if_present to_Decimal "price";
             coerce_if_present to_Decimal "amount";
             fun r => c <- contains "reason" r ;;
                      if c then first_reason r else Ok r] p)
    with (statements
            ([coerce_if_present dt "datetime";
              coerce_if_present to_Decimal "price";
              coerce_if_present to_Decimal "amount"]
             ++ [fun r => c <- contains "reason" r ;;
                          if c then first_reason r else Ok r]) p).
  rewrite statements_app.
  destruct (statements _ p) as [r|x]; cbn [bind statements]; [|reflexivity].
  destruct (contains "reason" r) as [[|]|x]; cbn [bind]; try reflexivity.
  destruct (first_reason r); reflexivity.
Qed.

Lemma sell_keeps_reason_absent (p r : pyval) :
  process APISellLimitBTCEUROrderCall p = Ok r ->
  contains "reason" r = contains "reason" p.
Proof.
  cbn [process statements]. intros H.
  apply bind_Ok in H. destruct H as [r1 [H1 H]].
  apply bind_Ok in H. destruct H as [r2 [H2 H]].
  apply bind_Ok in H. destruct H as [r3 [H3 H]]. injection H as <-.
  rewrite (contains_kept _ "amount" "reason" _ _ ltac:(discriminate) H3).
  rewrite (contains_kept _ "price" "reason" _ _ ltac:(discriminate) H2).
  exact (contains_kept _ "datetime" "reason" _ _ ltac:(discriminate) H1).
Qed.

(** X16: The buy hook and the sell hook differ in the field [reason] and
    in nothing else.  On a payload in which no [reason] is found they do
    the same, raising the same exception when they raise; and whenever the
    buy hook accepts a payload so does the sell hook, and the two results
    have the same value in every field other than [reason]. *)
Theorem limit_order_hooks_differ_only_in_reason (p : pyval) :
  (contains "reason" p = Ok false ->
   _process_response APIBuyLimitOrderBTCEURCall p
   = _process_response APISellLimitBTCEUROrderCall p)
  /\ (forall out ret,
        _process_response APIBuyLimitOrderBTCEURCall p = Ok (out, ret) ->
        exists out',
          _process_response APISellLimitBTCEUROrderCall p = Ok (out', None)
          /\ forall f, f <> "reason"%string ->
               getitem out f = getitem out' f).
Proof.
  split.
  - intros A. unfold _process_response. rewrite limit_order_statements.
    destruct (process APISellLimitBTCEUROrderCall p) as [r|x] eqn:S;
      cbn [bind]; [|reflexivity].
    rewrite (sell_keeps_reason_absent p r S), A. reflexivity.
  - intros out ret H. apply _process_response_Ok in H. destruct H as [H _].
    rewrite limit_order_statements in H.
    unfold _process_response.
    destruct (process APISellLimitBTCEUROrderCall p) as [r|x];
      [|discriminate H].
    cbn [bind] in *. exists r. split; [reflexivity|].
    intros f N. exact (reason_keeps f N r out H).
Qed.

End LimitOrders.

Lemma limit_order_hooks_differ_only_in_reason_witness :
  exists out',
    @_process_response (CPython 0) APISellLimitBTCEUROrderCall rejected_order
    = Ok (out', None)
    /\ getitem out' "status" = Ok (PStr "error").
Proof.
  destruct (proj2 (limit_order_hooks_differ_only_in_reason
                     (L := CPython 0) rejected_order)
              (PDict [("status", PStr "error");
                      ("reason", PStr "Minimum order size is 5 EUR.")])
              None eq_refl)
    as [out' [S K]].
  exists out'. split; [exact S|].
  rewrite <- (K "status"%string ltac:(discriminate)). reflexivity.
Defined.
